(** * GivingForward nonprofit database: ingestion, storage, search, statistics

    A shallow embedding of [app/irs_processor.py], [app/database.py] and the
    search endpoint of [app/main.py], together with the properties the
    specification states about them.

    Conventions.
    - Python [str] is Rocq [string], one [ascii] per character: the texts
      are those whose characters lie below U+0100.
    - A Python [dict] with string keys is a [gmap string _]; [d.get(k)] is
      [d !! k] and [d.get(k, v)] is [default v (d !! k)].
    - A Python function that may raise returns a [result].
    - The SQLite tables are lists of rows in insertion order; the SQL text the
      code assembles is kept as a small syntax tree with positional [?]
      parameters and is run by an evaluator. *)

From Stdlib Require Import ZArith Lia Ascii String.
From Stdlib Require OrderedTypeEx.
From stdpp Require Import gmap strings list fin_maps pretty sorting.

Open Scope string_scope.
Open Scope Z_scope.
Open Scope list_scope.

(** ** Python strings *)

Module PyStr.

(** [str.isspace] of one character.  Below U+0100 Python counts as
    whitespace TAB, LF, VT, FF, CR, FS, GS, RS, US, the space, NEL (U+0085)
    and the no-break space (U+00A0). *)
Definition isspace (c : ascii) : bool :=
  let n := nat_of_ascii c in
  ((9 <=? n)%nat && (n <=? 13)%nat) || ((28 <=? n)%nat && (n <=? 32)%nat)
  || (n =? 133)%nat || (n =? 160)%nat.

Fixpoint lstrip (s : string) : string :=
  match s with
  | EmptyString => EmptyString
  | String c s' => if isspace c then lstrip s' else s
  end.

Fixpoint rstrip (s : string) : string :=
  match s with
  | EmptyString => EmptyString
  | String c s' =>
      match rstrip s' with
      | EmptyString => if isspace c then EmptyString else String c EmptyString
      | r => String c r
      end
  end.

(** [s.strip()] *)
Definition strip (s : string) : string := rstrip (lstrip s).

(** [c.upper()] of one character: the letters a-z and, above U+007F, the
    letters U+00E0-U+00FE but the division sign move down by 32; the sharp s
    (U+00DF) becomes SS.  The micro sign (U+00B5) and y with diaeresis
    (U+00FF) become U+039C and U+0178, which a [string] cannot hold: [None]. *)
Definition upper_char (c : ascii) : option string :=
  let n := nat_of_ascii c in
  if ((97 <=? n)%nat && (n <=? 122)%nat)
     || ((224 <=? n)%nat && (n <=? 254)%nat && negb (n =? 247)%nat)
  then Some (String (ascii_of_nat (n - 32)) EmptyString)
  else if (n =? 223)%nat then Some "SS"
  else if (n =? 181)%nat || (n =? 255)%nat then None
  else Some (String c EmptyString).

(** [s.upper()], [None] when the result has a character at or above U+0100. *)
Fixpoint upper (s : string) : option string :=
  match s with
  | EmptyString => Some EmptyString
  | String c s' =>
      match upper_char c, upper s' with
      | Some u, Some r => Some (u ++ r)%string
      | _, _ => None
      end
  end.

(** [s[:n]] for a non-negative literal [n] *)
Fixpoint prefix (n : nat) (s : string) : string :=
  match n, s with
  | S n', String c s' => String c (prefix n' s')
  | _, _ => EmptyString
  end.

(** [s[0]] of a non-empty string, as a string of length one *)
Definition head (s : string) : string := prefix 1 s.

(** Truth value of a string: non-empty. *)
Definition truthy (s : string) : bool :=
  match s with EmptyString => false | _ => true end.

(** Every character of [s] is whitespace. *)
Fixpoint blank (s : string) : bool :=
  match s with
  | EmptyString => true
  | String c s' => isspace c && blank s'
  end.

End PyStr.

(** ** Exceptions *)

Inductive exn : Set :=
  | AttributeError     (* a method looked up on [None] *)
  | ValueError         (* [range] with a zero step *)
  | IntegrityError     (* a NOT NULL constraint of the schema failed *)
  | OperationalError   (* a statement SQLite cannot prepare or run *)
  | TypeError          (* subscripting [None] *)
  | ProgrammingError   (* wrong number of bindings supplied to a statement *)
  | OverflowError.     (* an [int] too large to convert to SQLite INTEGER *)

Inductive result (A : Type) : Type :=
  | Ok (a : A)
  | Raise (e : exn).
Arguments Ok {A} a.
Arguments Raise {A} e.

(** Sequencing: the first exception raised ends the computation.  With these
    instances [x ← m; k] is stdpp's notation for it. *)
#[global] Instance result_ret : MRet result := λ A a, Ok a.
#[global] Instance result_bind : MBind result := λ A B k m,
  match m with
  | Ok a => k a
  | Raise e => Raise e
  end.

(** Values found in an organization [dict]. *)
Inductive pyval : Type :=
  | PNone
  | PStr (s : string)
  | PInt (z : Z).

#[global] Instance pyval_eq_dec : EqDecision pyval.
Proof. solve_decision. Defined.

(** ** app/irs_processor.py *)

Module IRSDataProcessor.

(** A row as [csv.DictReader] yields it: every header column is a key; the
    value is the field text, or [None] when the line has too few fields. *)
Abbreviation raw_row := (gmap string (option string)).

(** A parsed organization. *)
Abbreviation org := (gmap string pyval).

Definition AMOUNT_CODES : gmap string Z :=
  list_to_map
    [ ("", 0); ("0", 0); ("1", 5000); ("2", 25000); ("3", 62500);
      ("4", 175000); ("5", 375000); ("6", 750000); ("7", 2500000);
      ("8", 7500000); ("9", 25000000); ("A", 75000000); ("B", 175000000);
      ("C", 375000000); ("D", 750000000) ].

Definition NTEE_CATEGORIES : gmap string string :=
  list_to_map
    [ ("A", "Arts, Culture & Humanities");
      ("B", "Education");
      ("C", "Environment");
      ("D", "Animal-Related");
      ("E", "Health Care");
      ("F", "Mental Health & Crisis Intervention");
      ("G", "Diseases, Disorders & Medical Disciplines");
      ("H", "Medical Research");
      ("I", "Crime & Legal-Related");
      ("J", "Employment");
      ("K", "Food, Agriculture & Nutrition");
      ("L", "Housing & Shelter");
      ("M", "Public Safety, Disaster Preparedness & Relief");
      ("N", "Recreation & Sports");
      ("O", "Youth Development");
      ("P", "Human Services");
      ("Q", "International, Foreign Affairs & National Security");
      ("R", "Civil Rights, Social Action & Advocacy");
      ("S", "Community Improvement & Capacity Building");
      ("T", "Philanthropy, Voluntarism & Grantmaking Foundations");
      ("U", "Science & Technology");
      ("V", "Social Science");
      ("W", "Public & Societal Benefit");
      ("X", "Religion-Related");
      ("Y", "Mutual & Membership Benefit");
      ("Z", "Unknown") ].

(** [str(code)] for a field value. *)
Definition py_str (code : option string) : string :=
  match code with
  | Some s => s
  | None => "None"
  end.

(** [_parse_amount_code]: [code = str(code).strip().upper()], then
    [AMOUNT_CODES.get(code, 0)].  An upper-case form with a character at or
    above U+0100 is no key of the table. *)
Definition _parse_amount_code (code : option string) : Z :=
  match PyStr.upper (PyStr.strip (py_str code)) with
  | Some code => default 0 (AMOUNT_CODES !! code)
  | None => 0
  end.

(** [row.get(key, '')] *)
Definition get (row : raw_row) (key : string) : option string :=
  default (Some "") (row !! key).

(** [value.strip()]; [None] has no such method. *)
Definition strip (value : option string) : result string :=
  match value with
  | Some s => Ok (PyStr.strip s)
  | None => Raise AttributeError
  end.

(** [_parse_eo_row]: [Ok None] is the returned [None]. *)
Definition _parse_eo_row (row : raw_row) : result (option org) :=
  ein ← strip (get row "EIN");
  if negb (PyStr.truthy ein) then Ok None else
  name ← strip (get row "NAME");
  street ← strip (get row "STREET");
  city ← strip (get row "CITY");
  state ← strip (get row "STATE");
  zip ← strip (get row "ZIP");
  subsection_code ← strip (get row "SUBSECTION");
  ntee_code ← strip (get row "NTEE_CD");
  foundation_code ← strip (get row "FOUNDATION");
  let asset_amount := _parse_amount_code (get row "ASSET_AMT") in
  let income_amount := _parse_amount_code (get row "INCOME_AMT") in
  let revenue_amount := _parse_amount_code (get row "REVENUE_AMT") in
  tax_exempt_status ← strip (get row "STATUS");
  ruling_date ← strip (get row "RULING");
  tax_period ← strip (get row "TAX_PERIOD");
  group_exemption ← strip (get row "GEN");
  deductibility ← strip (get row "DEDUCTIBILITY");
  activity_codes ← strip (get row "ACTIVITY");
  organization_code ← strip (get row "ORGANIZATION");
  let org : org :=
    list_to_map
      [ ("ein", PStr ein);
        ("name", PStr (PyStr.prefix 500 name));
        ("street", PStr street);
        ("city", PStr city);
        ("state", PStr (PyStr.prefix 2 state));
        ("zip", PStr (PyStr.prefix 10 zip));
        ("subsection_code", PStr subsection_code);
        ("ntee_code", PStr ntee_code);
        ("foundation_code", PStr foundation_code);
        ("asset_amount", PInt asset_amount);
        ("income_amount", PInt income_amount);
        ("revenue_amount", PInt revenue_amount);
        ("tax_exempt_status", PStr tax_exempt_status);
        ("ruling_date", PStr ruling_date);
        ("tax_period", PStr tax_period);
        ("group_exemption", PStr group_exemption);
        ("deductibility", PStr deductibility);
        ("activity_codes", PStr activity_codes);
        ("organization_code", PStr organization_code);
        ("data_source", PStr "IRS_EO_BMF") ] in
  if PyStr.truthy ntee_code then
    let category_code := PyStr.head ntee_code in
    Ok (Some (<["ntee_description" :=
                 PStr (default "Unknown" (NTEE_CATEGORIES !! category_code))]> org))
  else Ok (Some org).

(** [parse_eo_bmf] over the rows of one partition file.  The loop body is
    [try: org = _parse_eo_row(row); if org: append  except Exception: continue];
    the function returns the list and nothing else. *)
Fixpoint parse_eo_bmf (rows : list raw_row) : list org :=
  match rows with
  | [] => []
  | row :: rest =>
      match _parse_eo_row row with
      | Ok (Some o) => o :: parse_eo_bmf rest
      | Ok None => parse_eo_bmf rest
      | Raise _ => parse_eo_bmf rest
      end
  end.

(** What one run meets outside the program: the partition files
    [download_eo_bmf] managed to retrieve, each as the rows its reader yields,
    whether [download_pub78] returned a path, and the clock at the start and
    at the end of the run (in seconds). *)
Record environment : Type := {
  downloaded : list (list raw_row);
  pub78 : bool;
  clock_start : Z;
  clock_end : Z
}.

(** The [stats] dictionary.  [pub78_downloaded] is [None] when the key is
    never set. *)
Record stats : Type := {
  started_at : Z;
  eo_bmf_files : Z;
  organizations_processed : Z;
  errors : Z;
  pub78_downloaded : option bool;
  completed_at : option Z;
  duration : option Z
}.

(** Outcome of [process_all_data]: the returned pair, and the list dumped to
    the processed-output file when one is written. *)
Record run : Type := {
  run_stats : stats;
  run_organizations : list org;
  run_output_file : option (list org)
}.

Definition process_all_data (env : environment) : run :=
  let stats :=
    {| started_at := clock_start env; eo_bmf_files := 0;
       organizations_processed := 0; errors := 0;
       pub78_downloaded := None; completed_at := None; duration := None |} in
  let downloaded_files := downloaded env in
  (* [all_organizations] is a local of the branch: [None] while unbound *)
  let '(stats, all_organizations, output_file) :=
    match downloaded_files with
    | [] => (stats, None, None)
    | _ =>
        let all_organizations := concat (map parse_eo_bmf downloaded_files) in
        ({| started_at := started_at stats;
            eo_bmf_files := Z.of_nat (length downloaded_files);
            organizations_processed := Z.of_nat (length all_organizations);
            errors := errors stats;
            pub78_downloaded := pub78_downloaded stats;
            completed_at := completed_at stats;
            duration := duration stats |},
         Some all_organizations, Some all_organizations)
    end in
  let pub78_downloaded := if pub78 env then Some true else pub78_downloaded stats in
  let completed_at := clock_end env in
  let stats :=
    {| started_at := started_at stats;
       eo_bmf_files := eo_bmf_files stats;
       organizations_processed := organizations_processed stats;
       errors := errors stats;
       pub78_downloaded := pub78_downloaded;
       completed_at := Some completed_at;
       duration := Some (completed_at - started_at stats) |} in
  {| run_stats := stats;
     run_organizations := default [] all_organizations;
     run_output_file := output_file |}.

End IRSDataProcessor.

(** ** SQLite values, schema and statements *)

(** Storage classes used by the schema; REAL and BLOB values do not occur. *)
Inductive sqlval : Type :=
  | SNull
  | SInt (z : Z)
  | SText (s : string).

#[global] Instance sqlval_eq_dec : EqDecision sqlval.
Proof. solve_decision. Defined.

(** A row of a table or of a result set, keyed by column name, as
    [dict(row)] presents it. *)
Abbreviation row := (gmap string sqlval).

Definition col (r : row) (c : string) : sqlval := default SNull (r !! c).

Definition is_null (v : sqlval) : bool :=
  match v with SNull => true | _ => false end.

(** SQLite's INTEGER is a 64-bit signed integer. *)
Definition int64 (z : Z) : bool :=
  (-9223372036854775808 <=? z) && (z <=? 9223372036854775807).

(** The SQLite value of a Python value bound to a [?]; a text is taken to
    be within SQLITE_LIMIT_LENGTH. *)
Definition bind (v : pyval) : sqlval :=
  match v with
  | PNone => SNull
  | PStr s => SText s
  | PInt z => SInt z
  end.

(** The [sqlite3] module can convert the value: an [int] must fit 64 bits. *)
Definition bindable (v : pyval) : bool :=
  match v with
  | PInt z => int64 z
  | _ => true
  end.

(** Binding the parameters of a statement: OverflowError as soon as one
    cannot be converted. *)
Definition bind_parameters (params : list pyval) : result (list sqlval) :=
  if forallb bindable params then Ok (map bind params) else Raise OverflowError.

(** The text as the C string SQLite's text functions read: what precedes the
    first NUL character. *)
Fixpoint c_string (s : string) : string :=
  match s with
  | EmptyString => EmptyString
  | String c s' =>
      if bool_decide (c = Ascii.zero) then EmptyString else String c (c_string s')
  end.

(** [sqlite3Tolower]: LIKE folds the 26 ASCII letters and no other. *)
Definition sqlite3Tolower (c : ascii) : ascii :=
  let n := nat_of_ascii c in
  if ((65 <=? n)%nat && (n <=? 90)%nat)%bool then ascii_of_nat (n + 32) else c.

(** A text with its ASCII letters in lower case. *)
Fixpoint nocase (s : string) : string :=
  match s with
  | EmptyString => EmptyString
  | String c s' => String (sqlite3Tolower c) (nocase s')
  end.

(** Length of the UTF-8 encoding of a text. *)
Fixpoint utf8_length (s : string) : nat :=
  match s with
  | EmptyString => 0
  | String c s' => ((if (nat_of_ascii c <? 128)%nat then 1 else 2) + utf8_length s')%nat
  end.

(** SQLITE_LIMIT_LIKE_PATTERN_LENGTH, in bytes: a longer pattern makes LIKE
    fail on the first row it is tested against. *)
Definition like_pattern_length : Z := 50000.

(** Comparison of two values: [None] when either is NULL; an integer sorts
    before any text; texts compare byte by byte. *)
Definition sql_compare (a b : sqlval) : option comparison :=
  match a, b with
  | SNull, _ | _, SNull => None
  | SInt x, SInt y => Some (x ?= y)
  | SInt _, SText _ => Some Lt
  | SText _, SInt _ => Some Gt
  | SText s, SText t => Some (String.compare s t)
  end.

(** [pattern] against [s] under LIKE, both as C strings, for a pattern within
    [like_pattern_length]: [%] matches any run of characters, [_] any single
    one, and ASCII letters match regardless of case. *)
Fixpoint like (pattern s : string) : bool :=
  match pattern with
  | EmptyString => negb (PyStr.truthy s)
  | String "%" p =>
      (fix skip (s : string) : bool :=
         like p s || match s with
                     | EmptyString => false
                     | String _ s' => skip s'
                     end) s
  | String "_" p =>
      match s with
      | EmptyString => false
      | String _ s' => like p s'
      end
  | String c p =>
      match s with
      | EmptyString => false
      | String d s' =>
          bool_decide (sqlite3Tolower c = sqlite3Tolower d) && like p s'
      end
  end.

Inductive operator : Set := OpEq | OpLike | OpGe | OpLe | OpLt.

(** Truth of [a op b] in a WHERE or WHEN clause; an unknown (NULL) outcome
    does not select the row. *)
Definition sql_test (o : operator) (a b : sqlval) : bool :=
  match o with
  | OpEq => match sql_compare a b with Some Eq => true | _ => false end
  | OpGe => match sql_compare a b with Some Eq | Some Gt => true | _ => false end
  | OpLe => match sql_compare a b with Some Eq | Some Lt => true | _ => false end
  | OpLt => match sql_compare a b with Some Lt => true | _ => false end
  | OpLike =>
      match a, b with
      | SText s, SText p => like (c_string p) (c_string s)
      | SInt z, SText p => like (c_string p) (pretty z)
      | _, _ => false
      end
  end.

(** Order of ORDER BY keys: NULL first, then integers, then text. *)
Definition key_le (a b : sqlval) : bool :=
  match a, b with
  | SNull, _ => true
  | _, SNull => false
  | _, _ => match sql_compare a b with Some Gt => false | _ => true end
  end.

Inductive affinity : Set := TEXT | INTEGER.

Record column : Type := {
  col_name : string;
  col_affinity : affinity;
  col_not_null : bool;
  col_unique : bool;
  col_default : sqlval
}.

Definition plain (name : string) (a : affinity) : column :=
  {| col_name := name; col_affinity := a; col_not_null := false;
     col_unique := false; col_default := SNull |}.

Definition with_default (name : string) (a : affinity) (d : sqlval) : column :=
  {| col_name := name; col_affinity := a; col_not_null := false;
     col_unique := false; col_default := d |}.

(** [CREATE TABLE organizations]: every column but [id], which is the rowid,
    and the two timestamps, which SQLite fills from its clock. *)
Definition organizations_schema : list column :=
  [ {| col_name := "ein"; col_affinity := TEXT; col_not_null := true;
       col_unique := true; col_default := SNull |};
    {| col_name := "name"; col_affinity := TEXT; col_not_null := true;
       col_unique := false; col_default := SNull |};
    plain "legal_name" TEXT;
    plain "street" TEXT;
    plain "city" TEXT;
    plain "state" TEXT;
    plain "zip" TEXT;
    with_default "country" TEXT (SText "US");
    plain "ntee_code" TEXT;
    plain "ntee_description" TEXT;
    plain "subsection_code" TEXT;
    plain "foundation_code" TEXT;
    plain "organization_type" TEXT;
    with_default "asset_amount" INTEGER (SInt 0);
    with_default "income_amount" INTEGER (SInt 0);
    with_default "revenue_amount" INTEGER (SInt 0);
    plain "tax_exempt_status" TEXT;
    plain "ruling_date" TEXT;
    plain "tax_period" TEXT;
    plain "revocation_date" TEXT;
    plain "website" TEXT;
    plain "email" TEXT;
    plain "phone" TEXT;
    plain "data_source" TEXT ].

(** Column names of [organizations], [id] included. *)
Definition organizations_columns : list string :=
  "id" :: map col_name organizations_schema.

(** Column names of the virtual table [organizations_fts]: the five indexed
    columns and the two hidden ones every FTS5 table has. *)
Definition organizations_fts_columns : list string :=
  [ "ein"; "name"; "legal_name"; "city"; "state"; "organizations_fts"; "rank" ].

(** The database file: the rows of [organizations] by ascending rowid and the
    AUTOINCREMENT counter kept in [sqlite_sequence]. *)
Record database : Type := {
  organizations : list row;
  sqlite_sequence : Z
}.

(** FROM clause of a SELECT. *)
Inductive source : Set :=
  | FromOrganizations  (* FROM organizations *)
  | FromJoinFts.       (* FROM organizations o JOIN organizations_fts fts
                          ON o.id = fts.rowid *)

(** One conjunct of a WHERE clause. *)
Inductive condition : Type :=
  | CTrue                               (* 1=1 *)
  | CMatch                              (* organizations_fts MATCH ? *)
  | CTest (c : string) (o : operator).  (* c o ? *)

Record select : Type := {
  sel_count : bool;              (* SELECT COUNT( * ) as total / SELECT * *)
  sel_from : source;
  sel_where : list condition;    (* joined by AND *)
  sel_page : bool                (* ORDER BY revenue_amount DESC LIMIT ? OFFSET ? *)
}.

(** [query += " AND " + " AND ".join(conditions)] *)
Definition add_where (q : select) (conditions : list condition) : select :=
  {| sel_count := sel_count q; sel_from := sel_from q;
     sel_where := sel_where q ++ conditions; sel_page := sel_page q |}.

(** [query += " ORDER BY revenue_amount DESC LIMIT ? OFFSET ?"] *)
Definition add_page (q : select) : select :=
  {| sel_count := sel_count q; sel_from := sel_from q;
     sel_where := sel_where q; sel_page := true |}.

Definition condition_params (c : condition) : nat :=
  match c with CTrue => 0%nat | _ => 1%nat end.

(** Number of [?] in a statement. *)
Definition placeholders (q : select) : nat :=
  (sum_list (map condition_params (sel_where q))
   + if sel_page q then 2 else 0)%nat.

(** How many tables of the FROM clause have a column of this name. *)
Definition tables_with (f : source) (c : string) : nat :=
  match f with
  | FromOrganizations => if bool_decide (c ∈ organizations_columns) then 1 else 0
  | FromJoinFts =>
      ((if bool_decide (c ∈ organizations_columns) then 1 else 0)
       + if bool_decide (c ∈ organizations_fts_columns) then 1 else 0)
  end%nat.

(** Preparing a statement resolves each unqualified column name: it must name
    a column of exactly one table in scope. *)
Definition resolve (f : source) (c : condition) : result () :=
  match c with
  | CTest name _ =>
      if bool_decide (tables_with f name = 1%nat) then Ok ()
      else Raise OperationalError
  | _ => Ok ()
  end.

Fixpoint prepare (f : source) (conditions : list condition) : result () :=
  match conditions with
  | [] => Ok ()
  | c :: rest => _ ← resolve f c; prepare f rest
  end.

(** LIMIT and OFFSET: a negative limit is no limit, a negative offset is 0. *)
Definition limit_offset (limit offset : Z) (rows : list row) : list row :=
  let rows := drop (Z.to_nat offset) rows in
  if limit <? 0 then rows else take (Z.to_nat limit) rows.

(** [r1] may precede [r2] under ORDER BY revenue_amount DESC. *)
Definition revenue_desc (r1 r2 : row) : Prop :=
  key_le (col r2 "revenue_amount") (col r1 "revenue_amount") = true.

#[global] Instance revenue_desc_dec r1 r2 : Decision (revenue_desc r1 r2).
Proof. unfold revenue_desc. apply _. Defined.

(** [range(start, stop, step)] *)
Definition range (start stop step : Z) : result (list Z) :=
  if step =? 0 then Raise ValueError
  else
    let count :=
      if 0 <? step then (stop - start + step - 1) / step
      else (start - stop - step - 1) / (- step) in
    Ok (map (λ k : nat, start + Z.of_nat k * step) (seq 0 (Z.to_nat count))).

(** [l[a:b]] *)
Definition slice {A} (l : list A) (a b : Z) : list A :=
  let n := Z.of_nat (length l) in
  let clip i := if i <? 0 then Z.max 0 (i + n) else Z.min i n in
  let a := clip a in
  let b := clip b in
  take (Z.to_nat (b - a)) (drop (Z.to_nat a) l).

(** ** app/database.py *)

Section DatabaseManager.

(** Four parts of SQLite are parameters of the development.
    - [fts_match q r]: the row [r] of [organizations], whose index entry the
      insert trigger wrote under the same rowid, is a hit of the FTS5 query
      text [q].
    - [numeric_text s]: the value stored when the text [s] is written to a
      column of INTEGER affinity (the number [s] spells, else [s] itself).
    - [fts5_syntax q]: FTS5 can parse the text [q] as a query; MATCH fails
      with a syntax error otherwise, whatever the table holds.
    - [order_by_revenue_desc q values rows]: the selected [rows] in the order
      the statement [q], run with [values], returns them under ORDER BY
      revenue_amount DESC.  SQLite leaves the order of rows with equal keys
      to the plan it chooses; all that is known is that the rows are the same
      and that they are sorted. *)
Context (fts_match : string → row → bool) (numeric_text : string → sqlval).
Context (fts5_syntax : string → bool).
Context (order_by_revenue_desc : select → list sqlval → list row → list row).
Hypothesis order_by_permutation :
  ∀ q values rows, order_by_revenue_desc q values rows ≡ₚ rows.
Hypothesis order_by_sorted :
  ∀ q values rows, StronglySorted revenue_desc (order_by_revenue_desc q values rows).

Definition apply_affinity (a : affinity) (v : sqlval) : sqlval :=
  match a, v with
  | TEXT, SInt z => SText (pretty z)
  | INTEGER, SText s => numeric_text s
  | _, _ => v
  end.

(** [init_database] on a new file: the empty table. *)
Definition init_database : database :=
  {| organizations := []; sqlite_sequence := 0 |}.

(** The column list of [insert_sql]. *)
Definition insert_sql : list string :=
  [ "ein"; "name"; "legal_name"; "street"; "city"; "state"; "zip";
    "ntee_code"; "subsection_code"; "foundation_code";
    "asset_amount"; "income_amount"; "revenue_amount";
    "tax_exempt_status"; "ruling_date"; "data_source" ].

(** The tuple appended to [data_tuples] for one organization. *)
Definition data_tuple (org : gmap string pyval) : list pyval :=
  [ default PNone (org !! "ein");
    default PNone (org !! "name");
    default PNone (org !! "legal_name");
    default PNone (org !! "street");
    default PNone (org !! "city");
    default PNone (org !! "state");
    default PNone (org !! "zip");
    default PNone (org !! "ntee_code");
    default PNone (org !! "subsection_code");
    default PNone (org !! "foundation_code");
    default (PInt 0) (org !! "asset_amount");
    default (PInt 0) (org !! "income_amount");
    default (PInt 0) (org !! "revenue_amount");
    default PNone (org !! "tax_exempt_status");
    default PNone (org !! "ruling_date");
    default (PStr "IRS") (org !! "data_source") ].

(** Value a new row gets in column [c]: the supplied value under the column's
    affinity, or the column default when none is supplied; under OR REPLACE a
    NULL in a NOT NULL column is replaced by the default as well. *)
Definition stored (given : gmap string sqlval) (c : column) : sqlval :=
  let v := match given !! col_name c with
           | Some v => apply_affinity (col_affinity c) v
           | None => col_default c
           end in
  if col_not_null c && is_null v then col_default c else v.

(** The row an INSERT builds from the supplied values and the rowid. *)
Definition new_row (id : Z) (given : gmap string sqlval) : row :=
  <["id" := SInt id]>
    (list_to_map (map (λ c, (col_name c, stored given c)) organizations_schema)).

(** [r] holds, in a UNIQUE column, the value the new row has there. *)
Definition conflicts (new r : row) : bool :=
  existsb
    (λ c, col_unique c
          && bool_decide (sql_compare (col r (col_name c)) (col new (col_name c))
                          = Some Eq))
    organizations_schema.

(** One [INSERT OR REPLACE INTO organizations (columns) VALUES (?, ..., ?)]. *)
Definition insert_or_replace (columns : list string) (db : database)
    (values : list pyval) : result database :=
  if negb (bool_decide (length values = length columns))
  then Raise ProgrammingError
  else
    values ← bind_parameters values;
    let given : gmap string sqlval := list_to_map (zip columns values) in
    if existsb (λ c, col_not_null c && is_null (stored given c)) organizations_schema
    then Raise IntegrityError
    else
      let id := sqlite_sequence db + 1 in
      let new := new_row id given in
      Ok {| organizations :=
              filter (λ r, conflicts new r = false) (organizations db) ++ [new];
            sqlite_sequence := id |}.

(** [conn.executemany(sql, data_tuples)] *)
Fixpoint executemany (columns : list string) (db : database)
    (data_tuples : list (list pyval)) : result database :=
  match data_tuples with
  | [] => Ok db
  | t :: rest => db' ← insert_or_replace columns db t; executemany columns db' rest
  end.

(** The loop of [insert_organizations] over the batch offsets.  [db] is the
    committed state: an exception leaves the statements of the open batch
    uncommitted, and they are lost with the connection. *)
Fixpoint insert_batches (db : database) (total_inserted : Z)
    (organizations : list (gmap string pyval)) (batch_size : Z)
    (offsets : list Z) : database * result Z :=
  match offsets with
  | [] => (db, Ok total_inserted)
  | i :: rest =>
      let batch := slice organizations i (i + batch_size) in
      let data_tuples := map data_tuple batch in
      match executemany insert_sql db data_tuples with
      | Raise e => (db, Raise e)
      | Ok db' =>
          insert_batches db' (total_inserted + Z.of_nat (length batch))
            organizations batch_size rest
      end
  end.

(** [insert_organizations]: the database after the call, and the value
    returned or the exception raised. *)
Definition insert_organizations (db : database)
    (organizations : list (gmap string pyval)) (batch_size : Z)
    : database * result Z :=
  match range 0 (Z.of_nat (length organizations)) batch_size with
  | Raise e => (db, Raise e)
  | Ok offsets => insert_batches db 0 organizations batch_size offsets
  end.

(** What running a statement with a MATCH does before any row is read: FTS5
    parses the query text. *)
Fixpoint fts5_parse (conditions : list condition) (params : list sqlval)
    : result () :=
  match conditions with
  | [] => Ok ()
  | CTrue :: rest => fts5_parse rest params
  | CMatch :: rest =>
      match params with
      | SText q :: ps =>
          if fts5_syntax q then fts5_parse rest ps else Raise OperationalError
      | _ :: ps => fts5_parse rest ps
      | [] => Ok ()
      end
  | CTest _ _ :: rest => fts5_parse rest (tail params)
  end.

(** Truth of the WHERE clause on a row, the [?] taken from [params] in order. *)
Fixpoint where_holds (conditions : list condition) (params : list sqlval)
    (r : row) : bool :=
  match conditions with
  | [] => true
  | CTrue :: rest => where_holds rest params r
  | CMatch :: rest =>
      match params with
      | SText q :: ps => fts_match q r && where_holds rest ps r
      | _ => false
      end
  | CTest c o :: rest =>
      match params with
      | p :: ps => sql_test o (col r c) p && where_holds rest ps r
      | [] => false
      end
  end.

(** [conn.execute(query, params).fetchall()]: the statement is prepared,
    the parameters are counted and bound, and the statement is run. *)
Definition execute (db : database) (q : select) (params : list pyval)
    : result (list row) :=
  _ ← prepare (sel_from q) (sel_where q);
  if negb (bool_decide (length params = placeholders q))
  then Raise ProgrammingError
  else
    values ← bind_parameters params;
    let n := sum_list (map condition_params (sel_where q)) in
    _ ← fts5_parse (sel_where q) (take n values);
    let selected :=
      filter (λ r, where_holds (sel_where q) (take n values) r = true)
        (organizations db) in
    if sel_count q
    then Ok [ {[ "total" := SInt (Z.of_nat (length selected)) ]} ]
    else if sel_page q
    then match drop n values with
         | [SInt limit; SInt offset] =>
             Ok (limit_offset limit offset (order_by_revenue_desc q values selected))
         | _ => Raise IntegrityError  (* datatype mismatch *)
         end
    else Ok selected.

(** [rows.fetchone()['total']] *)
Definition fetchone_total (rows : list row) : result Z :=
  match rows with
  | r :: _ => match r !! "total" with Some (SInt n) => Ok n | _ => Raise TypeError end
  | [] => Raise TypeError
  end.

(** Truth value of an optional string argument: given and non-empty. *)
Definition given (s : option string) : option string :=
  match s with
  | Some s => if PyStr.truthy s then Some s else None
  | None => None
  end.

(** [search_organizations]: [(results, total)] or the exception raised. *)
Definition search_organizations (db : database)
    (query state city ntee_code : option string)
    (min_revenue max_revenue min_assets max_assets : option Z)
    (limit offset : Z) : result (list row * Z) :=
  let base_query :=
    {| sel_count := false; sel_from := FromOrganizations;
       sel_where := [CTrue]; sel_page := false |} in
  let count_query :=
    {| sel_count := true; sel_from := FromOrganizations;
       sel_where := [CTrue]; sel_page := false |} in
  let params : list pyval := [] in
  let '(base_query, count_query, params) :=
    match given query with
    | Some q =>
        ({| sel_count := false; sel_from := FromJoinFts;
            sel_where := [CMatch]; sel_page := false |},
         {| sel_count := true; sel_from := FromJoinFts;
            sel_where := [CMatch]; sel_page := false |},
         params ++ [PStr q])
    | None => (base_query, count_query, params)
    end in
  let filter_conditions : list condition := [] in
  let '(filter_conditions, params) :=
    match given state with
    | Some state =>
        (filter_conditions ++ [CTest "state" OpEq], params ++ [PStr state])
    | None => (filter_conditions, params)
    end in
  let '(filter_conditions, params) :=
    match given city with
    | Some city =>
        (filter_conditions ++ [CTest "city" OpLike],
         params ++ [PStr ("%" ++ city ++ "%")%string])
    | None => (filter_conditions, params)
    end in
  let '(filter_conditions, params) :=
    match given ntee_code with
    | Some ntee_code =>
        (filter_conditions ++ [CTest "ntee_code" OpLike],
         params ++ [PStr (ntee_code ++ "%")%string])
    | None => (filter_conditions, params)
    end in
  let '(filter_conditions, params) :=
    match min_revenue with
    | Some v => (filter_conditions ++ [CTest "revenue_amount" OpGe], params ++ [PInt v])
    | None => (filter_conditions, params)
    end in
  let '(filter_conditions, params) :=
    match max_revenue with
    | Some v => (filter_conditions ++ [CTest "revenue_amount" OpLe], params ++ [PInt v])
    | None => (filter_conditions, params)
    end in
  let '(filter_conditions, params) :=
    match min_assets with
    | Some v => (filter_conditions ++ [CTest "asset_amount" OpGe], params ++ [PInt v])
    | None => (filter_conditions, params)
    end in
  let '(filter_conditions, params) :=
    match max_assets with
    | Some v => (filter_conditions ++ [CTest "asset_amount" OpLe], params ++ [PInt v])
    | None => (filter_conditions, params)
    end in
  let '(base_query, count_query) :=
    match filter_conditions with
    | [] => (base_query, count_query)
    | _ => (add_where base_query filter_conditions,
            add_where count_query filter_conditions)
    end in
  rows ← execute db count_query params;
  total ← fetchone_total rows;
  let base_query := add_page base_query in
  let params := params ++ [PInt limit; PInt offset] in
  results ← execute db base_query params;
  Ok (results, total).

(** The CASE expression of the revenue histogram. *)
Definition revenue_range (revenue_amount : sqlval) : string :=
  if sql_test OpEq revenue_amount (SInt 0) then "Zero"
  else if sql_test OpLt revenue_amount (SInt 50000) then "<$50K"
  else if sql_test OpLt revenue_amount (SInt 250000) then "$50K-$250K"
  else if sql_test OpLt revenue_amount (SInt 1000000) then "$250K-$1M"
  else if sql_test OpLt revenue_amount (SInt 5000000) then "$1M-$5M"
  else ">$5M".

(** [SELECT key, COUNT( * ) ... GROUP BY key]: one result row per key that
    occurs, here as a map from the key to its count. *)
Fixpoint group_count (keys : list string) : gmap string nat :=
  match keys with
  | [] => ∅
  | k :: rest =>
      let counts := group_count rest in
      <[k := S (default 0%nat (counts !! k))]> counts
  end.

Record statistics : Type := {
  total_organizations : Z;
  revenue_distribution : gmap string nat
}.

(** [get_statistics]: the total and the revenue histogram.  The order of the
    histogram rows is not kept. *)
Definition get_statistics (db : database) : statistics :=
  {| total_organizations := Z.of_nat (length (organizations db));
     revenue_distribution :=
       group_count (map (λ r, revenue_range (col r "revenue_amount"))
                      (organizations db)) |}.

(** ** app/main.py: GET /api/search *)

Inductive response : Type :=
  | Unprocessable (parameter constraint : string)
      (* 422: a [Query] bound is violated; the handler is not called *)
  | SearchResponse (total limit offset : Z) (results : list row)
  | ServerError (detail : string).  (* HTTPException(500) *)

(** The endpoint [search_organizations] of [main.py] with its declared
    bounds [limit: ge=1, le=500] and [offset: ge=0]. *)
Definition api_search (db : database)
    (q state city ntee : option string)
    (min_revenue max_revenue min_assets max_assets : option Z)
    (limit offset : Z) : response :=
  if limit <? 1 then Unprocessable "limit" "ge=1"
  else if 500 <? limit then Unprocessable "limit" "le=500"
  else if offset <? 0 then Unprocessable "offset" "ge=0"
  else
    match search_organizations db q state city ntee
            min_revenue max_revenue min_assets max_assets limit offset with
    | Ok (results, total) => SearchResponse total limit offset results
    | Raise _ => ServerError "Search failed"
    end.


(** ** Vocabulary of the specification *)

(** The values [insert_sql] receives for one organization, by column. *)
Definition supplied (org : gmap string pyval) : gmap string sqlval :=
  list_to_map (zip insert_sql (map bind (data_tuple org))).

(** The EIN as the [ein] column stores it. *)
Definition ein_of (org : gmap string pyval) : sqlval :=
  stored (supplied org)
    {| col_name := "ein"; col_affinity := TEXT; col_not_null := true;
       col_unique := true; col_default := SNull |}.

(** An organization record carries an EIN and a name: neither key is missing
    or [None]; these are the two NOT NULL columns of the table. *)
Definition organization_record (org : gmap string pyval) : Prop :=
  default PNone (org !! "ein") ≠ PNone ∧ default PNone (org !! "name") ≠ PNone.

#[global] Instance organization_record_dec org : Decision (organization_record org).
Proof. unfold organization_record. apply _. Defined.

(** Every value the insert statement binds for the record can be converted:
    the amounts, when they are integers, fit 64 bits. *)
Definition bindable_record (org : gmap string pyval) : Prop :=
  forallb bindable (data_tuple org) = true.

#[global] Instance bindable_record_dec org : Decision (bindable_record org).
Proof. unfold bindable_record. apply _. Defined.

(** SQLITE_LIMIT_LENGTH is 1000000000 bytes: a longer text cannot be bound,
    and a row whose record is longer cannot be stored.  The texts the
    statements below are about stay far within it: at most 1000000 bytes. *)
Definition modest_text (s : string) : bool :=
  Z.of_nat (utf8_length s) <=? 1000000.

Definition modest (v : pyval) : bool :=
  match v with
  | PStr s => modest_text s
  | _ => true
  end.

(** The texts the insert statement binds for the record are modest. *)
Definition modest_record (org : gmap string pyval) : Prop :=
  forallb modest (data_tuple org) = true.

#[global] Instance modest_record_dec org : Decision (modest_record org).
Proof. unfold modest_record. apply _. Defined.

(** A record the insert statement stores: an organization record whose
    values can be bound. *)
Definition storable_record (org : gmap string pyval) : Prop :=
  organization_record org ∧ bindable_record org.

#[global] Instance storable_record_dec org : Decision (storable_record org).
Proof. unfold storable_record. apply _. Defined.

(** The exception that ends the insert of a record that cannot be stored:
    binding comes before the constraints are checked. *)
Definition rejection (org : gmap string pyval) : exn :=
  if forallb bindable (data_tuple org) then IntegrityError else OverflowError.

(** Upsert of one record as the specification words it: the rows holding the
    same EIN go, and one row built from the record alone is added under a
    fresh rowid. *)
Definition upsert (db : database) (org : gmap string pyval) : database :=
  let id := sqlite_sequence db + 1 in
  {| organizations :=
       filter (λ r, col r "ein" ≠ ein_of org) (organizations db)
       ++ [new_row id (supplied org)];
     sqlite_sequence := id |}.

(** The EINs of the stored rows, in table order. *)
Definition eins (db : database) : list sqlval :=
  map (λ r, col r "ein") (organizations db).

(** The database after a sequence of calls of [insert_organizations], each
    with its records and its batch size, whether it returns or raises. *)
Definition after_calls (db : database)
    (calls : list (list (gmap string pyval) * Z)) : database :=
  foldl (λ db call, (insert_organizations db call.1 call.2).1) db calls.

(** A row satisfies the filters of a search: each filter that is given holds
    of it.  A string filter is given when it is a non-empty string, a bound
    when it is not [None]. *)
Definition satisfies (query state city ntee_code : option string)
    (min_revenue max_revenue min_assets max_assets : option Z) (r : row) : bool :=
  match given query with Some q => fts_match q r | None => true end
  && match given state with
     | Some s => sql_test OpEq (col r "state") (SText s) | None => true end
  && match given city with
     | Some c => sql_test OpLike (col r "city") (SText ("%" ++ c ++ "%")%string)
     | None => true end
  && match given ntee_code with
     | Some n => sql_test OpLike (col r "ntee_code") (SText (n ++ "%")%string)
     | None => true end
  && match min_revenue with
     | Some v => sql_test OpGe (col r "revenue_amount") (SInt v) | None => true end
  && match max_revenue with
     | Some v => sql_test OpLe (col r "revenue_amount") (SInt v) | None => true end
  && match min_assets with
     | Some v => sql_test OpGe (col r "asset_amount") (SInt v) | None => true end
  && match max_assets with
     | Some v => sql_test OpLe (col r "asset_amount") (SInt v) | None => true end.

(** The bounds of a search, where given, fit 64 bits. *)
Definition bounds_fit (min_revenue max_revenue min_assets max_assets : option Z)
    : bool :=
  forallb (λ v, match v with Some z => int64 z | None => true end)
    [min_revenue; max_revenue; min_assets; max_assets].

(** The free-text query, where given, is one FTS5 can parse. *)
Definition query_parses (query : option string) : bool :=
  match given query with
  | Some q => fts5_syntax q
  | None => true
  end.

(** The LIKE patterns of a search, where given, are within
    [like_pattern_length]. *)
Definition patterns_fit (city ntee_code : option string) : bool :=
  match given city with
  | Some c => Z.of_nat (utf8_length ("%" ++ c ++ "%")) <=? like_pattern_length
  | None => true
  end
  && match given ntee_code with
     | Some n => Z.of_nat (utf8_length (n ++ "%")) <=? like_pattern_length
     | None => true
     end.

(** The texts of a search are within SQLite's limits: the query and the
    state are modest and the LIKE patterns within [like_pattern_length]. *)
Definition texts_fit (query state city ntee_code : option string) : bool :=
  match given query with Some q => modest_text q | None => true end
  && match given state with Some s => modest_text s | None => true end
  && patterns_fit city ntee_code.

(** The rows of the corpus that satisfy the filters. *)
Definition selection (db : database) (query state city ntee_code : option string)
    (min_revenue max_revenue min_assets max_assets : option Z) : list row :=
  filter
    (λ r, satisfies query state city ntee_code
            min_revenue max_revenue min_assets max_assets r = true)
    (organizations db).

(** The first conjunct of a search, its FROM clause and its parameter. *)
Definition search_head (query : option string)
    : source * list condition * list pyval :=
  match given query with
  | Some q => (FromJoinFts, [CMatch], [PStr q])
  | None => (FromOrganizations, [CTrue], [])
  end.

(** The column tests of a search in the order the code appends them, each
    with the value bound to its [?]. *)
Definition search_filters (state city ntee_code : option string)
    (min_revenue max_revenue min_assets max_assets : option Z)
    : list (string * operator * pyval) :=
  omap id
    [ (λ s, ("state", OpEq, PStr s)) <$> given state;
      (λ c, ("city", OpLike, PStr ("%" ++ c ++ "%")%string)) <$> given city;
      (λ n, ("ntee_code", OpLike, PStr (n ++ "%")%string)) <$> given ntee_code;
      (λ v, ("revenue_amount", OpGe, PInt v)) <$> min_revenue;
      (λ v, ("revenue_amount", OpLe, PInt v)) <$> max_revenue;
      (λ v, ("asset_amount", OpGe, PInt v)) <$> min_assets;
      (λ v, ("asset_amount", OpLe, PInt v)) <$> max_assets ].

Definition test_condition (t : string * operator * pyval) : condition :=
  CTest t.1.1 t.1.2.

Definition test_holds (r : row) (t : string * operator * pyval) : bool :=
  sql_test t.1.2 (col r t.1.1) (bind t.2).

(** An organization with the given EIN, name and revenue. *)
Definition organization (ein name : string) (revenue : Z) : gmap string pyval :=
  list_to_map
    [ ("ein", PStr ein); ("name", PStr name); ("revenue_amount", PInt revenue) ].

(** The corpus of the worked scenarios: revenues 0, 40000, 300000, 2000000
    and 8000000. *)
Definition five_revenues : list (gmap string pyval) :=
  [ organization "000000001" "Zero Fund" 0;
    organization "000000002" "Small Fund" 40000;
    organization "000000003" "Mid Fund" 300000;
    organization "000000004" "Large Fund" 2000000;
    organization "000000005" "Major Fund" 8000000 ].

Definition five_revenues_db : database :=
  (insert_organizations init_database five_revenues 1000).1.

(** The row of the first worked scenario, with a classification code. *)
Definition helping_hands : IRSDataProcessor.raw_row :=
  list_to_map
    [ ("EIN", Some "123456789"); ("NAME", Some "Helping Hands");
      ("STATE", Some "CA"); ("ASSET_AMT", Some "5"); ("NTEE_CD", Some "B300") ].

(** The same row with a blank EIN field. *)
Definition helping_hands_no_ein : IRSDataProcessor.raw_row :=
  <["EIN" := Some "   "]> helping_hands.

(** A run that retrieved one partition holding the given rows. *)
Definition one_partition (rows : list IRSDataProcessor.raw_row)
    : IRSDataProcessor.environment :=
  {| IRSDataProcessor.downloaded := [rows]; IRSDataProcessor.pub78 := true;
     IRSDataProcessor.clock_start := 0; IRSDataProcessor.clock_end := 60 |}.

(** ** Further operations of app/database.py and app/main.py *)

(** [get_organization]: [SELECT * FROM organizations WHERE ein = ?], then
    [fetchone()]; [None] when no row is returned. *)
Definition get_organization (db : database) (ein : string) : result (option row) :=
  rows ← execute db
           {| sel_count := false; sel_from := FromOrganizations;
              sel_where := [CTest "ein" OpEq]; sel_page := false |}
           [PStr ein];
  Ok (head rows).

(** GET /api/organization/{ein}: 404 when the lookup returns [None]. *)
Inductive organization_response : Type :=
  | OrganizationFound (organization : row)
  | OrganizationNotFound (detail : string)
  | OrganizationError (e : exn).

Definition api_get_organization (db : database) (ein : string)
    : organization_response :=
  match get_organization db ein with
  | Ok (Some org) => OrganizationFound org
  | Ok None => OrganizationNotFound "Organization not found"
  | Raise e => OrganizationError e
  end.

(** GET /api/export.  The limit is declared [Query(1000, le=10000)], with no
    lower bound; the handler has no [try], so an exception of the search
    leaves it.  The body is kept as the exported rows; the CSV header is
    the key set of the first row, and there is none without a row. *)
Inductive export_response : Type :=
  | ExportUnprocessable (parameter constraint : string)
  | ExportJson (organizations : list row) (total : Z)
  | ExportCsv (header : option (gset string)) (rows : list row)
  | ExportError (e : exn).

Definition export_data (db : database) (format : string)
    (q state : option string) (limit : Z) : export_response :=
  if 10000 <? limit then ExportUnprocessable "limit" "le=10000"
  else
    match search_organizations db q state None None None None None None limit 0 with
    | Raise e => ExportError e
    | Ok (results, total) =>
        if bool_decide (format = "json") then ExportJson results total
        else ExportCsv (dom <$> head results) results
    end.

(** The background task of POST /api/import/start: the run of the
    pipeline, then the bulk upsert of its batch when the batch is not empty.
    The database after the task and what the upsert returned, if called. *)
Definition import_task (env : IRSDataProcessor.environment) (db : database)
    : database * option (result Z) :=
  let r := IRSDataProcessor.process_all_data env in
  let organizations := IRSDataProcessor.run_organizations r in
  match organizations with
  | [] => (db, None)
  | _ =>
      let '(db', inserted) := insert_organizations db organizations 1000 in
      (db', Some inserted)
  end.

(** GET /api/import/status *)
Definition import_status (db : database) : Z * string :=
  let total := total_organizations (get_statistics db) in
  (total, if 0 <? total then "complete" else "pending").

(** The rowid of a stored row. *)
Definition rowid (r : row) : option Z :=
  match col r "id" with
  | SInt i => Some i
  | _ => None
  end.

(** [r1] has a smaller rowid than [r2]. *)
Definition rowid_lt (r1 r2 : row) : Prop :=
  ∃ i j, rowid r1 = Some i ∧ rowid r2 = Some j ∧ i < j.

(** A filter text without the two LIKE wildcards and without NUL. *)
Fixpoint plain_text (s : string) : bool :=
  match s with
  | EmptyString => true
  | String c s' =>
      negb (bool_decide (c = "%"%char)) && negb (bool_decide (c = "_"%char))
      && negb (bool_decide (c = Ascii.zero))
      && plain_text s'
  end.

(** The text LIKE reads in a cell: a text as a C string, an integer in
    decimal; NULL has none. *)
Definition like_text (v : sqlval) : option string :=
  match v with
  | SNull => None
  | SInt z => Some (pretty z)
  | SText s => Some (c_string s)
  end.

(** The cell reads a text that begins with [prefix], ASCII letter case
    aside. *)
Definition text_begins (prefix : string) (v : sqlval) : Prop :=
  ∃ text start rest,
    like_text v = Some text ∧ text = (start ++ rest)%string
    ∧ nocase start = nocase prefix.

(** The cell reads a text that contains [part], ASCII letter case aside. *)
Definition text_contains (part : string) (v : sqlval) : Prop :=
  ∃ text before middle after,
    like_text v = Some text ∧ text = (before ++ middle ++ after)%string
    ∧ nocase middle = nocase part.


(** [SUBSTR(X, 1, 1)]: NULL for NULL, else the first character of the value
    read as text, a text being read as a C string. *)
Definition substr_1_1 (v : sqlval) : sqlval :=
  match v with
  | SNull => SNull
  | SInt z => SText (PyStr.head (pretty z))
  | SText s => SText (PyStr.head (c_string s))
  end.

Definition text_of (v : sqlval) : option string :=
  match v with
  | SText s => Some s
  | _ => None
  end.

(** The NTEE query of [get_statistics]: the rows whose [ntee_code] is not
    NULL, grouped by the first character of the code, as a map from that
    character to its count.  The order of the result rows is not kept. *)
Definition ntee_distribution (db : database) : gmap string nat :=
  group_count
    (omap (λ r, text_of (substr_1_1 (col r "ntee_code")))
       (filter (λ r, is_null (col r "ntee_code") = false) (organizations db))).

(** GET /api/statistics: every entry of the NTEE distribution with the
    [category_name] the handler adds to it. *)
Definition api_get_statistics (db : database) : gmap string (nat * string) :=
  map_imap
    (λ category count,
       Some (count,
             default "Unknown" (IRSDataProcessor.NTEE_CATEGORIES !! category)))
    (ntee_distribution db).

(** * Properties *)

(** ** Strings *)

Lemma append_empty (r : string) : ("" ++ r)%string = r.
Proof. reflexivity. Qed.

Lemma append_String c (s r : string) :
  (String c s ++ r)%string = String c (s ++ r)%string.
Proof. reflexivity. Qed.

(** What [upper] does to one character: whitespace is kept, and a character
    that is not whitespace gives one or two characters that are not
    whitespace, or leaves the range. *)
Lemma upper_char_cases c :
  (PyStr.isspace c = true ∧ PyStr.upper_char c = Some (String c ""))
  ∨ (PyStr.isspace c = false ∧ PyStr.upper_char c = None)
  ∨ (PyStr.isspace c = false
     ∧ ∃ d, PyStr.isspace d = false
            ∧ (PyStr.upper_char c = Some (String d "")
               ∨ PyStr.upper_char c = Some (String d (String d "")))).
Proof.
  destruct c as [[] [] [] [] [] [] [] []];
    first [ left; split; vm_compute; reflexivity
          | right; left; split; vm_compute; reflexivity
          | right; right; split; [vm_compute; reflexivity|];
            eexists; split; [|left; vm_compute; reflexivity];
            vm_compute; reflexivity
          | right; right; split; [vm_compute; reflexivity|];
            eexists; split; [|right; vm_compute; reflexivity];
            vm_compute; reflexivity ].
Qed.

Lemma upper_cons c s :
  PyStr.upper (String c s)
  = match PyStr.upper_char c, PyStr.upper s with
    | Some u, Some r => Some (u ++ r)%string
    | _, _ => None
    end.
Proof. reflexivity. Qed.

Lemma lstrip_cons c s :
  PyStr.lstrip (String c s) = if PyStr.isspace c then PyStr.lstrip s else String c s.
Proof. reflexivity. Qed.

Lemma rstrip_cons c s :
  PyStr.rstrip (String c s)
  = match PyStr.rstrip s with
    | EmptyString => if PyStr.isspace c then EmptyString else String c EmptyString
    | String e r => String c (String e r)
    end.
Proof. simpl. by destruct (PyStr.rstrip s). Qed.

Lemma rstrip_cons_keep c s :
  PyStr.isspace c = false ∨ PyStr.rstrip s ≠ "" →
  PyStr.rstrip (String c s) = String c (PyStr.rstrip s).
Proof.
  intros H. rewrite rstrip_cons.
  destruct (PyStr.rstrip s) as [|e r]; [|reflexivity].
  destruct H as [->|H]; [reflexivity|congruence].
Qed.

Lemma upper_lstrip s :
  PyStr.upper (PyStr.lstrip s) = PyStr.lstrip <$> PyStr.upper s.
Proof.
  induction s as [|c s IH]; [reflexivity|].
  rewrite lstrip_cons, upper_cons.
  destruct (upper_char_cases c)
    as [[Hc Hu]|[[Hc Hu]|[Hc (d & Hd & [Hu|Hu])]]]; rewrite Hc, ?upper_cons, Hu.
  - rewrite IH. destruct (PyStr.upper s) as [r|]; [|reflexivity].
    cbn [fmap option_fmap option_map].
    by rewrite append_String, append_empty, lstrip_cons, Hc.
  - reflexivity.
  - destruct (PyStr.upper s) as [r|]; [|reflexivity].
    cbn [fmap option_fmap option_map].
    by rewrite append_String, append_empty, lstrip_cons, Hd.
  - destruct (PyStr.upper s) as [r|]; [|reflexivity].
    cbn [fmap option_fmap option_map].
    by rewrite !append_String, append_empty, lstrip_cons, Hd.
Qed.

(** The upper-case form of a text is empty for the empty text only. *)
Lemma upper_empty s : PyStr.upper s = Some "" → s = "".
Proof.
  destruct s as [|c s]; [reflexivity|]. rewrite upper_cons.
  destruct (upper_char_cases c)
    as [[Hc Hu]|[[Hc Hu]|[Hc (d & Hd & [Hu|Hu])]]]; rewrite Hu;
    [| discriminate | |]; destruct (PyStr.upper s); try discriminate;
    rewrite append_String; discriminate.
Qed.

Lemma upper_rstrip s :
  PyStr.upper (PyStr.rstrip s) = PyStr.rstrip <$> PyStr.upper s.
Proof.
  induction s as [|c s IH]; [reflexivity|].
  rewrite (upper_cons c s).
  destruct (PyStr.rstrip s) as [|e r] eqn:Hs.
  - (* nothing but whitespace follows *)
    rewrite rstrip_cons, Hs.
    destruct (PyStr.upper s) as [r0|] eqn:Hr0; [|discriminate IH].
    cbn [PyStr.upper fmap option_fmap option_map] in IH.
    assert (PyStr.rstrip r0 = "") as Hr by congruence. clear IH.
    destruct (upper_char_cases c)
      as [[Hc Hu]|[[Hc Hu]|[Hc (d & Hd & [Hu|Hu])]]]; rewrite Hc, Hu.
    + cbn [fmap option_fmap option_map].
      by rewrite append_String, append_empty, rstrip_cons, Hr, Hc.
    + rewrite upper_cons, Hu. reflexivity.
    + rewrite upper_cons, Hu. cbn [PyStr.upper fmap option_fmap option_map].
      by rewrite !append_String, !append_empty, rstrip_cons, Hr, Hd.
    + rewrite upper_cons, Hu. cbn [PyStr.upper fmap option_fmap option_map].
      rewrite !append_String, !append_empty.
      rewrite (rstrip_cons_keep d (String d r0)) by (by left).
      by rewrite rstrip_cons, Hr, Hd.
  - (* something that is kept follows *)
    rewrite rstrip_cons_keep by (right; rewrite Hs; discriminate).
    rewrite Hs, upper_cons, IH.
    destruct (PyStr.upper s) as [r0|] eqn:Hr0;
      [|by destruct (PyStr.upper_char c)].
    cbn [fmap option_fmap option_map] in *.
    assert (PyStr.rstrip r0 ≠ "") as Hr.
    { intros Hr. rewrite Hr in IH. by apply upper_empty in IH. }
    destruct (upper_char_cases c)
      as [[Hc Hu]|[[Hc Hu]|[Hc (d & Hd & [Hu|Hu])]]]; rewrite Hu;
      [| reflexivity | |]; cbn [fmap option_fmap option_map];
      rewrite !append_String, !append_empty.
    + by rewrite rstrip_cons_keep by (by right).
    + by rewrite rstrip_cons_keep by (by right).
    + rewrite (rstrip_cons_keep d (String d r0)) by (by left).
      by rewrite (rstrip_cons_keep d r0) by (by right).
Qed.

Lemma upper_strip s :
  PyStr.upper (PyStr.strip s) = PyStr.strip <$> PyStr.upper s.
Proof.
  unfold PyStr.strip. rewrite upper_rstrip, upper_lstrip.
  by destruct (PyStr.upper s).
Qed.

Lemma lstrip_blank s : PyStr.blank s = true → PyStr.lstrip s = "".
Proof.
  induction s as [|c s IH]; simpl; [reflexivity|].
  intros [Hc Hs]%andb_prop. rewrite Hc. auto.
Qed.

Lemma rstrip_blank s : PyStr.blank s = true → PyStr.rstrip s = "".
Proof.
  induction s as [|c s IH]; simpl; [reflexivity|].
  intros [Hc Hs]%andb_prop. rewrite (IH Hs), Hc. reflexivity.
Qed.

Lemma strip_blank s : PyStr.blank s = true → PyStr.strip s = "".
Proof. intros H. unfold PyStr.strip. by rewrite (lstrip_blank s H). Qed.

Lemma rstrip_app_blank s r :
  PyStr.blank r = true → PyStr.rstrip (s ++ r)%string = PyStr.rstrip s.
Proof.
  intros Hr. induction s as [|c s IH].
  - rewrite append_empty. by apply rstrip_blank.
  - rewrite append_String. simpl. by rewrite IH.
Qed.

Lemma strip_app_blank_r s r :
  PyStr.blank r = true → PyStr.strip (s ++ r)%string = PyStr.strip s.
Proof.
  intros Hr. unfold PyStr.strip. induction s as [|c s IH].
  - rewrite append_empty. by rewrite (lstrip_blank r Hr).
  - rewrite append_String. simpl. destruct (PyStr.isspace c); [exact IH|].
    rewrite <- append_String. apply (rstrip_app_blank (String c s) r Hr).
Qed.

Lemma strip_app_blank_l l s :
  PyStr.blank l = true → PyStr.strip (l ++ s)%string = PyStr.strip s.
Proof.
  unfold PyStr.strip. induction l as [|c l IH]; [reflexivity|].
  intros [Hc Hl]%andb_prop. rewrite append_String. simpl. rewrite Hc. auto.
Qed.

(** Surrounding whitespace does not change what [strip] returns. *)
Lemma strip_surrounded l s r :
  PyStr.blank l = true → PyStr.blank r = true →
  PyStr.strip (l ++ s ++ r)%string = PyStr.strip s.
Proof.
  intros Hl Hr. rewrite (strip_app_blank_l l _ Hl). by apply strip_app_blank_r.
Qed.

(** ** The amount-code normalizer *)

Import IRSDataProcessor.

Lemma AMOUNT_CODES_unknown code :
  code ∉ [""; "0"; "1"; "2"; "3"; "4"; "5"; "6"; "7"; "8"; "9"; "A"; "B"; "C"; "D"] →
  AMOUNT_CODES !! code = None.
Proof. intros H. apply not_elem_of_list_to_map. exact H. Qed.

(** C3.  [_parse_amount_code] returns the documented bucket for each code of
    the table; it returns 0, and never raises, for every string whose
    trimmed, upper-cased form is not a code of the table; strings that differ
    only in letter case, or only in surrounding whitespace, get the same
    amount.  Whitespace and letter case are Python's: the no-break space and
    NEL are trimmed as the ASCII blanks are. *)
Theorem parse_amount_code_normalizes :
  (_parse_amount_code (Some "") = 0
   ∧ _parse_amount_code (Some "0") = 0
   ∧ _parse_amount_code (Some "1") = 5000
   ∧ _parse_amount_code (Some "2") = 25000
   ∧ _parse_amount_code (Some "3") = 62500
   ∧ _parse_amount_code (Some "4") = 175000
   ∧ _parse_amount_code (Some "5") = 375000
   ∧ _parse_amount_code (Some "6") = 750000
   ∧ _parse_amount_code (Some "7") = 2500000
   ∧ _parse_amount_code (Some "8") = 7500000
   ∧ _parse_amount_code (Some "9") = 25000000
   ∧ _parse_amount_code (Some "A") = 75000000
   ∧ _parse_amount_code (Some "B") = 175000000
   ∧ _parse_amount_code (Some "C") = 375000000
   ∧ _parse_amount_code (Some "D") = 750000000)
  ∧ (∀ s : string,
       (∀ code, PyStr.upper (PyStr.strip s) = Some code →
                code ∉ [""; "0"; "1"; "2"; "3"; "4"; "5"; "6"; "7"; "8"; "9";
                        "A"; "B"; "C"; "D"]) →
       _parse_amount_code (Some s) = 0)
  ∧ (∀ s t : string,
       PyStr.upper s = PyStr.upper t →
       _parse_amount_code (Some s) = _parse_amount_code (Some t))
  ∧ (∀ l s r : string,
       PyStr.blank l = true → PyStr.blank r = true →
       _parse_amount_code (Some (l ++ s ++ r)%string) = _parse_amount_code (Some s))
  ∧ _parse_amount_code (Some " d ") = 750000000
  ∧ _parse_amount_code (Some (String (ascii_of_nat 160) "D")) = 750000000
  ∧ _parse_amount_code (Some "E") = 0
  ∧ _parse_amount_code None = 0.
Proof.
  split; [repeat split; reflexivity|].
  split.
  { intros s Hs. unfold _parse_amount_code. cbn [py_str].
    destruct (PyStr.upper (PyStr.strip s)) as [code|]; [|reflexivity].
    by rewrite (AMOUNT_CODES_unknown code (Hs code eq_refl)). }
  split.
  { intros s t Hst. unfold _parse_amount_code. cbn [py_str].
    by rewrite !upper_strip, Hst. }
  split.
  { intros l s r Hl Hr. unfold _parse_amount_code. cbn [py_str].
    by rewrite (strip_surrounded l s r Hl Hr). }
  repeat split; reflexivity.
Qed.

(** ** The record parser *)

Lemma truthy_empty s : PyStr.truthy s = false ↔ s = "".
Proof. destruct s; simpl; split; congruence. Qed.

Lemma bind_Ok_inv {A B} (m : result A) (k : A → result B) (b : B) :
  (x ← m; k x) = Ok b → ∃ a, m = Ok a ∧ k a = Ok b.
Proof. destruct m as [a|e]; [by exists a | discriminate]. Qed.

Lemma Ok_Some_inj {A} (a b : A) : @Ok (option A) (Some a) = Ok (Some b) → a = b.
Proof. congruence. Qed.

Ltac parse_step H :=
  let a := fresh "a" in
  let E := fresh "E" in
  apply bind_Ok_inv in H as (a & E & H).

(** What a successful parse says about the two classification entries. *)
Lemma parse_eo_row_ntee row o :
  _parse_eo_row row = Ok (Some o) →
  ∃ ntee_code,
    strip (get row "NTEE_CD") = Ok ntee_code
    ∧ o !! "ntee_code" = Some (PStr ntee_code)
    ∧ o !! "ntee_description" =
        if PyStr.truthy ntee_code
        then Some (PStr (default "Unknown" (NTEE_CATEGORIES !! PyStr.head ntee_code)))
        else None.
Proof.
  intros H. unfold _parse_eo_row in H.
  parse_step H. destruct (PyStr.truthy a); [|discriminate H].
  cbn [negb] in H.
  do 7 parse_step H. exists a6. split; [assumption|].
  do 8 parse_step H.
  generalize dependent (_parse_amount_code (get row "ASSET_AMT")).
  generalize dependent (_parse_amount_code (get row "INCOME_AMT")).
  generalize dependent (_parse_amount_code (get row "REVENUE_AMT")).
  generalize (default "Unknown" (NTEE_CATEGORIES !! PyStr.head a6)).
  intros d z1 z2 z3 H.
  destruct (PyStr.truthy a6); apply Ok_Some_inj in H; rewrite <- H; split;
    vm_compute; reflexivity.
Qed.

(** C7.  A parsed record with a non-empty classification code has the
    description the category table gives for the first character of the
    code, or "Unknown" when that character is not in the table; a parsed
    record with an empty code has no description entry.  The code "B300"
    yields "Education", also when the field pads it with a no-break space. *)
Theorem ntee_description_from_first_character :
  (∀ row o,
     _parse_eo_row row = Ok (Some o) →
     ∃ ntee_code,
       strip (get row "NTEE_CD") = Ok ntee_code
       ∧ o !! "ntee_code" = Some (PStr ntee_code)
       ∧ (ntee_code ≠ "" →
          o !! "ntee_description" =
            Some (PStr (default "Unknown"
                          (NTEE_CATEGORIES !! PyStr.head ntee_code))))
       ∧ (ntee_code = "" → o !! "ntee_description" = None))
  ∧ PyStr.head "B300" = "B"
  ∧ NTEE_CATEGORIES !! "B" = Some "Education"
  ∧ match _parse_eo_row helping_hands with
    | Ok (Some o) => Some (o !! "ntee_description")
    | _ => None
    end = Some (Some (PStr "Education"))
  ∧ match _parse_eo_row (<["NTEE_CD" := Some "9zz"]> helping_hands) with
    | Ok (Some o) => Some (o !! "ntee_description")
    | _ => None
    end = Some (Some (PStr "Unknown"))
  ∧ match _parse_eo_row (<["NTEE_CD" := Some "  "]> helping_hands) with
    | Ok (Some o) => Some (o !! "ntee_description")
    | _ => None
    end = Some None
  ∧ match _parse_eo_row
            (<["NTEE_CD" := Some (String (ascii_of_nat 160) "B300")]>
               helping_hands) with
    | Ok (Some o) => Some (o !! "ntee_code", o !! "ntee_description")
    | _ => None
    end = Some (Some (PStr "B300"), Some (PStr "Education")).
Proof.
  split.
  { intros row o H. destruct (parse_eo_row_ntee row o H) as (n & Hn & Hc & Hd).
    exists n. split; [exact Hn|]. split; [exact Hc|]. split.
    - intros Hne. rewrite Hd. destruct n; [congruence|reflexivity].
    - intros ->. exact Hd. }
  split; [reflexivity|]. split; [reflexivity|].
  split; [|split; [|split]]; vm_compute; reflexivity.
Qed.

Lemma strip_blank_field row :
  (row !! "EIN" = None
   ∨ ∃ s, row !! "EIN" = Some (Some s) ∧ PyStr.blank s = true) →
  strip (get row "EIN") = Ok "".
Proof.
  unfold get. intros [-> | (s & -> & Hs)]; simpl; [reflexivity|].
  by rewrite (strip_blank s Hs).
Qed.

Lemma parse_eo_row_blank_ein row :
  (row !! "EIN" = None
   ∨ ∃ s, row !! "EIN" = Some (Some s) ∧ PyStr.blank s = true) →
  _parse_eo_row row = Ok None.
Proof.
  intros H. unfold _parse_eo_row. by rewrite (strip_blank_field row H).
Qed.

Lemma parse_eo_bmf_app rows1 rows2 :
  parse_eo_bmf (rows1 ++ rows2) = parse_eo_bmf rows1 ++ parse_eo_bmf rows2.
Proof.
  induction rows1 as [|r rows1 IH]; simpl; [reflexivity|].
  destruct (_parse_eo_row r) as [[o|]|e]; simpl; by rewrite IH.
Qed.

(** The partition's batch is the same with and without a row that parses to
    nothing. *)
Lemma parse_eo_bmf_skips row before after :
  _parse_eo_row row = Ok None →
  parse_eo_bmf (before ++ row :: after) = parse_eo_bmf (before ++ after).
Proof.
  intros H. rewrite !parse_eo_bmf_app. simpl. by rewrite H.
Qed.

(** The [errors] entry of the run summary is never changed. *)
Lemma process_all_data_errors env : errors (run_stats (process_all_data env)) = 0.
Proof. unfold process_all_data. by destruct (downloaded env). Qed.

(** C4, as the code has it.  A row whose EIN key is absent, or whose EIN text
    is blank, parses to [None] without an exception and adds nothing to the
    batch of its partition; no count records it: the whole outcome of the run,
    summary included, is what it is without the row, and the [errors] entry
    is 0. *)
Theorem blank_ein_row_dropped_uncounted :
  ∀ row,
    (row !! "EIN" = None
     ∨ ∃ s, row !! "EIN" = Some (Some s) ∧ PyStr.blank s = true) →
    _parse_eo_row row = Ok None
    ∧ (∀ before after,
         parse_eo_bmf (before ++ row :: after) = parse_eo_bmf (before ++ after))
    ∧ (∀ files1 before after files2 p t0 t1,
         process_all_data
           {| downloaded := files1 ++ (before ++ row :: after) :: files2;
              pub78 := p; clock_start := t0; clock_end := t1 |}
         = process_all_data
             {| downloaded := files1 ++ (before ++ after) :: files2;
                pub78 := p; clock_start := t0; clock_end := t1 |})
    ∧ (∀ env, errors (run_stats (process_all_data env)) = 0).
Proof.
  intros row Hrow. pose proof (parse_eo_row_blank_ein row Hrow) as Hnone.
  split; [exact Hnone|]. split.
  { intros. by apply parse_eo_bmf_skips. }
  split; [|apply process_all_data_errors].
  intros files1 before after files2 p t0 t1. unfold process_all_data. simpl.
  rewrite !map_app, !concat_app. simpl.
  rewrite (parse_eo_bmf_skips row before after Hnone).
  rewrite !length_app. simpl.
  by destruct files1.
Qed.

(** C10.  When no partition is retrieved the run returns a summary with
    [eo_bmf_files = 0] and [organizations_processed = 0], an empty batch, and
    writes no output file. *)
Theorem no_partition_run_is_empty :
  ∀ (p : bool) (t0 t1 : Z),
    process_all_data
      {| downloaded := []; pub78 := p; clock_start := t0; clock_end := t1 |}
    = {| run_stats :=
           {| started_at := t0; eo_bmf_files := 0; organizations_processed := 0;
              errors := 0;
              pub78_downloaded := if p then Some true else None;
              completed_at := Some t1; duration := Some (t1 - t0) |};
         run_organizations := [];
         run_output_file := None |}.
Proof. intros p t0 t1. reflexivity. Qed.


(** ** The statistics aggregator *)

Lemma group_count_lookup keys k :
  group_count keys !! k =
    let n := length (filter (λ k', k' = k) keys) in
    if decide (n = 0%nat) then None else Some n.
Proof.
  induction keys as [|k' keys IH]; [reflexivity|].
  simpl group_count. rewrite filter_cons. destruct (decide (k' = k)) as [->|Hne].
  - rewrite lookup_insert_eq, IH. simpl.
    destruct (decide (length (filter (λ k', k' = k) keys) = 0%nat)) as [->|]; done.
  - by rewrite lookup_insert_ne.
Qed.

Lemma length_filter_map {A} (f : A → string) (k : string) (l : list A) :
  length (filter (λ k', k' = k) (map f l)) = length (filter (λ x, f x = k) l).
Proof.
  induction l as [|x l IH]; [reflexivity|].
  simpl map. rewrite !filter_cons.
  destruct (decide (f x = k)); simpl; by rewrite IH.
Qed.

Lemma revenue_range_spec v :
  revenue_range (SInt v) =
    if v =? 0 then "Zero"
    else if v <? 50000 then "<$50K"
    else if v <? 250000 then "$50K-$250K"
    else if v <? 1000000 then "$250K-$1M"
    else if v <? 5000000 then "$1M-$5M"
    else ">$5M".
Proof.
  unfold revenue_range, sql_test, sql_compare.
  rewrite (Z.eqb_compare v 0), !(Z.ltb_compare v).
  destruct (v ?= 0); [reflexivity| |];
    repeat (match goal with |- context [v ?= ?c] => destruct (v ?= c) end;
            try reflexivity).
Qed.

(** C6, as the code has it.  The CASE expression sends revenue 0 to "Zero",
    1..49999 to "<$50K", 50000..249999 to "$50K-$250K", 250000..999999 to
    "$250K-$1M", 1000000..4999999 to "$1M-$5M" and 5000000 and above to
    ">$5M".  The histogram has one entry for each bucket that holds at least
    one organization, with the number of organizations in it, and no entry
    for a bucket that holds none: for revenues 0, 40000, 300000, 2000000 and
    8000000 it is Zero:1, <$50K:1, $250K-$1M:1, $1M-$5M:1, >$5M:1 and has no
    "$50K-$250K" entry. *)
Theorem revenue_distribution_nonempty_buckets :
  (∀ v : Z,
     (v = 0 → revenue_range (SInt v) = "Zero")
     ∧ (1 ≤ v ≤ 49999 → revenue_range (SInt v) = "<$50K")
     ∧ (50000 ≤ v ≤ 249999 → revenue_range (SInt v) = "$50K-$250K")
     ∧ (250000 ≤ v ≤ 999999 → revenue_range (SInt v) = "$250K-$1M")
     ∧ (1000000 ≤ v ≤ 4999999 → revenue_range (SInt v) = "$1M-$5M")
     ∧ (5000000 ≤ v → revenue_range (SInt v) = ">$5M"))
  ∧ (∀ (db : database) (label : string),
       let n :=
         length (filter (λ r, revenue_range (col r "revenue_amount") = label)
                   (organizations db)) in
       revenue_distribution (get_statistics db) !! label =
         if decide (n = 0%nat) then None else Some n)
  ∧ revenue_distribution (get_statistics five_revenues_db) =
      list_to_map
        [ ("Zero", 1%nat); ("<$50K", 1%nat); ("$250K-$1M", 1%nat);
          ("$1M-$5M", 1%nat); (">$5M", 1%nat) ]
  ∧ revenue_distribution (get_statistics five_revenues_db) !! "$50K-$250K" = None.
Proof.
  split.
  { intros v. rewrite revenue_range_spec.
    repeat split; intros H;
      repeat (match goal with
              | |- context [v =? ?c] => destruct (Z.eqb_spec v c); try lia
              | |- context [v <? ?c] => destruct (Z.ltb_spec v c); try lia
              end); reflexivity. }
  split.
  { intros db label. simpl. rewrite group_count_lookup. simpl.
    by rewrite length_filter_map. }
  split; vm_compute; reflexivity.
Qed.


(** ** The query engine *)

(** The statements and parameters [search_organizations] ends up running. *)
Lemma search_organizations_statements db query state city ntee_code
    min_revenue max_revenue min_assets max_assets limit offset :
  search_organizations db query state city ntee_code
    min_revenue max_revenue min_assets max_assets limit offset =
  let '(from, head, head_params) := search_head query in
  let filters :=
    search_filters state city ntee_code
      min_revenue max_revenue min_assets max_assets in
  let conditions := head ++ map test_condition filters in
  let params := head_params ++ map snd filters in
  rows ← execute db
           {| sel_count := true; sel_from := from;
              sel_where := conditions; sel_page := false |} params;
  total ← fetchone_total rows;
  results ← execute db
              {| sel_count := false; sel_from := from;
                 sel_where := conditions; sel_page := true |}
              (params ++ [PInt limit; PInt offset]);
  Ok (results, total).
Proof.
  unfold search_organizations, search_head, search_filters.
  generalize (execute db). intros run.
  destruct (given query), (given state), (given city), (given ntee_code),
    min_revenue, max_revenue, min_assets, max_assets; reflexivity.
Qed.

Lemma where_holds_tests filters r :
  where_holds (map test_condition filters) (map bind (map snd filters)) r
  = forallb (test_holds r) filters.
Proof.
  induction filters as [|[[c o] p] filters IH]; [reflexivity|].
  simpl. by rewrite IH.
Qed.

Lemma params_of_tests filters :
  sum_list (map condition_params (map test_condition filters)) = length filters.
Proof. induction filters as [|t filters IH]; simpl; [reflexivity|]. by rewrite IH. Qed.

Lemma prepare_app from conditions1 conditions2 :
  prepare from (conditions1 ++ conditions2) =
    (_ ← prepare from conditions1; prepare from conditions2).
Proof.
  induction conditions1 as [|c conditions1 IH]; [reflexivity|].
  simpl. destruct (resolve from c) as [[]|e]; simpl; [exact IH|reflexivity].
Qed.

(** Every column a search may test belongs to [organizations] alone when
    the statement reads from that table only. *)
Lemma prepare_search_filters state city ntee_code
    min_revenue max_revenue min_assets max_assets :
  prepare FromOrganizations
    (map test_condition
       (search_filters state city ntee_code
          min_revenue max_revenue min_assets max_assets)) = Ok ().
Proof.
  unfold search_filters.
  destruct (given state), (given city), (given ntee_code),
    min_revenue, max_revenue, min_assets, max_assets; vm_compute; reflexivity.
Qed.

(** Under the join with the index, the tests on [ntee_code] and on the two
    amounts still resolve. *)
Lemma prepare_search_filters_join state city ntee_code
    min_revenue max_revenue min_assets max_assets :
  given state = None → given city = None →
  prepare FromJoinFts
    (map test_condition
       (search_filters state city ntee_code
          min_revenue max_revenue min_assets max_assets)) = Ok ().
Proof.
  unfold search_filters. intros -> ->.
  destruct (given ntee_code),
    min_revenue, max_revenue, min_assets, max_assets; vm_compute; reflexivity.
Qed.

(** Under the join, [state] and [city] each name a column of both tables. *)
Lemma prepare_search_filters_ambiguous state city ntee_code
    min_revenue max_revenue min_assets max_assets :
  given state ≠ None ∨ given city ≠ None →
  prepare FromJoinFts
    (map test_condition
       (search_filters state city ntee_code
          min_revenue max_revenue min_assets max_assets))
  = Raise OperationalError.
Proof.
  unfold search_filters. intros H.
  destruct (given state), (given city);
    [| | |destruct H; congruence];
    destruct (given ntee_code),
      min_revenue, max_revenue, min_assets, max_assets; vm_compute; reflexivity.
Qed.

(** The statements of a search prepare unless a free-text query meets a
    state or a city filter. *)
Lemma prepare_search query state city ntee_code
    min_revenue max_revenue min_assets max_assets :
  given query = None ∨ (given state = None ∧ given city = None) →
  prepare (search_head query).1.1
    ((search_head query).1.2
     ++ map test_condition
          (search_filters state city ntee_code
             min_revenue max_revenue min_assets max_assets)) = Ok ().
Proof.
  intros Hfree. rewrite prepare_app. unfold search_head.
  destruct (given query) as [q|]; cbn [fst snd prepare resolve mbind result_bind].
  - destruct Hfree as [|[Hs Hc]]; [congruence|].
    by apply prepare_search_filters_join.
  - apply prepare_search_filters.
Qed.

Lemma search_params_length query state city ntee_code
    min_revenue max_revenue min_assets max_assets :
  length
    ((search_head query).2
     ++ map snd
          (search_filters state city ntee_code
             min_revenue max_revenue min_assets max_assets))
  = sum_list
      (map condition_params
         ((search_head query).1.2
          ++ map test_condition
               (search_filters state city ntee_code
                  min_revenue max_revenue min_assets max_assets))).
Proof.
  rewrite length_app, map_app, sum_list_with_app, params_of_tests, length_map.
  unfold search_head. by destruct (given query).
Qed.

(** The parameters of the count statement can be bound exactly when the
    bounds fit 64 bits. *)
Lemma search_params_bindable query state city ntee_code
    min_revenue max_revenue min_assets max_assets :
  forallb bindable
    ((search_head query).2
     ++ map snd
          (search_filters state city ntee_code
             min_revenue max_revenue min_assets max_assets))
  = bounds_fit min_revenue max_revenue min_assets max_assets.
Proof.
  unfold search_head, search_filters, bounds_fit.
  destruct (given query), (given state), (given city), (given ntee_code),
    min_revenue, max_revenue, min_assets, max_assets;
    cbn [omap id fmap option_fmap option_map mbind option_bind list_omap
         forallb bindable map snd app andb]; reflexivity.
Qed.

Lemma fts5_parse_tests filters values :
  fts5_parse (map test_condition filters) values = Ok ().
Proof.
  revert values. induction filters as [|t filters IH]; intros values;
    [reflexivity|]. cbn [map test_condition fts5_parse]. apply IH.
Qed.

(** Running a statement of a search fails before any row is read exactly
    when the free-text query does not parse. *)
Lemma fts5_parse_search query state city ntee_code
    min_revenue max_revenue min_assets max_assets :
  fts5_parse
    ((search_head query).1.2
     ++ map test_condition
          (search_filters state city ntee_code
             min_revenue max_revenue min_assets max_assets))
    (map bind
       ((search_head query).2
        ++ map snd
             (search_filters state city ntee_code
                min_revenue max_revenue min_assets max_assets)))
  = if query_parses query then Ok () else Raise OperationalError.
Proof.
  unfold search_head, query_parses.
  destruct (given query) as [q|];
    cbn [fst snd app map bind fts5_parse].
  - destruct (fts5_syntax q); [apply fts5_parse_tests|reflexivity].
  - apply fts5_parse_tests.
Qed.

Lemma bind_parameters_Ok params :
  forallb bindable params = true → bind_parameters params = Ok (map bind params).
Proof. intros H. unfold bind_parameters. by rewrite H. Qed.

Lemma bind_parameters_Raise params :
  forallb bindable params = false → bind_parameters params = Raise OverflowError.
Proof. intros H. unfold bind_parameters. by rewrite H. Qed.

Lemma execute_count db from conditions params :
  prepare from conditions = Ok () →
  length params = sum_list (map condition_params conditions) →
  forallb bindable params = true →
  fts5_parse conditions (map bind params) = Ok () →
  execute db
    {| sel_count := true; sel_from := from;
       sel_where := conditions; sel_page := false |} params
  = Ok [ {[ "total" :=
              SInt (Z.of_nat
                      (length (filter (λ r, where_holds conditions
                                              (map bind params) r = true)
                                 (organizations db)))) ]} ].
Proof.
  intros Hprepare Hlen Hbind Hparse. unfold execute, placeholders.
  cbn [sel_count sel_from sel_where sel_page]. rewrite Hprepare.
  cbn [mbind result_bind]. rewrite Nat.add_0_r, bool_decide_eq_true_2 by exact Hlen.
  cbn [negb]. rewrite (bind_parameters_Ok params Hbind).
  cbn [mbind result_bind].
  rewrite <- Hlen, <- (length_map bind params), firstn_all, Hparse.
  reflexivity.
Qed.

Lemma execute_page db from conditions params limit offset :
  prepare from conditions = Ok () →
  length params = sum_list (map condition_params conditions) →
  forallb bindable params = true →
  fts5_parse conditions (map bind params) = Ok () →
  int64 limit = true → int64 offset = true →
  execute db
    {| sel_count := false; sel_from := from;
       sel_where := conditions; sel_page := true |}
    (params ++ [PInt limit; PInt offset])
  = Ok (limit_offset limit offset
          (order_by_revenue_desc
             {| sel_count := false; sel_from := from;
                sel_where := conditions; sel_page := true |}
             (map bind (params ++ [PInt limit; PInt offset]))
             (filter (λ r, where_holds conditions (map bind params) r = true)
                (organizations db)))).
Proof.
  intros Hprepare Hlen Hbind Hparse Hlimit Hoffset. unfold execute, placeholders.
  cbn [sel_count sel_from sel_where sel_page]. rewrite Hprepare.
  cbn [mbind result_bind].
  rewrite bool_decide_eq_true_2 by (rewrite length_app, Hlen; reflexivity).
  cbn [negb].
  rewrite bind_parameters_Ok
    by (rewrite forallb_app, Hbind; cbn [forallb bindable];
        by rewrite Hlimit, Hoffset).
  cbn [mbind result_bind]. rewrite map_app.
  rewrite <- Hlen, <- (length_map bind params).
  rewrite take_app_length, drop_app_length, Hparse.
  reflexivity.
Qed.

Lemma execute_unprepared db q params e :
  prepare (sel_from q) (sel_where q) = Raise e → execute db q params = Raise e.
Proof. intros H. unfold execute. by rewrite H. Qed.

(** A parameter that cannot be converted ends a prepared statement with
    OverflowError. *)
Lemma execute_overflow db q params :
  prepare (sel_from q) (sel_where q) = Ok () →
  length params = placeholders q →
  forallb bindable params = false →
  execute db q params = Raise OverflowError.
Proof.
  intros Hprepare Hlen Hbind. unfold execute. rewrite Hprepare.
  cbn [mbind result_bind]. rewrite bool_decide_eq_true_2 by exact Hlen.
  cbn [negb]. by rewrite (bind_parameters_Raise params Hbind).
Qed.

(** A query text FTS5 cannot parse ends the statement with OperationalError. *)
Lemma execute_syntax db q params :
  prepare (sel_from q) (sel_where q) = Ok () →
  length params = placeholders q →
  forallb bindable params = true →
  fts5_parse (sel_where q)
    (take (sum_list (map condition_params (sel_where q))) (map bind params))
  = Raise OperationalError →
  execute db q params = Raise OperationalError.
Proof.
  intros Hprepare Hlen Hbind Hparse. unfold execute. rewrite Hprepare.
  cbn [mbind result_bind]. rewrite bool_decide_eq_true_2 by exact Hlen.
  cbn [negb]. rewrite (bind_parameters_Ok params Hbind).
  cbn [mbind result_bind]. by rewrite Hparse.
Qed.

Lemma fetchone_total_count (n : Z) :
  fetchone_total [ {[ "total" := SInt n ]} ] = Ok n.
Proof. unfold fetchone_total. by rewrite lookup_singleton_eq. Qed.

(** The WHERE clause of a search holds of exactly the rows that satisfy its
    filters. *)
Lemma satisfies_where query state city ntee_code
    min_revenue max_revenue min_assets max_assets r :
  where_holds
    ((search_head query).1.2
     ++ map test_condition
          (search_filters state city ntee_code
             min_revenue max_revenue min_assets max_assets))
    (map bind
       ((search_head query).2
        ++ map snd
             (search_filters state city ntee_code
                min_revenue max_revenue min_assets max_assets))) r
  = satisfies query state city ntee_code
      min_revenue max_revenue min_assets max_assets r.
Proof.
  transitivity
    (match given query with Some q => fts_match q r | None => true end
     && forallb (test_holds r)
          (search_filters state city ntee_code
             min_revenue max_revenue min_assets max_assets)).
  { unfold search_head. rewrite <- where_holds_tests, map_app.
    destruct (given query); reflexivity. }
  unfold satisfies, search_filters.
  destruct (given query), (given state), (given city), (given ntee_code),
    min_revenue, max_revenue, min_assets, max_assets;
    cbn [omap id fmap option_fmap option_map mbind option_bind list_omap
         forallb test_holds fst snd andb bind];
    rewrite ?andb_true_r; repeat rewrite <- andb_assoc; reflexivity.
Qed.

Lemma selection_where db query state city ntee_code
    min_revenue max_revenue min_assets max_assets :
  filter
    (λ r, where_holds
            ((search_head query).1.2
             ++ map test_condition
                  (search_filters state city ntee_code
                     min_revenue max_revenue min_assets max_assets))
            (map bind
               ((search_head query).2
                ++ map snd
                     (search_filters state city ntee_code
                        min_revenue max_revenue min_assets max_assets))) r
          = true)
    (organizations db)
  = selection db query state city ntee_code
      min_revenue max_revenue min_assets max_assets.
Proof.
  pose proof (satisfies_where query state city ntee_code
                min_revenue max_revenue min_assets max_assets) as Hwhere.
  unfold selection.
  apply (list_filter_iff _ _ (organizations db)).
  intros r. by rewrite (Hwhere r).
Qed.

(** The search returns, where no test is ambiguous, the query parses and the
    integers can be bound, a page cut from the selection in descending order
    of revenue, and the size of the whole selection. *)
Lemma search_organizations_selects db query state city ntee_code
    min_revenue max_revenue min_assets max_assets limit offset :
  given query = None ∨ (given state = None ∧ given city = None) →
  bounds_fit min_revenue max_revenue min_assets max_assets = true →
  query_parses query = true →
  int64 limit = true → int64 offset = true →
  ∃ sorted,
    sorted ≡ₚ selection db query state city ntee_code
                min_revenue max_revenue min_assets max_assets
    ∧ StronglySorted revenue_desc sorted
    ∧ search_organizations db query state city ntee_code
        min_revenue max_revenue min_assets max_assets limit offset
      = Ok (limit_offset limit offset sorted,
            Z.of_nat
              (length
                 (selection db query state city ntee_code
                    min_revenue max_revenue min_assets max_assets))).
Proof.
  intros Hfree Hbounds Hquery Hlimit Hoffset.
  rewrite search_organizations_statements.
  pose proof (prepare_search query state city ntee_code
                min_revenue max_revenue min_assets max_assets Hfree) as Hprepare.
  pose proof (search_params_length query state city ntee_code
                min_revenue max_revenue min_assets max_assets) as Hlen.
  pose proof (search_params_bindable query state city ntee_code
                min_revenue max_revenue min_assets max_assets) as Hbind.
  rewrite Hbounds in Hbind.
  pose proof (fts5_parse_search query state city ntee_code
                min_revenue max_revenue min_assets max_assets) as Hparse.
  rewrite Hquery in Hparse.
  pose proof (selection_where db query state city ntee_code
                min_revenue max_revenue min_assets max_assets) as Hsel.
  destruct (search_head query) as [[from head] head_params].
  cbn [fst snd] in *. cbv zeta.
  rewrite (execute_count db _ _ _ Hprepare Hlen Hbind Hparse).
  cbn [mbind result_bind].
  rewrite fetchone_total_count. cbn [mbind result_bind].
  rewrite (execute_page db _ _ _ limit offset Hprepare Hlen Hbind Hparse
             Hlimit Hoffset).
  cbn [mbind result_bind]. rewrite Hsel.
  eexists. split; [|split; [|reflexivity]].
  - apply order_by_permutation.
  - apply order_by_sorted.
Qed.

(** A free-text query together with a state or a city filter cannot be
    prepared, and the search raises. *)
Lemma search_organizations_raises db query state city ntee_code
    min_revenue max_revenue min_assets max_assets limit offset :
  given query ≠ None →
  given state ≠ None ∨ given city ≠ None →
  search_organizations db query state city ntee_code
    min_revenue max_revenue min_assets max_assets limit offset
  = Raise OperationalError.
Proof.
  intros Hquery Hfilter. rewrite search_organizations_statements.
  unfold search_head. destruct (given query) as [q|]; [|congruence].
  cbv zeta.
  rewrite (execute_unprepared db
             {| sel_count := true; sel_from := FromJoinFts;
                sel_where := _; sel_page := false |} _ OperationalError);
    [reflexivity|].
  cbn [sel_from sel_where]. rewrite prepare_app.
  cbn [prepare resolve mbind result_bind].
  apply (prepare_search_filters_ambiguous _ _ _ _ _ _ _ Hfilter).
Qed.

(** Where the statements prepare, the search fails exactly as follows: with
    OverflowError when a bound does not fit 64 bits; else with
    OperationalError when the query text does not parse; else with
    OverflowError when the limit or the offset does not fit. *)
Lemma search_organizations_fails db query state city ntee_code
    min_revenue max_revenue min_assets max_assets limit offset :
  given query = None ∨ (given state = None ∧ given city = None) →
  search_organizations db query state city ntee_code
    min_revenue max_revenue min_assets max_assets limit offset
  = if negb (bounds_fit min_revenue max_revenue min_assets max_assets)
    then Raise OverflowError
    else if negb (query_parses query) then Raise OperationalError
    else if negb (int64 limit && int64 offset) then Raise OverflowError
    else search_organizations db query state city ntee_code
           min_revenue max_revenue min_assets max_assets limit offset.
Proof.
  intros Hfree.
  destruct (bounds_fit min_revenue max_revenue min_assets max_assets) eqn:Hbounds;
    cbn [negb]; [destruct (query_parses query) eqn:Hquery; cbn [negb];
                 [destruct (int64 limit && int64 offset) eqn:Hpage; cbn [negb];
                  [reflexivity|]|]|];
    rewrite search_organizations_statements;
    pose proof (prepare_search query state city ntee_code
                  min_revenue max_revenue min_assets max_assets Hfree) as Hprepare;
    pose proof (search_params_length query state city ntee_code
                  min_revenue max_revenue min_assets max_assets) as Hlen;
    pose proof (search_params_bindable query state city ntee_code
                  min_revenue max_revenue min_assets max_assets) as Hbind;
    rewrite Hbounds in Hbind;
    pose proof (fts5_parse_search query state city ntee_code
                  min_revenue max_revenue min_assets max_assets) as Hparse;
    destruct (search_head query) as [[from head] head_params];
    cbn [fst snd] in *; cbv zeta.
  - (* the limit or the offset *)
    rewrite Hquery in Hparse.
    rewrite (execute_count db _ _ _ Hprepare Hlen Hbind Hparse).
    cbn [mbind result_bind].
    rewrite fetchone_total_count. cbn [mbind result_bind].
    rewrite execute_overflow; [reflexivity|exact Hprepare| |].
    + unfold placeholders. cbn [sel_where sel_page].
      rewrite length_app, Hlen. reflexivity.
    + rewrite forallb_app, Hbind. cbn [forallb bindable andb].
      by rewrite andb_true_r.
  - (* the query text *)
    rewrite Hquery in Hparse.
    rewrite (execute_syntax db
               {| sel_count := true; sel_from := from;
                  sel_where := _; sel_page := false |});
      [reflexivity|exact Hprepare| |exact Hbind|].
    + unfold placeholders. cbn [sel_where sel_page]. by rewrite Nat.add_0_r.
    + cbn [sel_where].
      by rewrite <- Hlen, <- (length_map bind), firstn_all.
  - (* a bound *)
    rewrite (execute_overflow db
               {| sel_count := true; sel_from := from;
                  sel_where := _; sel_page := false |});
      [reflexivity|exact Hprepare| |exact Hbind].
    unfold placeholders. cbn [sel_where sel_page]. by rewrite Nat.add_0_r.
Qed.

(** ** Ordering and paging *)

Lemma string_compare_refl s : String.compare s s = Eq.
Proof. by apply OrderedTypeEx.String_as_OT.cmp_eq. Qed.

Lemma string_compare_eq s t : String.compare s t = Eq ↔ s = t.
Proof. apply OrderedTypeEx.String_as_OT.cmp_eq. Qed.

Lemma string_compare_not_gt_trans a b c :
  String.compare a b ≠ Gt → String.compare b c ≠ Gt → String.compare a c ≠ Gt.
Proof.
  intros Hab Hbc Hac.
  destruct (String.compare a b) eqn:Eab; [| |congruence].
  { apply string_compare_eq in Eab as ->. congruence. }
  destruct (String.compare b c) eqn:Ebc; [| |congruence].
  { apply string_compare_eq in Ebc as ->. congruence. }
  apply OrderedTypeEx.String_as_OT.cmp_lt in Eab, Ebc.
  pose proof (OrderedTypeEx.String_as_OT.lt_trans _ _ _ Eab Ebc) as Hlt.
  apply OrderedTypeEx.String_as_OT.cmp_lt in Hlt.
  unfold OrderedTypeEx.String_as_OT.cmp in Hlt. congruence.
Qed.

Lemma key_le_total a b : key_le a b = true ∨ key_le b a = true.
Proof.
  destruct a as [|x|s], b as [|y|t]; simpl; auto.
  - rewrite (Z.compare_antisym x y). destruct (x ?= y); simpl; auto.
  - rewrite (String.compare_antisym s t). destruct (String.compare t s); simpl; auto.
Qed.

Lemma key_le_trans a b c :
  key_le a b = true → key_le b c = true → key_le a c = true.
Proof.
  destruct a as [|x|s], b as [|y|t], c as [|z|u]; simpl; try done.
  - destruct (x ?= y) eqn:Exy; [| |done]; destruct (y ?= z) eqn:Eyz; [| |done| | |done];
      intros _ _; destruct (x ?= z) eqn:Exz; try done;
      rewrite ?Z.compare_eq_iff, ?Z.compare_lt_iff, ?Z.compare_gt_iff in *; lia.
  - intros Hst Htu.
    destruct (String.compare s u) eqn:E; try done.
    exfalso. apply (string_compare_not_gt_trans s t u); [| |done].
    + by destruct (String.compare s t).
    + by destruct (String.compare t u).
Qed.

#[global] Instance revenue_desc_total : Total revenue_desc.
Proof.
  intros r1 r2. unfold revenue_desc.
  destruct (key_le_total (col r2 "revenue_amount") (col r1 "revenue_amount")); auto.
Qed.

#[global] Instance revenue_desc_transitive : Transitive revenue_desc.
Proof.
  intros r1 r2 r3. unfold revenue_desc. intros H12 H23.
  exact (key_le_trans _ _ _ H23 H12).
Qed.

Lemma limit_offset_sorted limit offset rows :
  StronglySorted revenue_desc rows →
  StronglySorted revenue_desc (limit_offset limit offset rows).
Proof.
  intros H. unfold limit_offset.
  assert (StronglySorted revenue_desc (drop (Z.to_nat offset) rows)) as Hd.
  { rewrite <- (take_drop (Z.to_nat offset) rows) in H.
    by apply StronglySorted_app_1_r in H. }
  destruct (limit <? 0); [exact Hd|].
  rewrite <- (take_drop (Z.to_nat limit) (drop (Z.to_nat offset) rows)) in Hd.
  by apply StronglySorted_app_1_l in Hd.
Qed.

Lemma limit_offset_subseteq limit offset rows :
  limit_offset limit offset rows ⊆ rows.
Proof.
  unfold limit_offset. intros r Hr.
  destruct (limit <? 0).
  - by apply (subseteq_drop (Z.to_nat offset) rows).
  - apply (subseteq_drop (Z.to_nat offset) rows).
    by apply (subseteq_take (Z.to_nat limit)).
Qed.

Lemma limit_offset_length limit rows :
  0 ≤ limit →
  Z.of_nat (length (limit_offset limit 0 rows))
  = Z.min limit (Z.of_nat (length rows)).
Proof.
  intros H. unfold limit_offset.
  destruct (Z.ltb_spec limit 0); [lia|].
  change (Z.to_nat 0) with 0%nat. rewrite drop_0, length_take. lia.
Qed.

(** With no limit in effect and no offset, the page is the whole list. *)
Lemma limit_offset_all limit offset rows :
  limit < 0 ∨ Z.of_nat (length rows) ≤ limit → offset ≤ 0 →
  limit_offset limit offset rows = rows.
Proof.
  intros Hl Ho. unfold limit_offset.
  replace (Z.to_nat offset) with 0%nat by lia. rewrite drop_0.
  destruct (Z.ltb_spec limit 0); [reflexivity|].
  apply take_ge. lia.
Qed.

(** ** Searches and their counts *)

Lemma filter_all {A} (P : A → Prop) `{!∀ x, Decision (P x)} (l : list A) :
  (∀ x, P x) → filter P l = l.
Proof.
  intros HP. induction l as [|x l IH]; [reflexivity|].
  rewrite filter_cons. destruct (decide (P x)) as [|Hn]; [by rewrite IH|].
  by destruct (Hn (HP x)).
Qed.

Lemma filter_none {A} (P : A → Prop) `{!∀ x, Decision (P x)} (l : list A) :
  (∀ x, ¬ P x) → filter P l = [].
Proof.
  intros HP. induction l as [|x l IH]; [reflexivity|].
  rewrite filter_cons. destruct (decide (P x)); [by destruct (HP x)|exact IH].
Qed.

Lemma selection_no_filters db :
  selection db None None None None None None None None = organizations db.
Proof. unfold selection. by apply filter_all. Qed.

Lemma sql_test_ge_int v lo : sql_test OpGe (SInt v) (SInt lo) = true ↔ lo ≤ v.
Proof.
  simpl. destruct (Z.compare_spec v lo); split; try done; lia.
Qed.

Lemma sql_test_le_int v hi : sql_test OpLe (SInt v) (SInt hi) = true ↔ v ≤ hi.
Proof.
  simpl. destruct (Z.compare_spec v hi); split; try done; lia.
Qed.

(** No value lies in an inverted range. *)
Lemma sql_test_inverted x lo hi :
  hi < lo → sql_test OpGe x (SInt lo) && sql_test OpLe x (SInt hi) = false.
Proof.
  intros H. destruct x as [|v|s]; try reflexivity.
  destruct (sql_test OpGe (SInt v) (SInt lo)) eqn:Hge; [|reflexivity].
  destruct (sql_test OpLe (SInt v) (SInt hi)) eqn:Hle; [|reflexivity].
  apply sql_test_ge_int in Hge. apply sql_test_le_int in Hle. lia.
Qed.

(** The range filters alone, on a row whose two amounts are integers. *)
Lemma satisfies_ranges min_revenue max_revenue min_assets max_assets r v a :
  col r "revenue_amount" = SInt v →
  col r "asset_amount" = SInt a →
  satisfies None None None None min_revenue max_revenue min_assets max_assets r
    = true
  ↔ (∀ lo, min_revenue = Some lo → lo ≤ v)
    ∧ (∀ hi, max_revenue = Some hi → v ≤ hi)
    ∧ (∀ lo, min_assets = Some lo → lo ≤ a)
    ∧ (∀ hi, max_assets = Some hi → a ≤ hi).
Proof.
  intros Hv Ha. unfold satisfies. cbn [given andb]. rewrite Hv, Ha.
  rewrite !andb_true_iff.
  destruct min_revenue as [lo1|], max_revenue as [hi1|],
    min_assets as [lo2|], max_assets as [hi2|];
    rewrite ?sql_test_ge_int, ?sql_test_le_int;
    (split;
     [ intros (((?&?)&?)&?); repeat split; intros x Hx; by simplify_eq
     | intros (H1&H2&H3&H4); repeat split; eauto ]).
Qed.

Lemma int64_spec z :
  int64 z = true ↔ -9223372036854775808 ≤ z ≤ 9223372036854775807.
Proof. unfold int64. rewrite andb_true_iff, !Z.leb_le. reflexivity. Qed.

Lemma limit_offset_elem limit offset rows r :
  limit < 0 ∨ Z.of_nat (length rows) ≤ limit → offset ≤ 0 →
  r ∈ rows → r ∈ limit_offset limit offset rows.
Proof. intros Hl Ho Hr. by rewrite limit_offset_all. Qed.

(** C2.  A search that combines a free-text query with a state or a city
    filter raises instead of returning a count: under the join with the
    index the unqualified column is ambiguous, as for query "Hands" with
    state "NY".  For every other combination of filters, with a query text
    FTS5 can parse, texts within SQLite's limits and integers that fit 64
    bits, the total is the number of rows of the whole corpus that satisfy
    the filters, whatever the limit and the offset, and the page is cut from
    the same rows in descending order of revenue; with no filter and limit L
    the page has min(L, corpus size) rows and the total is the corpus size. *)
Theorem search_total_and_join_defect :
  (∀ db limit offset,
     search_organizations db (Some "Hands") (Some "NY") None None
       None None None None limit offset = Raise OperationalError)
  ∧ (∀ db query state city ntee_code
       min_revenue max_revenue min_assets max_assets limit offset,
       given query ≠ None →
       given state ≠ None ∨ given city ≠ None →
       search_organizations db query state city ntee_code
         min_revenue max_revenue min_assets max_assets limit offset
       = Raise OperationalError)
  ∧ (∀ db query state city ntee_code
       min_revenue max_revenue min_assets max_assets limit offset,
       given query = None ∨ (given state = None ∧ given city = None) →
       query_parses query = true →
       texts_fit query state city ntee_code = true →
       bounds_fit min_revenue max_revenue min_assets max_assets = true →
       int64 limit = true → int64 offset = true →
       ∃ sorted,
         sorted ≡ₚ selection db query state city ntee_code
                     min_revenue max_revenue min_assets max_assets
         ∧ StronglySorted revenue_desc sorted
         ∧ search_organizations db query state city ntee_code
             min_revenue max_revenue min_assets max_assets limit offset
           = Ok (limit_offset limit offset sorted,
                 Z.of_nat
                   (length
                      (selection db query state city ntee_code
                         min_revenue max_revenue min_assets max_assets))))
  ∧ (∀ db limit,
       0 ≤ limit → int64 limit = true →
       ∃ page,
         search_organizations db None None None None None None None None limit 0
         = Ok (page, Z.of_nat (length (organizations db)))
         ∧ Z.of_nat (length page) = Z.min limit (Z.of_nat (length (organizations db)))
         ∧ StronglySorted revenue_desc page
         ∧ page ⊆ organizations db).
Proof.
  split.
  { intros db limit offset. apply search_organizations_raises; [done|by left]. }
  split.
  { intros. by apply search_organizations_raises. }
  split.
  { intros db query state city ntee_code
      min_revenue max_revenue min_assets max_assets limit offset
      Hfree Hquery _ Hbounds Hlimit Hoffset.
    by apply search_organizations_selects. }
  intros db limit Hlimit Hfits.
  destruct (search_organizations_selects db None None None None
              None None None None limit 0)
    as (sorted & Hperm & Hsorted & Hsearch); try done; [by left|].
  rewrite selection_no_filters in Hperm, Hsearch.
  exists (limit_offset limit 0 sorted).
  split; [exact Hsearch|]. split; [|split].
  - rewrite limit_offset_length by done.
    by rewrite (Permutation_length Hperm).
  - by apply limit_offset_sorted.
  - intros r Hr. apply limit_offset_subseteq in Hr. by rewrite Hperm in Hr.
Qed.

(** C5.  The revenue and asset bounds of a search are inclusive: a row with
    integer amounts is selected exactly when each amount lies between the
    bounds that are given, the bounds themselves included; the search, run
    with bounds, limit and offset that fit 64 bits, counts the selected rows
    and returns only selected rows, and every selected row is on the page
    whenever the page is not cut short.  Over revenues 0, 40000, 300000,
    2000000 and 8000000 the bounds 1000000 and 5000000 select the 2000000
    row alone. *)
Theorem range_filters_inclusive :
  (∀ db min_revenue max_revenue min_assets max_assets r v a,
     r ∈ organizations db →
     col r "revenue_amount" = SInt v →
     col r "asset_amount" = SInt a →
     r ∈ selection db None None None None
           min_revenue max_revenue min_assets max_assets
     ↔ (∀ lo, min_revenue = Some lo → lo ≤ v)
       ∧ (∀ hi, max_revenue = Some hi → v ≤ hi)
       ∧ (∀ lo, min_assets = Some lo → lo ≤ a)
       ∧ (∀ hi, max_assets = Some hi → a ≤ hi))
  ∧ (∀ db min_revenue max_revenue min_assets max_assets limit offset,
       bounds_fit min_revenue max_revenue min_assets max_assets = true →
       int64 limit = true → int64 offset = true →
       let selected :=
         selection db None None None None
           min_revenue max_revenue min_assets max_assets in
       ∃ page,
         search_organizations db None None None None
           min_revenue max_revenue min_assets max_assets limit offset
         = Ok (page, Z.of_nat (length selected))
         ∧ StronglySorted revenue_desc page
         ∧ (∀ r, r ∈ page → r ∈ selected)
         ∧ (limit < 0 ∨ Z.of_nat (length (organizations db)) ≤ limit →
            offset ≤ 0 →
            ∀ r, r ∈ selected → r ∈ page))
  ∧ (∀ v, sql_test OpGe (SInt v) (SInt v) = true
          ∧ sql_test OpLe (SInt v) (SInt v) = true)
  ∧ match search_organizations five_revenues_db None None None None
            (Some 1000000) (Some 5000000) None None 50 0 with
    | Ok (results, total) =>
        Some (map (λ r, (col r "name", col r "revenue_amount")) results, total)
    | Raise _ => None
    end = Some ([(SText "Large Fund", SInt 2000000)], 1).
Proof.
  split; [|split; [|split]].
  - intros db min_revenue max_revenue min_assets max_assets r v a Hr Hv Ha.
    unfold selection.
    rewrite list_elem_of_filter, (satisfies_ranges _ _ _ _ r v a Hv Ha).
    tauto.
  - intros db min_revenue max_revenue min_assets max_assets limit offset
      Hbounds Hlimit Hoffset selected.
    destruct (search_organizations_selects db None None None None
                min_revenue max_revenue min_assets max_assets limit offset)
      as (sorted & Hperm & Hsorted & Hsearch); try done; [by left|].
    fold selected in Hperm, Hsearch.
    exists (limit_offset limit offset sorted).
    split; [exact Hsearch|]. split; [by apply limit_offset_sorted|]. split.
    + intros r Hr. apply limit_offset_subseteq in Hr. by rewrite Hperm in Hr.
    + intros Hall Hzero r Hr. apply limit_offset_elem; [|done|by rewrite Hperm].
      rewrite (Permutation_length Hperm).
      destruct Hall as [|Hall]; [by left|right].
      pose proof (length_filter
                    (λ r, satisfies None None None None
                            min_revenue max_revenue min_assets max_assets r = true)
                    (organizations db)).
      unfold selected, selection. lia.
  - intros v. split; [apply sql_test_ge_int|apply sql_test_le_int]; lia.
  - destruct (search_organizations_selects five_revenues_db None None None None
                (Some 1000000) (Some 5000000) None None 50 0)
      as (sorted & Hperm & _ & ->); try done; [by left|].
    set (selected := selection five_revenues_db None None None None
                       (Some 1000000) (Some 5000000) None None) in *.
    vm_compute in selected. subst selected.
    apply Permutation_singleton_r in Hperm as ->.
    vm_compute. reflexivity.
Qed.

(** C8, as the code has it.  The endpoint rejects a limit below 1 or above
    500, and a negative offset, before the query engine is called: the
    response is the validation failure for that parameter whatever the
    database holds.  Nothing else is validated.  A request whose minimum
    exceeds its maximum is run and answers with no rows and total 0; a
    request with a bound that does not fit 64 bits is run as well and fails
    in the storage layer, which the endpoint reports as a server error.  The
    query engine itself accepts any limit and offset SQLite can hold. *)
Theorem search_endpoint_validates_paging_only :
  (∀ db q state city ntee min_revenue max_revenue min_assets max_assets
     limit offset,
     limit < 1 ∨ 500 < limit →
     api_search db q state city ntee
       min_revenue max_revenue min_assets max_assets limit offset
     = Unprocessable "limit" (if limit <? 1 then "ge=1" else "le=500"))
  ∧ (∀ db q state city ntee min_revenue max_revenue min_assets max_assets
       limit offset,
       1 ≤ limit ≤ 500 → offset < 0 →
       api_search db q state city ntee
         min_revenue max_revenue min_assets max_assets limit offset
       = Unprocessable "offset" "ge=0")
  ∧ (∀ db lo hi limit offset,
       hi < lo → int64 lo = true → int64 hi = true →
       1 ≤ limit ≤ 500 → 0 ≤ offset → int64 offset = true →
       api_search db None None None None (Some lo) (Some hi) None None
         limit offset
       = SearchResponse 0 limit offset [])
  ∧ (∀ db state city ntee min_revenue max_revenue min_assets max_assets
       limit offset,
       bounds_fit min_revenue max_revenue min_assets max_assets = false →
       1 ≤ limit ≤ 500 → 0 ≤ offset →
       api_search db None state city ntee
         min_revenue max_revenue min_assets max_assets limit offset
       = ServerError "Search failed")
  ∧ (∀ db limit offset,
       int64 limit = true → int64 offset = true →
       ∃ sorted,
         sorted ≡ₚ organizations db
         ∧ StronglySorted revenue_desc sorted
         ∧ search_organizations db None None None None None None None None
             limit offset
           = Ok (limit_offset limit offset sorted,
                 Z.of_nat (length (organizations db)))).
Proof.
  split; [|split; [|split; [|split]]].
  - intros db q state city ntee min_revenue max_revenue min_assets max_assets
      limit offset Hlimit.
    unfold api_search. destruct (Z.ltb_spec limit 1); [reflexivity|].
    destruct (Z.ltb_spec 500 limit); [reflexivity|lia].
  - intros db q state city ntee min_revenue max_revenue min_assets max_assets
      limit offset Hlimit Hoffset.
    unfold api_search. destruct (Z.ltb_spec limit 1); [lia|].
    destruct (Z.ltb_spec 500 limit); [lia|].
    destruct (Z.ltb_spec offset 0); [reflexivity|lia].
  - intros db lo hi limit offset Hrange Hlo Hhi Hlimit Hoffset Hfits.
    unfold api_search. destruct (Z.ltb_spec limit 1); [lia|].
    destruct (Z.ltb_spec 500 limit); [lia|].
    destruct (Z.ltb_spec offset 0); [lia|].
    destruct (search_organizations_selects db None None None None
                (Some lo) (Some hi) None None limit offset)
      as (sorted & Hperm & _ & ->); try done; [by left| | |].
    { unfold bounds_fit. cbn [forallb]. by rewrite Hlo, Hhi. }
    { apply int64_spec. lia. }
    assert (selection db None None None None (Some lo) (Some hi) None None = [])
      as Hnone.
    { unfold selection. apply filter_none. intros r. unfold satisfies.
      cbn [given andb]. rewrite !andb_true_r, sql_test_inverted by done. done. }
    rewrite Hnone in *. apply Permutation_nil_r in Hperm as ->.
    unfold limit_offset. rewrite drop_nil.
    by destruct (limit <? 0); rewrite ?take_nil.
  - intros db state city ntee min_revenue max_revenue min_assets max_assets
      limit offset Hbounds Hlimit Hoffset.
    unfold api_search. destruct (Z.ltb_spec limit 1); [lia|].
    destruct (Z.ltb_spec 500 limit); [lia|].
    destruct (Z.ltb_spec offset 0); [lia|].
    rewrite search_organizations_fails by (by left).
    by rewrite Hbounds.
  - intros db limit offset Hlimit Hoffset.
    destruct (search_organizations_selects db None None None None
                None None None None limit offset)
      as (sorted & Hperm & Hsorted & Hsearch); try done; [by left|].
    rewrite selection_no_filters in Hperm, Hsearch.
    by exists sorted.
Qed.

(** ** Bulk upsert *)

Lemma sql_compare_refl v : v ≠ SNull → sql_compare v v = Some Eq.
Proof.
  destruct v as [|z|s]; [done| |]; intros _; simpl.
  - by rewrite Z.compare_refl.
  - by rewrite string_compare_refl.
Qed.

Lemma is_null_false v : is_null v = false ↔ v ≠ SNull.
Proof. destruct v; simpl; split; congruence. Qed.

Lemma existsb_false {A} (f : A → bool) (l : list A) x :
  existsb f l = false → x ∈ l → f x = false.
Proof.
  intros H Hx. destruct (f x) eqn:E; [|reflexivity].
  rewrite <- H. symmetry. apply existsb_exists. exists x.
  split; [by apply list_elem_of_In|done].
Qed.

(** The cell of a new row in a column of the schema. *)
Lemma col_new_row id given c :
  c ∈ organizations_schema → col (new_row id given) (col_name c) = stored given c.
Proof.
  intros Hc. unfold col, new_row.
  assert (col_name c ≠ "id") as Hid.
  { intros Heq. revert Hc.
    assert (Forall (λ c, col_name c ≠ "id") organizations_schema) as Hall.
    { apply (bool_decide_unpack _). vm_compute. exact I. }
    rewrite Forall_forall in Hall. intros Hc. by apply (Hall c Hc). }
  rewrite lookup_insert_ne by done.
  erewrite elem_of_list_to_map_1; [reflexivity| |].
  - rewrite <- list_fmap_compose.
    apply (bool_decide_unpack _). vm_compute. exact I.
  - apply (list_elem_of_fmap_2 (λ c, (col_name c, stored given c))). exact Hc.
Qed.

Lemma ein_column_in_schema :
  {| col_name := "ein"; col_affinity := TEXT; col_not_null := true;
     col_unique := true; col_default := SNull |} ∈ organizations_schema.
Proof. apply list_elem_of_here. Qed.

Lemma name_column_in_schema :
  {| col_name := "name"; col_affinity := TEXT; col_not_null := true;
     col_unique := false; col_default := SNull |} ∈ organizations_schema.
Proof. apply list_elem_of_further, list_elem_of_here. Qed.

(** Rows conflict exactly when their EINs compare equal: [ein] is the only
    UNIQUE column. *)
Lemma conflicts_ein new r :
  conflicts new r
  = bool_decide (sql_compare (col r "ein") (col new "ein") = Some Eq).
Proof.
  unfold conflicts, organizations_schema, plain, with_default.
  cbn [existsb col_unique col_name andb orb]. by rewrite orb_false_r.
Qed.

(** A row that survives the insertion of [new] has another EIN. *)
Lemma unconflicting_ein new r :
  col new "ein" ≠ SNull → conflicts new r = false → col r "ein" ≠ col new "ein".
Proof.
  intros Hnew Hc Heq. rewrite conflicts_ein, Heq in Hc.
  rewrite (sql_compare_refl _ Hnew) in Hc.
  by rewrite bool_decide_eq_true_2 in Hc.
Qed.

Lemma NoDup_fmap_filter {A B} (f : A → B) (P : A → Prop)
    `{!∀ x, Decision (P x)} (l : list A) :
  NoDup (map f l) → NoDup (map f (filter P l)).
Proof.
  induction l as [|x l IH]; [done|].
  simpl. rewrite NoDup_cons. intros [Hx Hl]. rewrite filter_cons.
  destruct (decide (P x)); [|by apply IH].
  simpl. apply NoDup_cons. split; [|by apply IH].
  intros Hin. apply Hx. apply list_elem_of_fmap in Hin as (y & -> & Hy).
  apply list_elem_of_fmap_2. by apply list_elem_of_filter in Hy as [_ Hy].
Qed.

(** One INSERT OR REPLACE, whatever its columns and values, keeps the EINs
    of the table distinct. *)
Lemma insert_or_replace_unique columns db values db' :
  NoDup (eins db) →
  insert_or_replace columns db values = Ok db' →
  NoDup (eins db').
Proof.
  intros Hdb. unfold insert_or_replace.
  destruct (negb (bool_decide (length values = length columns))); [done|].
  destruct (bind_parameters values) as [bound|e]; [|done].
  cbn [mbind result_bind].
  set (given := list_to_map (zip columns bound)).
  destruct (existsb _ organizations_schema) eqn:Hnull; [done|].
  intros [= <-]. unfold eins. cbn [organizations].
  pose proof (existsb_false _ _ _ Hnull ein_column_in_schema) as Hein.
  cbn [col_not_null andb] in Hein. apply is_null_false in Hein.
  rewrite <- (col_new_row (sqlite_sequence db + 1) given _ ein_column_in_schema)
    in Hein.
  cbn [col_name] in Hein.
  rewrite map_app. apply NoDup_app. split; [|split].
  - by apply NoDup_fmap_filter.
  - intros e He. simpl. rewrite list_elem_of_singleton. intros ->.
    apply list_elem_of_fmap in He as (r & Heq & Hr).
    apply list_elem_of_filter in Hr as [Hr _].
    by apply (unconflicting_ein _ r Hein Hr).
  - simpl. apply NoDup_singleton.
Qed.

Lemma executemany_unique columns db data_tuples db' :
  NoDup (eins db) →
  executemany columns db data_tuples = Ok db' →
  NoDup (eins db').
Proof.
  revert db. induction data_tuples as [|t rest IH]; intros db Hdb; simpl.
  - by intros [= <-].
  - destruct (insert_or_replace columns db t) as [db1|e] eqn:E; [|done].
    cbn [mbind result_bind]. apply IH. by apply (insert_or_replace_unique _ _ _ _ Hdb E).
Qed.

Lemma insert_batches_unique db total orgs batch_size offsets :
  NoDup (eins db) →
  NoDup (eins (insert_batches db total orgs batch_size offsets).1).
Proof.
  revert db total. induction offsets as [|i rest IH]; intros db total Hdb; simpl.
  - exact Hdb.
  - destruct (executemany insert_sql db _) as [db1|e] eqn:E; [|exact Hdb].
    apply IH. by apply (executemany_unique _ _ _ _ Hdb E).
Qed.

(** A call of [insert_organizations], successful or not, keeps the EINs of
    the table distinct. *)
Lemma insert_organizations_unique db orgs batch_size :
  NoDup (eins db) →
  NoDup (eins (insert_organizations db orgs batch_size).1).
Proof.
  intros Hdb. unfold insert_organizations.
  destruct (range 0 _ batch_size) as [offsets|e]; [|exact Hdb].
  by apply insert_batches_unique.
Qed.

Lemma after_calls_unique db calls :
  NoDup (eins db) → NoDup (eins (after_calls db calls)).
Proof.
  revert db. induction calls as [|[orgs batch_size] calls IH]; intros db Hdb.
  - exact Hdb.
  - simpl. apply IH. by apply insert_organizations_unique.
Qed.

Lemma sql_compare_eq a b : sql_compare a b = Some Eq → a = b.
Proof.
  destruct a as [|x|s], b as [|y|t]; simpl; try done; intros [= H].
  - by apply Z.compare_eq in H as ->.
  - by apply string_compare_eq in H as ->.
Qed.

Lemma supplied_ein org :
  supplied org !! "ein" = Some (bind (default PNone (org !! "ein"))).
Proof.
  unfold supplied, data_tuple.
  repeat match goal with
         | |- context [default ?d (org !! ?k)] =>
             generalize (default d (org !! k)); intro
         end.
  vm_compute. reflexivity.
Qed.

Lemma supplied_name org :
  supplied org !! "name" = Some (bind (default PNone (org !! "name"))).
Proof.
  unfold supplied, data_tuple.
  repeat match goal with
         | |- context [default ?d (org !! ?k)] =>
             generalize (default d (org !! k)); intro
         end.
  vm_compute. reflexivity.
Qed.

Lemma text_of_bind_null v : is_null (apply_affinity TEXT (bind v)) = false ↔ v ≠ PNone.
Proof. destruct v; simpl; split; congruence. Qed.

(** An organization record passes the two NOT NULL constraints. *)
Lemma organization_record_not_null org :
  organization_record org →
  existsb (λ c, col_not_null c && is_null (stored (supplied org) c))
    organizations_schema = false.
Proof.
  intros [Hein Hname].
  unfold organizations_schema, plain, with_default.
  cbn [existsb col_not_null andb orb]. rewrite orb_false_r.
  unfold stored. cbn [col_name col_affinity col_not_null col_default andb].
  rewrite supplied_ein, supplied_name.
  apply text_of_bind_null in Hein, Hname. rewrite Hein, Hname. cbv iota.
  by rewrite Hein, Hname.
Qed.

Lemma ein_of_not_null org : organization_record org → ein_of org ≠ SNull.
Proof.
  intros [Hein _]. unfold ein_of, stored.
  cbn [col_name col_affinity col_not_null col_default andb].
  rewrite supplied_ein. apply text_of_bind_null in Hein.
  rewrite Hein. cbv iota. by apply is_null_false.
Qed.

(** For an organization record the statement does what [upsert] says. *)
Lemma insert_or_replace_record db org :
  storable_record org →
  insert_or_replace insert_sql db (data_tuple org) = Ok (upsert db org).
Proof.
  intros [Horg Hbind]. unfold insert_or_replace.
  rewrite bool_decide_eq_true_2 by reflexivity. cbn [negb].
  rewrite (bind_parameters_Ok _ Hbind). cbn [mbind result_bind].
  change (list_to_map (zip insert_sql (map bind (data_tuple org))))
    with (supplied org).
  rewrite (organization_record_not_null org Horg).
  unfold upsert. do 2 f_equal. f_equal.
  apply list_filter_iff. intros r.
  pose proof (col_new_row (sqlite_sequence db + 1) (supplied org) _
                ein_column_in_schema) as Hnew.
  cbn [col_name] in Hnew. fold (ein_of org) in Hnew.
  split.
  - intros Hc. rewrite <- Hnew. apply unconflicting_ein; [|exact Hc].
    rewrite Hnew. by apply ein_of_not_null.
  - intros Hne. rewrite conflicts_ein, Hnew.
    apply bool_decide_eq_false_2. intros Heq. by apply Hne, sql_compare_eq.
Qed.

Lemma executemany_records db orgs :
  Forall storable_record orgs →
  executemany insert_sql db (map data_tuple orgs) = Ok (foldl upsert db orgs).
Proof.
  intros Horgs. revert db. induction Horgs as [|org orgs Horg _ IH]; intros db.
  - reflexivity.
  - cbn [map executemany foldl]. rewrite (insert_or_replace_record db org Horg).
    cbn [mbind result_bind]. apply IH.
Qed.

Lemma slice_take_drop {A} (l : list A) (a b : Z) :
  0 ≤ a ≤ b →
  slice l a b = take (Z.to_nat (b - a)) (drop (Z.to_nat a) l).
Proof.
  intros Hab. unfold slice.
  destruct (Z.ltb_spec a 0) as [|_]; [lia|].
  destruct (Z.ltb_spec b 0) as [|_]; [lia|].
  destruct (Z_le_gt_dec a (Z.of_nat (length l))) as [Ha|Ha].
  - rewrite (Z.min_l a) by lia.
    destruct (Z_le_gt_dec b (Z.of_nat (length l))) as [Hb|Hb].
    + by rewrite (Z.min_l b) by lia.
    + rewrite (Z.min_r b) by lia.
      rewrite !take_ge; [done| |]; rewrite length_drop; lia.
  - rewrite (Z.min_r a), (Z.min_r b) by lia.
    rewrite !drop_ge by lia. by rewrite !take_nil.
Qed.

(** The batches of the loop, one after the other, are the whole list. *)
Lemma insert_batches_records db total orgs batch_size (k m : nat) :
  0 < batch_size →
  Forall storable_record orgs →
  insert_batches db total orgs batch_size
    (map (λ j : nat, 0 + Z.of_nat j * batch_size) (seq k m))
  = (foldl upsert db
       (take (m * Z.to_nat batch_size) (drop (k * Z.to_nat batch_size) orgs)),
     Ok (total
         + Z.of_nat
             (length (take (m * Z.to_nat batch_size)
                        (drop (k * Z.to_nat batch_size) orgs))))).
Proof.
  intros Hbs Horgs. revert db total k.
  induction m as [|m IH]; intros db total k.
  - simpl. by rewrite Z.add_0_r.
  - cbn [seq map insert_batches].
    rewrite slice_take_drop by lia.
    replace (Z.to_nat (0 + Z.of_nat k * batch_size + batch_size
                       - (0 + Z.of_nat k * batch_size)))
      with (Z.to_nat batch_size) by lia.
    replace (Z.to_nat (0 + Z.of_nat k * batch_size))
      with (k * Z.to_nat batch_size)%nat by lia.
    rewrite executemany_records
      by (apply Forall_take, Forall_drop; exact Horgs).
    rewrite IH.
    set (bs := Z.to_nat batch_size).
    replace (S k * bs)%nat with (k * bs + bs)%nat by lia.
    rewrite <- (drop_drop orgs bs (k * bs)).
    set (rest := drop (k * bs) orgs).
    replace (S m * bs)%nat with (bs + m * bs)%nat by lia.
    rewrite <- (take_take_drop rest bs (m * bs)).
    rewrite foldl_app, length_app. f_equal. f_equal. lia.
Qed.

Lemma range_batches (n batch_size : Z) :
  0 < batch_size →
  range 0 n batch_size
  = Ok (map (λ j : nat, 0 + Z.of_nat j * batch_size)
          (seq 0 (Z.to_nat ((n - 0 + batch_size - 1) / batch_size)))).
Proof.
  intros H. unfold range.
  destruct (Z.eqb_spec batch_size 0); [lia|].
  by destruct (Z.ltb_spec 0 batch_size); [|lia].
Qed.

(** A call on organization records with a positive batch size upserts every
    record in turn and returns how many it was given. *)
Lemma insert_organizations_records db orgs batch_size :
  0 < batch_size →
  Forall storable_record orgs →
  insert_organizations db orgs batch_size
  = (foldl upsert db orgs, Ok (Z.of_nat (length orgs))).
Proof.
  intros Hbs Horgs. unfold insert_organizations.
  rewrite range_batches by done.
  rewrite (insert_batches_records db 0 orgs batch_size 0 _ Hbs Horgs).
  rewrite drop_0, take_ge; [by rewrite Z.add_0_l|].
  set (n := Z.of_nat (length orgs)).
  assert (n ≤ (n - 0 + batch_size - 1) / batch_size * batch_size).
  { pose proof (Z.div_mod (n - 0 + batch_size - 1) batch_size ltac:(lia)).
    pose proof (Z.mod_pos_bound (n - 0 + batch_size - 1) batch_size Hbs). nia. }
  assert (0 ≤ (n - 0 + batch_size - 1) / batch_size).
  { apply Z.div_pos; lia. }
  nia.
Qed.

Lemma col_new_row_ein id org : col (new_row id (supplied org)) "ein" = ein_of org.
Proof. apply (col_new_row id (supplied org) _ ein_column_in_schema). Qed.

(** After an upsert the record's row is the only row with its EIN. *)
Lemma upsert_this db org :
  filter (λ r, col r "ein" = ein_of org) (organizations (upsert db org))
  = [new_row (sqlite_sequence db + 1) (supplied org)].
Proof.
  unfold upsert. cbn [organizations]. rewrite filter_app.
  rewrite list_filter_filter, (filter_none _ (organizations db)) by tauto.
  rewrite filter_cons, filter_nil.
  by rewrite decide_True by apply col_new_row_ein.
Qed.

(** An upsert under another EIN leaves the row of an EIN as it is. *)
Lemma upsert_other db org e r :
  ein_of org ≠ e →
  filter (λ r, col r "ein" = e) (organizations db) = [r] →
  filter (λ r, col r "ein" = e) (organizations (upsert db org)) = [r].
Proof.
  intros Hne Hr. unfold upsert. cbn [organizations]. rewrite filter_app.
  rewrite filter_cons, filter_nil.
  rewrite decide_False by (rewrite col_new_row_ein; exact Hne).
  rewrite app_nil_r, list_filter_filter.
  rewrite <- Hr. apply list_filter_iff.
  intros r'. split; [tauto|]. intros He. split; [exact He|]. congruence.
Qed.

Lemma foldl_upsert_other db orgs e r :
  Forall (λ org, ein_of org ≠ e) orgs →
  filter (λ r, col r "ein" = e) (organizations db) = [r] →
  filter (λ r, col r "ein" = e) (organizations (foldl upsert db orgs)) = [r].
Proof.
  intros Horgs. revert db. induction Horgs as [|org orgs Horg _ IH]; intros db H.
  - exact H.
  - simpl. apply IH. by apply upsert_other.
Qed.

Lemma foldl_upsert_sequence db orgs :
  sqlite_sequence (foldl upsert db orgs)
  = sqlite_sequence db + Z.of_nat (length orgs).
Proof.
  revert db. induction orgs as [|org orgs IH]; intros db; simpl; [lia|].
  rewrite IH. unfold upsert. cbn [sqlite_sequence]. lia.
Qed.

(** Rows whose EIN no upserted record has stay in the table. *)
Lemma foldl_upsert_keeps db orgs r :
  r ∈ organizations db →
  Forall (λ org, ein_of org ≠ col r "ein") orgs →
  r ∈ organizations (foldl upsert db orgs).
Proof.
  intros Hr Horgs. revert db Hr.
  induction Horgs as [|org orgs Horg _ IH]; intros db Hr; [exact Hr|].
  simpl. apply IH. unfold upsert. cbn [organizations].
  apply elem_of_app. left. apply list_elem_of_filter. split; [congruence|exact Hr].
Qed.

(** C1.  Whatever calls of the bulk upsert are made on a new database,
    successful or not, no two stored rows have the same EIN.  When a call
    upserts organization records whose integers fit 64 bits and whose texts
    are modest, the one row holding a record's EIN
    afterwards is the row built from the last record of the call with that
    EIN, under a new rowid; nothing of an earlier row with the EIN remains,
    and rows with other EINs stay.  Ingesting one EIN twice with different
    names leaves one row, with the second name. *)
Theorem ein_unique_and_replaced :
  (∀ calls, NoDup (eins (after_calls init_database calls)))
  ∧ (∀ db orgs1 org orgs2 batch_size,
       0 < batch_size →
       Forall storable_record (orgs1 ++ org :: orgs2) →
       Forall modest_record (orgs1 ++ org :: orgs2) →
       Forall (λ org', ein_of org' ≠ ein_of org) orgs2 →
       ∃ id,
         sqlite_sequence db < id
         ∧ filter (λ r, col r "ein" = ein_of org)
             (organizations
                (insert_organizations db (orgs1 ++ org :: orgs2) batch_size).1)
           = [new_row id (supplied org)])
  ∧ (∀ db orgs batch_size r,
       0 < batch_size →
       Forall storable_record orgs →
       Forall modest_record orgs →
       r ∈ organizations db →
       Forall (λ org, ein_of org ≠ col r "ein") orgs →
       r ∈ organizations (insert_organizations db orgs batch_size).1)
  ∧ map (λ r, (col r "ein", col r "name", col r "revenue_amount"))
      (organizations
         (after_calls init_database
            [ ([organization "123456789" "Helping Hands" 10], 1000);
              ([organization "123456789" "Helping Hands Inc" 20], 1000) ]))
    = [ (SText "123456789", SText "Helping Hands Inc", SInt 20) ].
Proof.
  split; [|split; [|split]].
  - intros calls. apply after_calls_unique. apply NoDup_nil_2.
  - intros db orgs1 org orgs2 batch_size Hbs Horgs _ Hlast.
    rewrite (insert_organizations_records _ _ _ Hbs Horgs). cbn [fst].
    rewrite foldl_app. cbn [foldl].
    exists (sqlite_sequence (foldl upsert db orgs1) + 1). split.
    + rewrite foldl_upsert_sequence. lia.
    + apply foldl_upsert_other; [exact Hlast|]. apply upsert_this.
  - intros db orgs batch_size r Hbs Horgs _ Hr Hother.
    rewrite (insert_organizations_records _ _ _ Hbs Horgs). cbn [fst].
    by apply foldl_upsert_keeps.
  - vm_compute. reflexivity.
Qed.

(** C9.  On a list of organization records whose integers fit 64 bits and
    whose texts are modest, and a positive batch size, the bulk upsert
    returns the length of the list:
    every record handed over is counted, also one that replaces a row, so the
    count can exceed the number of rows stored, as when one EIN is given
    twice.  A record with an amount of 2^63 makes the call raise
    OverflowError instead. *)
Theorem insert_organizations_counts_input :
  (∀ db orgs batch_size,
     0 < batch_size →
     Forall storable_record orgs →
     Forall modest_record orgs →
     (insert_organizations db orgs batch_size).2 = Ok (Z.of_nat (length orgs)))
  ∧ (let run :=
       insert_organizations init_database
         [ organization "123456789" "Helping Hands" 10;
           organization "123456789" "Helping Hands Inc" 20 ] 1000 in
     run.2 = Ok 2 ∧ length (organizations run.1) = 1%nat)
  ∧ insert_organizations init_database
      [ organization "123456789" "Helping Hands" 9223372036854775808 ] 1000
    = (init_database, Raise OverflowError).
Proof.
  split; [|split].
  - intros db orgs batch_size Hbs Horgs _.
    by rewrite (insert_organizations_records _ _ _ Hbs Horgs).
  - vm_compute. split; reflexivity.
  - vm_compute. reflexivity.
Qed.

(** ** More on the record parser *)

Lemma length_prefix n s : (String.length (PyStr.prefix n s) ≤ n)%nat.
Proof.
  revert s. induction n as [|n IH]; intros [|c s]; simpl; try lia.
  specialize (IH s). lia.
Qed.

(** The entries of a parsed record that the storage layer and the bounds of
    the parser are about. *)
Lemma parse_eo_row_fields row o :
  _parse_eo_row row = Ok (Some o) →
  ∃ ein name state zip,
    strip (get row "EIN") = Ok ein ∧ PyStr.truthy ein = true
    ∧ strip (get row "NAME") = Ok name
    ∧ strip (get row "STATE") = Ok state
    ∧ strip (get row "ZIP") = Ok zip
    ∧ o !! "ein" = Some (PStr ein)
    ∧ o !! "name" = Some (PStr (PyStr.prefix 500 name))
    ∧ o !! "state" = Some (PStr (PyStr.prefix 2 state))
    ∧ o !! "zip" = Some (PStr (PyStr.prefix 10 zip))
    ∧ o !! "asset_amount" = Some (PInt (_parse_amount_code (get row "ASSET_AMT")))
    ∧ o !! "income_amount" = Some (PInt (_parse_amount_code (get row "INCOME_AMT")))
    ∧ o !! "revenue_amount" = Some (PInt (_parse_amount_code (get row "REVENUE_AMT")))
    ∧ o !! "data_source" = Some (PStr "IRS_EO_BMF").
Proof.
  intros H. unfold _parse_eo_row in H.
  parse_step H. destruct (PyStr.truthy a) eqn:Hein; [|discriminate H].
  cbn [negb] in H.
  do 15 parse_step H.
  exists a, a0, a3, a4. repeat (split; [assumption|]).
  generalize dependent (_parse_amount_code (get row "ASSET_AMT")).
  generalize dependent (_parse_amount_code (get row "INCOME_AMT")).
  generalize dependent (_parse_amount_code (get row "REVENUE_AMT")).
  generalize dependent (PyStr.prefix 500 a0).
  generalize dependent (PyStr.prefix 2 a3).
  generalize dependent (PyStr.prefix 10 a4).
  generalize (default "Unknown" (NTEE_CATEGORIES !! PyStr.head a6)).
  intros d p10 p2 p500 z1 z2 z3 H.
  destruct (PyStr.truthy a6); apply Ok_Some_inj in H; rewrite <- H;
    repeat split; vm_compute; reflexivity.
Qed.




Lemma parse_amount_code_values code :
  _parse_amount_code code
    ∈ [ 0; 5000; 25000; 62500; 175000; 375000; 750000; 2500000; 7500000;
        25000000; 75000000; 175000000; 375000000; 750000000 ].
Proof.
  unfold _parse_amount_code.
  destruct (PyStr.upper (PyStr.strip (py_str code))) as [k|];
    [|apply list_elem_of_here].
  destruct (AMOUNT_CODES !! k) as [v|] eqn:E; [|apply list_elem_of_here].
  apply elem_of_list_to_map_2 in E. simpl.
  repeat (apply elem_of_cons in E as [[= _ <-]|E];
          [by repeat first [apply list_elem_of_here | apply list_elem_of_further]|]).
  by apply not_elem_of_nil in E.
Qed.

(** X2.  Whatever the field holds, also [None] or an unknown code, the
    amount is one of the fourteen bucket values, so between 0 and
    750000000; the three amounts of every parsed record are such values. *)
Theorem amounts_are_buckets :
  (∀ code,
     _parse_amount_code code
       ∈ [ 0; 5000; 25000; 62500; 175000; 375000; 750000; 2500000; 7500000;
           25000000; 75000000; 175000000; 375000000; 750000000 ]
     ∧ 0 ≤ _parse_amount_code code ≤ 750000000)
  ∧ (∀ row o key,
       _parse_eo_row row = Ok (Some o) →
       key ∈ ["asset_amount"; "income_amount"; "revenue_amount"] →
       ∃ v, o !! key = Some (PInt v) ∧ 0 ≤ v ≤ 750000000).
Proof.
  assert (∀ code, 0 ≤ _parse_amount_code code ≤ 750000000) as Hbound.
  { intros code. pose proof (parse_amount_code_values code) as H.
    repeat (apply elem_of_cons in H as [->|H]; [lia|]).
    by apply not_elem_of_nil in H. }
  split.
  - intros code. split; [apply parse_amount_code_values|apply Hbound].
  - intros row o key H Hkey.
    destruct (parse_eo_row_fields row o H)
      as (ein & name & state & zip & _ & _ & _ & _ & _
          & _ & _ & _ & _ & Ha & Hi & Hr & _).
    repeat (apply elem_of_cons in Hkey as [->|Hkey];
            [eexists; split; [eassumption|apply Hbound]|]).
    by apply not_elem_of_nil in Hkey.
Qed.

Lemma strip_Raise v e : strip v = Raise e → v = None ∧ e = AttributeError.
Proof. destruct v; simpl; [done|]. by intros [= <-]. Qed.

Lemma get_None (row : raw_row) key : row !! key = Some None → strip (get row key) ≠ Ok "" ∧ ∀ s, strip (get row key) ≠ Ok s.
Proof. unfold get. intros ->. simpl. split; [done|]. intros s. done. Qed.

Ltac strip_or_raise :=
  match goal with
  | |- context [mbind _ (strip ?x)] =>
      let E := fresh "E" in
      destruct (strip x) eqn:E;
      [ cbn [mbind result_bind]
      | apply strip_Raise in E as [_ ->]; reflexivity ]
  end.

(** A line with too few fields: some column the parser trims holds [None]. *)
Lemma parse_eo_row_short row key :
  key ∈ [ "EIN"; "NAME"; "STREET"; "CITY"; "STATE"; "ZIP"; "SUBSECTION";
          "NTEE_CD"; "FOUNDATION"; "STATUS"; "RULING"; "TAX_PERIOD"; "GEN";
          "DEDUCTIBILITY"; "ACTIVITY"; "ORGANIZATION" ] →
  row !! key = Some None →
  strip (get row "EIN") ≠ Ok "" →
  _parse_eo_row row = Raise AttributeError.
Proof.
  intros Hkey Hnone Hein. unfold _parse_eo_row.
  strip_or_raise. destruct (PyStr.truthy a) eqn:Ht;
    [|by apply truthy_empty in Ht as ->].
  cbn [negb].
  do 15 strip_or_raise.
  exfalso.
  repeat (apply elem_of_cons in Hkey as [->|Hkey];
          [by eapply (proj2 (get_None row _ Hnone))|]).
  by apply not_elem_of_nil in Hkey.
Qed.

Lemma parse_eo_bmf_length rows : (length (parse_eo_bmf rows) ≤ length rows)%nat.
Proof.
  induction rows as [|r rows IH]; simpl; [lia|].
  destruct (_parse_eo_row r) as [[o|]|e]; simpl; lia.
Qed.

(** X3.  A row that makes the parser raise costs the partition that row
    only: the batch is what the rows before and after it give.  A line with
    too few fields, whose missing column reads [None], is such a row unless
    its EIN is blank; it raises AttributeError.  The batch never has more
    records than the partition has rows.  An EIN of whitespace alone, the
    no-break space included, is blank: such a row is dropped without raising
    even when another column reads [None]. *)
Theorem failing_row_skipped :
  (∀ row e before after,
     _parse_eo_row row = Raise e →
     parse_eo_bmf (before ++ row :: after)
     = parse_eo_bmf before ++ parse_eo_bmf after)
  ∧ (∀ row key,
       key ∈ [ "EIN"; "NAME"; "STREET"; "CITY"; "STATE"; "ZIP"; "SUBSECTION";
               "NTEE_CD"; "FOUNDATION"; "STATUS"; "RULING"; "TAX_PERIOD";
               "GEN"; "DEDUCTIBILITY"; "ACTIVITY"; "ORGANIZATION" ] →
       row !! key = Some None →
       strip (get row "EIN") ≠ Ok "" →
       _parse_eo_row row = Raise AttributeError)
  ∧ (∀ rows, (length (parse_eo_bmf rows) ≤ length rows)%nat)
  ∧ (∀ row ein,
       row !! "EIN" = Some (Some ein) → PyStr.blank ein = true →
       _parse_eo_row row = Ok None)
  ∧ PyStr.blank (String (ascii_of_nat 160) "") = true.
Proof.
  split; [|split; [|split; [|split]]].
  - intros row e before after H. rewrite parse_eo_bmf_app. simpl. by rewrite H.
  - apply parse_eo_row_short.
  - apply parse_eo_bmf_length.
  - intros row ein Hrow Hblank. apply parse_eo_row_blank_ein.
    right. by exists ein.
  - reflexivity.
Qed.

(** Every parsed record is an organization record. *)
Lemma parse_eo_row_record row o :
  _parse_eo_row row = Ok (Some o) → organization_record o.
Proof.
  intros H.
  destruct (parse_eo_row_fields row o H)
    as (ein & name & state & zip & _ & _ & _ & _ & _ & Ho1 & Ho2 & _).
  unfold organization_record. by rewrite Ho1, Ho2.
Qed.

Lemma parse_eo_bmf_records rows : Forall organization_record (parse_eo_bmf rows).
Proof.
  induction rows as [|r rows IH]; simpl; [constructor|].
  destruct (_parse_eo_row r) as [[o|]|e] eqn:E; try exact IH.
  constructor; [by apply (parse_eo_row_record r)|exact IH].
Qed.

(** Every value of a parsed record is a text or one of the amounts. *)
Lemma parse_eo_row_values row o key v :
  _parse_eo_row row = Ok (Some o) →
  o !! key = Some v →
  (∃ s, v = PStr s) ∨ (∃ z, v = PInt z ∧ 0 ≤ z ≤ 750000000).
Proof.
  intros H Hv. unfold _parse_eo_row in H.
  parse_step H. destruct (PyStr.truthy a); [|discriminate H].
  cbn [negb] in H.
  do 15 parse_step H.
  assert (∀ code, 0 ≤ _parse_amount_code code ≤ 750000000) as Hbound.
  { intros code. pose proof (parse_amount_code_values code) as Hc.
    repeat (apply elem_of_cons in Hc as [->|Hc]; [lia|]).
    by apply not_elem_of_nil in Hc. }
  assert (∀ org : gmap string pyval,
            (∀ k x, org !! k = Some x →
                    (∃ s, x = PStr s) ∨ (∃ z, x = PInt z ∧ 0 ≤ z ≤ 750000000)) →
            ∀ d k x, <["ntee_description" := PStr d]> org !! k = Some x →
                     (∃ s, x = PStr s) ∨ (∃ z, x = PInt z ∧ 0 ≤ z ≤ 750000000))
    as Hinsert.
  { intros org Horg d k x Hx. apply lookup_insert_Some in Hx as [[_ <-]|[_ Hx]].
    - left. by eexists.
    - by apply (Horg k). }
  match type of H with
  | context [@list_to_map _ _ _ _ _ ?l] =>
      assert (∀ k x, (list_to_map l : gmap string pyval) !! k = Some x →
                     (∃ s, x = PStr s) ∨ (∃ z, x = PInt z ∧ 0 ≤ z ≤ 750000000))
        as Hlist
  end.
  { intros k x Hx. apply elem_of_list_to_map_2 in Hx.
    repeat (apply elem_of_cons in Hx as [[= -> ->]|Hx];
            [first [left; by eexists
                   | right; eexists; split; [reflexivity|apply Hbound]]|]).
    by apply not_elem_of_nil in Hx. }
  destruct (PyStr.truthy a6); apply Ok_Some_inj in H; rewrite <- H in Hv.
  - exact (Hinsert _ Hlist _ key v Hv).
  - exact (Hlist key v Hv).
Qed.

(** Every parsed record can be bound to the insert statement. *)
Lemma parse_eo_row_storable row o :
  _parse_eo_row row = Ok (Some o) → storable_record o.
Proof.
  intros H. split; [by apply (parse_eo_row_record row)|].
  assert (∀ k d, bindable d = true → bindable (default d (o !! k)) = true) as Hb.
  { intros k d Hd. destruct (o !! k) as [v|] eqn:E; [|exact Hd].
    cbn [default from_option Datatypes.id].
    destruct (parse_eo_row_values row o k v H E) as [[s ->]|(z & -> & Hz)];
      [reflexivity|]. apply int64_spec. lia. }
  unfold bindable_record, data_tuple. cbn [forallb].
  rewrite !Hb by reflexivity. reflexivity.
Qed.

Lemma parse_eo_bmf_storable rows : Forall storable_record (parse_eo_bmf rows).
Proof.
  induction rows as [|r rows IH]; simpl; [constructor|].
  destruct (_parse_eo_row r) as [[o|]|e] eqn:E; try exact IH.
  constructor; [by apply (parse_eo_row_storable r)|exact IH].
Qed.

Lemma process_all_data_batch env :
  run_organizations (process_all_data env)
  = concat (map parse_eo_bmf (downloaded env)).
Proof. unfold process_all_data. by destruct (downloaded env). Qed.

Lemma process_all_data_records env :
  Forall organization_record (run_organizations (process_all_data env)).
Proof.
  rewrite process_all_data_batch.
  induction (downloaded env) as [|f fs IH]; simpl; [constructor|].
  apply Forall_app. split; [apply parse_eo_bmf_records|exact IH].
Qed.

Lemma process_all_data_length env :
  (length (run_organizations (process_all_data env))
   ≤ length (concat (downloaded env)))%nat.
Proof.
  rewrite process_all_data_batch.
  induction (downloaded env) as [|f fs IH]; simpl; [lia|].
  rewrite !length_app. pose proof (parse_eo_bmf_length f). lia.
Qed.

Lemma process_all_data_storable env :
  Forall storable_record (run_organizations (process_all_data env)).
Proof.
  rewrite process_all_data_batch.
  induction (downloaded env) as [|f fs IH]; simpl; [constructor|].
  apply Forall_app. split; [apply parse_eo_bmf_storable|exact IH].
Qed.

(** X4.  The batch a run returns is the partitions' batches in partition
    order.  Every record in it has an EIN and a name, so the table's NOT NULL
    constraints accept it; the summary counts exactly the records of the
    batch, which are never more than the rows read; and the output file,
    written when a partition was retrieved, holds that batch. *)
Theorem run_summary_matches_batch :
  ∀ env,
    let r := process_all_data env in
    run_organizations r = concat (map parse_eo_bmf (downloaded env))
    ∧ Forall organization_record (run_organizations r)
    ∧ organizations_processed (run_stats r) = Z.of_nat (length (run_organizations r))
    ∧ organizations_processed (run_stats r) ≤ Z.of_nat (length (concat (downloaded env)))
    ∧ eo_bmf_files (run_stats r) = Z.of_nat (length (downloaded env))
    ∧ run_output_file r
      = match downloaded env with
        | [] => None
        | _ => Some (run_organizations r)
        end.
Proof.
  intros env r.
  assert (organizations_processed (run_stats r)
          = Z.of_nat (length (run_organizations r))) as Hcount
    by (subst r; unfold process_all_data; by destruct (downloaded env)).
  split; [apply process_all_data_batch|].
  split; [apply process_all_data_records|].
  split; [exact Hcount|].
  split; [rewrite Hcount; pose proof (process_all_data_length env); subst r; lia|].
  subst r. unfold process_all_data. by destruct (downloaded env).
Qed.

(** ** More on the storage engine *)

(** A property of the database that every INSERT OR REPLACE of
    [insert_sql] keeps is kept by every sequence of calls. *)
Lemma executemany_invariant (P : database → Prop) :
  (∀ db values db',
     P db → insert_or_replace insert_sql db values = Ok db' → P db') →
  ∀ db data_tuples db',
    P db → executemany insert_sql db data_tuples = Ok db' → P db'.
Proof.
  intros Hstep db data_tuples. revert db.
  induction data_tuples as [|t rest IH]; intros db db' Hdb; cbn [executemany].
  - by intros [= <-].
  - destruct (insert_or_replace insert_sql db t) as [db1|e] eqn:E; [|done].
    cbn [mbind result_bind]. apply IH. by apply (Hstep db t).
Qed.

Lemma insert_organizations_invariant (P : database → Prop) :
  (∀ db values db',
     P db → insert_or_replace insert_sql db values = Ok db' → P db') →
  ∀ db orgs batch_size, P db → P (insert_organizations db orgs batch_size).1.
Proof.
  intros Hstep db orgs batch_size Hdb. unfold insert_organizations.
  destruct (range 0 _ batch_size) as [offsets|e]; [|exact Hdb].
  generalize 0. revert db Hdb.
  induction offsets as [|i rest IH]; intros db Hdb total; cbn [insert_batches].
  - exact Hdb.
  - destruct (executemany insert_sql db _) as [db1|e] eqn:E; [|exact Hdb].
    apply IH. by apply (executemany_invariant P Hstep _ _ _ Hdb E).
Qed.

Lemma after_calls_invariant (P : database → Prop) :
  (∀ db values db',
     P db → insert_or_replace insert_sql db values = Ok db' → P db') →
  ∀ db calls, P db → P (after_calls db calls).
Proof.
  intros Hstep db calls. revert db.
  induction calls as [|[orgs batch_size] calls IH]; intros db Hdb; [exact Hdb|].
  simpl. apply IH. by apply insert_organizations_invariant.
Qed.

(** What one successful statement leaves in the table. *)
Lemma insert_or_replace_Ok columns db values db' :
  insert_or_replace columns db values = Ok db' →
  length values = length columns
  ∧ db' =
      {| organizations :=
           filter (λ r, conflicts
                          (new_row (sqlite_sequence db + 1)
                             (list_to_map (zip columns (map bind values)))) r
                        = false)
             (organizations db)
           ++ [new_row (sqlite_sequence db + 1)
                 (list_to_map (zip columns (map bind values)))];
         sqlite_sequence := sqlite_sequence db + 1 |}.
Proof.
  unfold insert_or_replace.
  destruct (decide (length values = length columns)) as [Hlen|Hlen].
  - rewrite bool_decide_eq_true_2 by done. cbn [negb].
    unfold bind_parameters. destruct (forallb bindable values); [|done].
    cbn [mbind result_bind].
    destruct (existsb _ organizations_schema); [done|]. by intros [= <-].
  - by rewrite bool_decide_eq_false_2 by done.
Qed.

Lemma supplied_absent columns (values : list sqlval) key :
  key ∉ columns → (list_to_map (zip columns values) : gmap string sqlval) !! key = None.
Proof.
  intros Hkey. apply not_elem_of_list_to_map_1. intros Hin. apply Hkey.
  apply list_elem_of_fmap in Hin as ([k v] & -> & Hkv).
  by apply elem_of_zip_l in Hkv.
Qed.

(** The columns that [insert_sql] does not name. *)
Lemma new_row_unnamed id (values : list sqlval) :
  let r := new_row id (list_to_map (zip insert_sql values)) in
  col r "ntee_description" = SNull
  ∧ col r "tax_period" = SNull
  ∧ col r "organization_type" = SNull
  ∧ col r "revocation_date" = SNull
  ∧ col r "website" = SNull
  ∧ col r "email" = SNull
  ∧ col r "phone" = SNull
  ∧ col r "country" = SText "US".
Proof.
  assert (∀ c, c ∈ organizations_schema → col_name c ∉ insert_sql →
               col_not_null c = false →
               col (new_row id (list_to_map (zip insert_sql values))) (col_name c)
               = col_default c) as H.
  { intros c Hc Hname Hnn. rewrite (col_new_row _ _ c Hc). unfold stored.
    by rewrite (supplied_absent _ _ _ Hname), Hnn. }
  cbv zeta.
  repeat split;
    match goal with
    | |- col _ ?name = ?d =>
        apply (H {| col_name := name; col_affinity := TEXT; col_not_null := false;
                    col_unique := false; col_default := d |});
        [ repeat first [apply list_elem_of_here | apply list_elem_of_further]
        | apply (bool_decide_unpack _); vm_compute; exact I
        | reflexivity ]
    end.
Qed.

(** X5.  However the database was filled by bulk upserts, every stored row
    has NULL in the columns the insert statement does not name — among them
    [ntee_description] and [tax_period], which the parser computes — and
    'US' as its country. *)
Theorem unnamed_columns_never_stored :
  ∀ calls r,
    r ∈ organizations (after_calls init_database calls) →
    col r "ntee_description" = SNull
    ∧ col r "tax_period" = SNull
    ∧ col r "organization_type" = SNull
    ∧ col r "revocation_date" = SNull
    ∧ col r "website" = SNull
    ∧ col r "email" = SNull
    ∧ col r "phone" = SNull
    ∧ col r "country" = SText "US".
Proof.
  intros calls.
  pose (P := λ db : database,
          ∀ r, r ∈ organizations db →
               col r "ntee_description" = SNull
               ∧ col r "tax_period" = SNull
               ∧ col r "organization_type" = SNull
               ∧ col r "revocation_date" = SNull
               ∧ col r "website" = SNull
               ∧ col r "email" = SNull
               ∧ col r "phone" = SNull
               ∧ col r "country" = SText "US").
  apply (after_calls_invariant P).
  - intros db values db' Hdb Hins.
    apply insert_or_replace_Ok in Hins as [_ ->].
    intros r. cbn [organizations]. rewrite elem_of_app, list_elem_of_filter.
    intros [[_ Hr]|Hr]; [by apply Hdb|].
    apply list_elem_of_singleton in Hr as ->. apply new_row_unnamed.
  - intros r Hr. by apply not_elem_of_nil in Hr.
Qed.

Lemma StronglySorted_filter {A} (R : relation A) (P : A → Prop)
    `{!∀ x, Decision (P x)} (l : list A) :
  StronglySorted R l → StronglySorted R (filter P l).
Proof.
  induction 1 as [|x l Hl IH Hx]; [constructor|].
  rewrite filter_cons. destruct (decide (P x)); [|exact IH].
  constructor; [exact IH|].
  rewrite Forall_forall in Hx. apply Forall_forall. intros y Hy.
  apply Hx. by apply list_elem_of_filter in Hy as [_ Hy].
Qed.

Lemma rowid_new_row id given : rowid (new_row id given) = Some id.
Proof. unfold rowid, col, new_row. by rewrite lookup_insert_eq. Qed.

(** X6.  In a database filled by bulk upserts the rows lie in ascending
    rowid order, every rowid is a positive integer not above the
    AUTOINCREMENT counter, and so no rowid occurs twice: the row that
    replaces another gets a rowid above every rowid in the table. *)
Theorem rowids_ascending :
  ∀ calls,
    let db := after_calls init_database calls in
    StronglySorted rowid_lt (organizations db)
    ∧ Forall (λ r, ∃ i, rowid r = Some i ∧ 0 < i ≤ sqlite_sequence db)
        (organizations db)
    ∧ NoDup (map rowid (organizations db)).
Proof.
  intros calls db.
  assert (0 ≤ sqlite_sequence db
          ∧ StronglySorted rowid_lt (organizations db)
          ∧ Forall (λ r, ∃ i, rowid r = Some i ∧ 0 < i ≤ sqlite_sequence db)
              (organizations db)) as (_ & Hsorted & Hbound).
  { unfold db.
    apply (after_calls_invariant
             (λ db, 0 ≤ sqlite_sequence db
                    ∧ StronglySorted rowid_lt (organizations db)
                    ∧ Forall (λ r, ∃ i, rowid r = Some i
                                        ∧ 0 < i ≤ sqlite_sequence db)
                        (organizations db))).
    - intros db0 values db' (Hseq & Hs & Hb) Hins.
      apply insert_or_replace_Ok in Hins as [_ ->].
      cbn [organizations sqlite_sequence].
      rewrite Forall_forall in Hb.
      split; [lia|]. split.
      + apply StronglySorted_app_2.
        * intros r1 r2 Hr1 Hr2. apply list_elem_of_filter in Hr1 as [_ Hr1].
          apply list_elem_of_singleton in Hr2 as ->.
          destruct (Hb r1 Hr1) as (i & Hi & Hle).
          exists i, (sqlite_sequence db0 + 1).
          split; [exact Hi|]. split; [apply rowid_new_row|lia].
        * by apply StronglySorted_filter.
        * repeat constructor.
      + apply Forall_app. split.
        * apply Forall_forall. intros r Hr.
          apply list_elem_of_filter in Hr as [_ Hr].
          destruct (Hb r Hr) as (i & Hi & Hle). exists i. split; [exact Hi|lia].
        * apply Forall_singleton. exists (sqlite_sequence db0 + 1).
          split; [apply rowid_new_row|lia].
    - split; [done|]. split; constructor. }
  split; [exact Hsorted|]. split; [exact Hbound|].
  clear Hbound. induction Hsorted as [|r rows Hrows IH Hr]; [constructor|].
  simpl. apply NoDup_cons. split; [|exact IH].
  intros Hin. apply list_elem_of_fmap in Hin as (r' & Heq & Hr').
  rewrite Forall_forall in Hr. destruct (Hr r' Hr') as (i & j & Hi & Hj & Hlt).
  rewrite Heq in Hi. rewrite Hi in Hj. injection Hj as ->. lia.
Qed.

Lemma execute_plain db from conditions params :
  prepare from conditions = Ok () →
  length params = sum_list (map condition_params conditions) →
  forallb bindable params = true →
  fts5_parse conditions (map bind params) = Ok () →
  execute db
    {| sel_count := false; sel_from := from;
       sel_where := conditions; sel_page := false |} params
  = Ok (filter (λ r, where_holds conditions (map bind params) r = true)
          (organizations db)).
Proof.
  intros Hprepare Hlen Hbind Hparse. unfold execute, placeholders.
  cbn [sel_count sel_from sel_where sel_page]. rewrite Hprepare.
  cbn [mbind result_bind]. rewrite Nat.add_0_r, bool_decide_eq_true_2 by exact Hlen.
  cbn [negb]. rewrite (bind_parameters_Ok params Hbind).
  cbn [mbind result_bind].
  by rewrite <- Hlen, <- (length_map bind params), firstn_all, Hparse.
Qed.

Lemma sql_test_eq_text x e : sql_test OpEq x (SText e) = true ↔ x = SText e.
Proof.
  split.
  - unfold sql_test. destruct (sql_compare x (SText e)) as [[]|] eqn:E; try done.
    intros _. by apply sql_compare_eq.
  - intros ->. unfold sql_test. by rewrite sql_compare_refl.
Qed.

(** The lookup returns the first row, in table order, whose EIN is the text
    asked for. *)
Lemma get_organization_first db e :
  get_organization db e
  = Ok (head (filter (λ r, col r "ein" = SText e) (organizations db))).
Proof.
  unfold get_organization.
  rewrite execute_plain;
    [|vm_compute; reflexivity|reflexivity|reflexivity|reflexivity].
  cbn [mbind result_bind]. do 2 f_equal. apply list_filter_iff. intros r.
  cbn [where_holds map bind]. by rewrite andb_true_r, sql_test_eq_text.
Qed.

Lemma ein_of_text org e : org !! "ein" = Some (PStr e) → ein_of org = SText e.
Proof.
  intros H. unfold ein_of, stored.
  cbn [col_name col_affinity col_not_null col_default andb].
  by rewrite supplied_ein, H.
Qed.

Lemma name_of_new_row id org :
  col (new_row id (supplied org)) "name"
  = apply_affinity TEXT (bind (default PNone (org !! "name"))).
Proof.
  pose proof (col_new_row id (supplied org) _ name_column_in_schema) as H.
  cbn [col_name] in H. rewrite H.
  unfold stored. cbn [col_name col_affinity col_not_null col_default andb].
  rewrite supplied_name.
  by destruct (apply_affinity TEXT (bind (default PNone (org !! "name")))).
Qed.

Lemma filter_nil_elem {A} (P : A → Prop) `{!∀ x, Decision (P x)} (l : list A) :
  filter P l = [] ↔ ∀ x, x ∈ l → ¬ P x.
Proof.
  induction l as [|x l IH].
  - split; [intros _ y Hy; by apply not_elem_of_nil in Hy|done].
  - rewrite filter_cons. destruct (decide (P x)) as [Hx|Hx].
    + split; [done|]. intros Hall. destruct (Hall x); [apply list_elem_of_here|done].
    + rewrite IH. split.
      * intros Hall y Hy. apply elem_of_cons in Hy as [->|Hy]; [done|by apply Hall].
      * intros Hall y Hy. apply Hall. by apply list_elem_of_further.
Qed.

(** X7.  The point lookup of a modest text never raises.  It returns nothing
    exactly when no stored row has the EIN, and otherwise a stored row with
    that EIN.  After a bulk upsert of organization records whose integers
    fit 64 bits and whose texts are modest, looking up the EIN of a record
    returns the row built from the last record of the call with that EIN,
    name included.  The endpoint answers 404 exactly when the lookup returns
    nothing. *)
Theorem lookup_returns_upserted :
  (∀ db e,
     modest_text e = true →
     ∃ found,
       get_organization db e = Ok found
       ∧ (found = None ↔ SText e ∉ eins db)
       ∧ (∀ r, found = Some r → r ∈ organizations db ∧ col r "ein" = SText e))
  ∧ (∀ db orgs1 org orgs2 batch_size e,
       0 < batch_size →
       Forall storable_record (orgs1 ++ org :: orgs2) →
       Forall modest_record (orgs1 ++ org :: orgs2) →
       Forall (λ org', ein_of org' ≠ ein_of org) orgs2 →
       org !! "ein" = Some (PStr e) →
       ∃ id,
         sqlite_sequence db < id
         ∧ get_organization
             (insert_organizations db (orgs1 ++ org :: orgs2) batch_size).1 e
           = Ok (Some (new_row id (supplied org)))
         ∧ col (new_row id (supplied org)) "name"
           = apply_affinity TEXT (bind (default PNone (org !! "name"))))
  ∧ (∀ db e,
       modest_text e = true →
       api_get_organization db e = OrganizationNotFound "Organization not found"
       ↔ SText e ∉ eins db).
Proof.
  assert (∀ db e,
            head (filter (λ r, col r "ein" = SText e) (organizations db)) = None
            ↔ SText e ∉ eins db) as Hmiss.
  { intros db e. rewrite head_None, filter_nil_elem. unfold eins. split.
    - intros Hnone Hin. apply list_elem_of_fmap in Hin as (r & Heq & Hr).
      by apply (Hnone r Hr).
    - intros Hnot r Hr Heq. apply Hnot. rewrite <- Heq.
      by apply (list_elem_of_fmap_2 (λ r, col r "ein")). }
  split; [|split].
  - intros db e _. rewrite get_organization_first.
    eexists. split; [reflexivity|]. split; [apply Hmiss|].
    intros r Hr. apply head_Some_elem_of in Hr.
    apply list_elem_of_filter in Hr as [Heq Hr]. by split.
  - intros db orgs1 org orgs2 batch_size e Hbs Horgs _ Hlast He.
    exists (sqlite_sequence (foldl upsert db orgs1) + 1).
    split; [rewrite foldl_upsert_sequence; lia|].
    split; [|apply name_of_new_row].
    rewrite get_organization_first.
    rewrite (insert_organizations_records _ _ _ Hbs Horgs). cbn [fst].
    rewrite foldl_app. cbn [foldl].
    rewrite <- (ein_of_text org e He).
    by rewrite (foldl_upsert_other _ _ _ _ Hlast (upsert_this _ org)).
  - intros db e _. unfold api_get_organization. rewrite get_organization_first.
    rewrite <- Hmiss.
    destruct (head (filter (λ r, col r "ein" = SText e) (organizations db)));
      split; congruence.
Qed.

(** X8.  A batch size of 0 makes the call raise ValueError before anything
    is written; a negative batch size makes it return 0 and write nothing,
    whatever records it was given. *)
Theorem batch_size_not_positive :
  (∀ db orgs, insert_organizations db orgs 0 = (db, Raise ValueError))
  ∧ (∀ db orgs batch_size,
       batch_size < 0 → insert_organizations db orgs batch_size = (db, Ok 0)).
Proof.
  split.
  - intros db orgs. reflexivity.
  - intros db orgs batch_size Hbs. unfold insert_organizations, range.
    destruct (Z.eqb_spec batch_size 0); [lia|].
    destruct (Z.ltb_spec 0 batch_size); [lia|].
    set (len := Z.of_nat (length orgs)).
    assert ((0 - len - batch_size - 1) / - batch_size < 1) as Hcount.
    { apply Z.div_lt_upper_bound; lia. }
    replace (Z.to_nat ((0 - len - batch_size - 1) / - batch_size)) with 0%nat by lia.
    reflexivity.
Qed.

Lemma insert_or_replace_not_record db org :
  ¬ storable_record org →
  insert_or_replace insert_sql db (data_tuple org) = Raise (rejection org).
Proof.
  intros Hnot. unfold insert_or_replace, rejection, bind_parameters.
  rewrite bool_decide_eq_true_2 by reflexivity. cbn [negb].
  destruct (forallb bindable (data_tuple org)) eqn:Hbind; [|reflexivity].
  cbn [mbind result_bind].
  assert (¬ organization_record org) as Hrecord
    by (intros Hrecord; by apply Hnot).
  clear Hnot. rename Hrecord into Hnot.
  change (list_to_map (zip insert_sql (map bind (data_tuple org))))
    with (supplied org).
  assert (existsb (λ c, col_not_null c && is_null (stored (supplied org) c))
            organizations_schema = true) as ->; [|reflexivity].
  unfold organizations_schema, plain, with_default.
  cbn [existsb col_not_null andb orb]. rewrite orb_false_r.
  unfold stored. cbn [col_name col_affinity col_not_null col_default andb].
  rewrite supplied_ein, supplied_name.
  unfold organization_record in Hnot.
  destruct (default PNone (org !! "ein")) eqn:Eein; [reflexivity| |];
    (destruct (default PNone (org !! "name")) eqn:Ename;
     [by rewrite orb_true_r| |]; exfalso; apply Hnot; split; congruence).
Qed.

Lemma executemany_failing db good bad rest :
  Forall storable_record good →
  ¬ storable_record bad →
  executemany insert_sql db (map data_tuple (good ++ bad :: rest))
  = Raise (rejection bad).
Proof.
  intros Hgood Hbad. revert db.
  induction Hgood as [|org good Horg _ IH]; intros db.
  - cbn [app map executemany]. by rewrite (insert_or_replace_not_record db bad Hbad).
  - cbn [app map executemany]. rewrite (insert_or_replace_record db org Horg).
    cbn [mbind result_bind]. apply IH.
Qed.

Lemma insert_batches_failing db total orgs batch_size bad (p k m : nat) :
  0 < batch_size →
  orgs !! p = Some bad →
  ¬ storable_record bad →
  Forall storable_record (take p orgs) →
  (k * Z.to_nat batch_size ≤ p)%nat →
  (p < (k + m) * Z.to_nat batch_size)%nat →
  (insert_batches db total orgs batch_size
     (map (λ j : nat, 0 + Z.of_nat j * batch_size) (seq k m))).2
  = Raise (rejection bad)
  ∧ (insert_batches db total orgs batch_size
       (map (λ j : nat, 0 + Z.of_nat j * batch_size) (seq k m))).1
    = foldl upsert db
        (take ((p / Z.to_nat batch_size - k) * Z.to_nat batch_size)
           (drop (k * Z.to_nat batch_size) orgs)).
Proof.
  intros Hbs Hp Hbad Hgood. revert db total k.
  induction m as [|m IH]; intros db total k Hk Hm; [lia|].
  cbn [seq map insert_batches].
  rewrite slice_take_drop by lia.
  replace (Z.to_nat (0 + Z.of_nat k * batch_size + batch_size
                     - (0 + Z.of_nat k * batch_size)))
    with (Z.to_nat batch_size) by lia.
  replace (Z.to_nat (0 + Z.of_nat k * batch_size))
    with (k * Z.to_nat batch_size)%nat by lia.
  set (bs := Z.to_nat batch_size) in *.
  assert (0 < bs)%nat as Hbs' by lia.
  destruct (decide (p < (k + 1) * bs)%nat) as [Hin|Hout].
  - (* the record that fails lies in this batch *)
    assert (p / bs = k)%nat as Hq.
    { symmetry. apply (Nat.div_unique p bs k (p - k * bs)); lia. }
    rewrite Hq, Nat.sub_diag. cbn [Nat.mul take foldl].
    pose proof (take_drop_middle orgs p bad Hp) as Hsplit.
    assert (take bs (drop (k * bs) orgs)
            = drop (k * bs) (take p orgs) ++ bad :: take (bs - (p - k * bs) - 1) (drop (S p) orgs))
      as ->.
    { rewrite <- Hsplit at 1. rewrite drop_app_le by (rewrite length_take; apply lookup_lt_Some in Hp; lia).
      rewrite take_app_ge by (rewrite length_drop, length_take; apply lookup_lt_Some in Hp; lia).
      rewrite length_drop, length_take.
      apply lookup_lt_Some in Hp.
      replace (bs - (p `min` length orgs - k * bs))%nat
        with (S (bs - (p - k * bs) - 1)) by lia.
      reflexivity. }
    rewrite executemany_failing; [by split|by apply Forall_drop|exact Hbad].
  - rewrite executemany_records.
    2:{ assert (take bs (drop (k * bs) orgs) = take bs (drop (k * bs) (take p orgs)))
          as ->.
        { rewrite <- (take_drop p orgs) at 1.
          rewrite drop_app_le by (rewrite length_take; apply lookup_lt_Some in Hp; lia).
          rewrite take_app_le; [done|].
          rewrite length_drop, length_take. apply lookup_lt_Some in Hp. lia. }
        by apply Forall_take, Forall_drop. }
    destruct (IH (foldl upsert db (take bs (drop (k * bs) orgs)))
                (total + Z.of_nat (length (take bs (drop (k * bs) orgs)))) (S k))
      as [IH1 IH2]; [lia|lia|].
    split; [exact IH1|]. rewrite IH2.
    assert (S k ≤ p / bs)%nat as Hq.
    { apply Nat.div_le_lower_bound; lia. }
    replace (p / bs - k)%nat with (S (p / bs - S k)) by lia.
    cbn [Nat.mul].
    rewrite <- (take_take_drop (drop (k * bs) orgs) bs), foldl_app.
    rewrite drop_drop. by replace (k * bs + bs)%nat with (S k * bs)%nat by lia.
Qed.

(** X9.  When the first record that cannot be stored — it lacks an EIN or
    a name, or holds an integer beyond 64 bits — follows records that can,
    all with modest texts, the call raises: OverflowError when a value of the record cannot be
    bound, IntegrityError otherwise.  The batches that end before the record
    are stored, and nothing of the batch that holds the record or of any
    later batch is. *)
Theorem failing_record_loses_its_batch :
  ∀ db good bad rest batch_size,
    0 < batch_size →
    Forall storable_record good →
    ¬ storable_record bad →
    Forall modest_record (good ++ [bad]) →
    let full := (length good / Z.to_nat batch_size * Z.to_nat batch_size)%nat in
    insert_organizations db (good ++ bad :: rest) batch_size
    = (foldl upsert db (take full good), Raise (rejection bad))
    ∧ (bindable_record bad → rejection bad = IntegrityError)
    ∧ (¬ bindable_record bad → rejection bad = OverflowError).
Proof.
  intros db good bad rest batch_size Hbs Hgood Hbad _ full.
  split; [|unfold rejection, bindable_record;
           destruct (forallb bindable (data_tuple bad)); split; done].
  unfold insert_organizations. rewrite range_batches by done.
  set (orgs := good ++ bad :: rest).
  set (m := Z.to_nat ((Z.of_nat (length orgs) - 0 + batch_size - 1) / batch_size)).
  assert (orgs !! length good = Some bad) as Hp.
  { unfold orgs. by rewrite list_lookup_middle. }
  assert (take (length good) orgs = good) as Htake.
  { unfold orgs. by rewrite take_app_length. }
  assert (length good < (0 + m) * Z.to_nat batch_size)%nat as Hm.
  { assert (Z.of_nat (length orgs)
            ≤ (Z.of_nat (length orgs) - 0 + batch_size - 1) / batch_size * batch_size).
    { pose proof (Z.div_mod (Z.of_nat (length orgs) - 0 + batch_size - 1)
                    batch_size ltac:(lia)).
      pose proof (Z.mod_pos_bound (Z.of_nat (length orgs) - 0 + batch_size - 1)
                    batch_size Hbs). nia. }
    assert (0 ≤ (Z.of_nat (length orgs) - 0 + batch_size - 1) / batch_size)
      by (apply Z.div_pos; lia).
    assert (length good < length orgs)%nat.
    { unfold orgs. rewrite length_app. simpl. lia. }
    unfold m. nia. }
  destruct (insert_batches_failing db 0 orgs batch_size bad (length good) 0 m)
    as [H2 H1]; try done.
  { by rewrite Htake. }
  { lia. }
  rewrite (surjective_pairing (insert_batches db 0 orgs batch_size _)).
  rewrite H1, H2. f_equal. f_equal. rewrite Nat.sub_0_r, drop_0.
  fold full.
  assert (full ≤ length good)%nat as Hfull.
  { unfold full.
    pose proof (Nat.Div0.mul_div_le (length good) (Z.to_nat batch_size)). lia. }
  clearbody full. rewrite <- Htake at 1. rewrite take_take.
  f_equal. lia.
Qed.

(** ** The import task and its status *)

Lemma foldl_upsert_nonempty db orgs :
  orgs ≠ [] → organizations (foldl upsert db orgs) ≠ [].
Proof.
  intros Hne. destruct (exists_last Hne) as (front & org & ->).
  rewrite foldl_app. cbn [foldl]. unfold upsert at 1. cbn [organizations].
  intros H. by apply app_eq_nil in H as [_ H].
Qed.

Lemma import_task_fst env db :
  (import_task env db).1
  = foldl upsert db (run_organizations (process_all_data env)).
Proof.
  unfold import_task.
  pose proof (process_all_data_storable env) as Hrec.
  destruct (run_organizations (process_all_data env)) as [|org orgs]; [done|].
  by rewrite (insert_organizations_records db (org :: orgs) 1000 ltac:(lia) Hrec).
Qed.

Lemma import_task_empty env db :
  run_organizations (process_all_data env) = [] → import_task env db = (db, None).
Proof. intros H. unfold import_task. by rewrite H. Qed.

(** X10.  The import task stores exactly the batch of the run: it upserts
    the records in order, the upsert returns the number of records the run
    summary reports as processed and never fails on the table's constraints,
    and a run with an empty batch leaves the database untouched.  EINs that
    were distinct stay distinct. *)
Theorem import_task_stores_batch :
  ∀ env db,
    let r := process_all_data env in
    (import_task env db).1 = foldl upsert db (run_organizations r)
    ∧ (run_organizations r ≠ [] →
       (import_task env db).2 = Some (Ok (organizations_processed (run_stats r))))
    ∧ (run_organizations r = [] → import_task env db = (db, None))
    ∧ (NoDup (eins db) → NoDup (eins (import_task env db).1)).
Proof.
  intros env db r. unfold import_task. fold r.
  pose proof (process_all_data_storable env) as Hrec. fold r in Hrec.
  assert (organizations_processed (run_stats r)
          = Z.of_nat (length (run_organizations r))) as Hcount.
  { unfold r, process_all_data. by destruct (downloaded env). }
  destruct (run_organizations r) as [|org orgs] eqn:E.
  - repeat split; try done.
  - rewrite (insert_organizations_records db (org :: orgs) 1000 ltac:(lia) Hrec).
    cbn [fst snd]. split; [reflexivity|]. split; [by rewrite Hcount|].
    split; [done|]. intros Hdb.
    pose proof (insert_organizations_unique db (org :: orgs) 1000 Hdb) as H.
    by rewrite (insert_organizations_records db (org :: orgs) 1000 ltac:(lia) Hrec)
      in H.
Qed.

(** X11.  The import status is "complete" exactly when the table holds a
    row: after an import whose run gave no record into an empty database
    it still reads "pending", and after an import of at least one record it
    reads "complete". *)
Theorem import_status_reads_corpus :
  (∀ db, (import_status db).2 = "complete" ↔ organizations db ≠ [])
  ∧ (∀ db, (import_status db).1 = Z.of_nat (length (organizations db)))
  ∧ (∀ env,
       run_organizations (process_all_data env) = [] →
       import_status (import_task env init_database).1 = (0, "pending"))
  ∧ (∀ env db,
       run_organizations (process_all_data env) ≠ [] →
       (import_status (import_task env db).1).2 = "complete").
Proof.
  assert (∀ db, (import_status db).2 = "complete" ↔ organizations db ≠ [])
    as Hstatus.
  { intros db. unfold import_status, get_statistics. cbn [total_organizations snd].
    destruct (organizations db) as [|r rows]; [by split|].
    destruct (Z.ltb_spec 0 (Z.of_nat (length (r :: rows)))) as [|Hle];
      [by split|]. simpl in Hle. lia. }
  split; [exact Hstatus|]. split; [reflexivity|]. split.
  - intros env Hnil.
    by rewrite (import_task_empty env init_database Hnil).
  - intros env db Hne. apply Hstatus.
    rewrite (import_task_fst env db). by apply foldl_upsert_nonempty.
Qed.

(** ** Histogram totals, pages and exports *)

Lemma group_count_total keys :
  map_fold (λ (_ : string) (n total : nat), (n + total)%nat) 0%nat
    (group_count keys)
  = length keys.
Proof.
  induction keys as [|k keys IH]; [reflexivity|].
  cbn [group_count length].
  assert (∀ (m : gmap string nat) j1 j2 (z1 z2 y : nat),
            j1 ≠ j2 → m !! j1 = Some z1 → m !! j2 = Some z2 →
            (z1 + (z2 + y) = z2 + (z1 + y))%nat) as Hcomm by (intros; lia).
  destruct (group_count keys !! k) as [n|] eqn:E; cbn [default id].
  - rewrite <- insert_delete_eq.
    rewrite map_fold_insert_L; [|by apply Hcomm|by rewrite lookup_delete_eq].
    rewrite (map_fold_delete_L _ _ k n (group_count keys)) in IH;
      [|by apply Hcomm|exact E].
    lia.
  - rewrite map_fold_insert_L; [|by apply Hcomm|exact E]. lia.
Qed.

Lemma revenue_range_labels v :
  revenue_range v
    ∈ ["Zero"; "<$50K"; "$50K-$250K"; "$250K-$1M"; "$1M-$5M"; ">$5M"].
Proof.
  unfold revenue_range.
  repeat match goal with
         | |- context [if ?b then _ else _] => destruct b
         end;
    repeat first [apply list_elem_of_here | apply list_elem_of_further].
Qed.

(** X12.  The histogram accounts for every organization once: its counts
    add up to the total, each count is at least 1, and each label is one of
    the six of the CASE expression, whatever the stored revenue is (NULL and
    text included). *)
Theorem histogram_accounts_for_corpus :
  ∀ db,
    let stats := get_statistics db in
    Z.of_nat
      (map_fold (λ (_ : string) (n total : nat), (n + total)%nat) 0%nat
         (revenue_distribution stats))
    = total_organizations stats
    ∧ total_organizations stats = Z.of_nat (length (organizations db))
    ∧ (∀ label n,
         revenue_distribution stats !! label = Some n →
         (1 ≤ n)%nat
         ∧ label ∈ ["Zero"; "<$50K"; "$50K-$250K"; "$250K-$1M"; "$1M-$5M"; ">$5M"]).
Proof.
  intros db stats. unfold stats, get_statistics.
  cbn [revenue_distribution total_organizations].
  split; [by rewrite group_count_total, length_map|]. split; [reflexivity|].
  intros label n. rewrite group_count_lookup. cbv zeta.
  destruct (decide (length _ = 0%nat)) as [|Hn]; [done|].
  intros [= <-]. split; [lia|].
  destruct (filter (λ k', k' = label) _) as [|k ks] eqn:E; [done|].
  assert (k ∈ filter (λ k', k' = label)
                (map (λ r, revenue_range (col r "revenue_amount"))
                   (organizations db))) as Hk
    by (rewrite E; apply list_elem_of_here).
  apply list_elem_of_filter in Hk as [-> Hk].
  apply list_elem_of_fmap in Hk as (r & -> & _). apply revenue_range_labels.
Qed.

Lemma limit_offset_length_le limit offset rows :
  (length (limit_offset limit offset rows) ≤ length rows)%nat.
Proof.
  unfold limit_offset. destruct (limit <? 0);
    rewrite ?length_take, length_drop; lia.
Qed.

Lemma limit_offset_length_limit limit offset rows :
  0 ≤ limit → Z.of_nat (length (limit_offset limit offset rows)) ≤ limit.
Proof.
  intros H. unfold limit_offset. destruct (Z.ltb_spec limit 0); [lia|].
  rewrite length_take. lia.
Qed.

Lemma limit_offset_beyond limit offset rows :
  Z.of_nat (length rows) ≤ offset → limit_offset limit offset rows = [].
Proof.
  intros H. unfold limit_offset. rewrite drop_ge by lia.
  by destruct (limit <? 0); rewrite ?take_nil.
Qed.

(** A search that returns has run both statements: the page is cut from
    the selection in descending order of revenue and the total is the size
    of the selection. *)
Lemma search_organizations_Ok db query state city ntee_code
    min_revenue max_revenue min_assets max_assets limit offset page total :
  search_organizations db query state city ntee_code
    min_revenue max_revenue min_assets max_assets limit offset
  = Ok (page, total) →
  ∃ sorted,
    sorted ≡ₚ selection db query state city ntee_code
                min_revenue max_revenue min_assets max_assets
    ∧ StronglySorted revenue_desc sorted
    ∧ page = limit_offset limit offset sorted
    ∧ total = Z.of_nat
                (length
                   (selection db query state city ntee_code
                      min_revenue max_revenue min_assets max_assets)).
Proof.
  intros H.
  assert (given query = None ∨ (given state = None ∧ given city = None))
    as Hfree.
  { destruct (given query) as [q|] eqn:Eq; [|by left]. right.
    destruct (given state) as [s|] eqn:Es.
    { rewrite search_organizations_raises in H; [done|congruence|left; congruence]. }
    destruct (given city) as [c|] eqn:Ec; [|done].
    rewrite search_organizations_raises in H; [done|congruence|right; congruence]. }
  rewrite search_organizations_fails in H by exact Hfree.
  destruct (bounds_fit min_revenue max_revenue min_assets max_assets) eqn:Hbounds;
    [|discriminate H].
  destruct (query_parses query) eqn:Hquery; [|discriminate H].
  destruct (int64 limit) eqn:Hlimit; [|discriminate H].
  destruct (int64 offset) eqn:Hoffset; [|discriminate H].
  cbn [negb andb] in H.
  destruct (search_organizations_selects db query state city ntee_code
              min_revenue max_revenue min_assets max_assets limit offset
              Hfree Hbounds Hquery Hlimit Hoffset)
    as (sorted & Hperm & Hsorted & Hsearch).
  rewrite Hsearch in H. exists sorted. by injection H as <- <-.
Qed.

(** X13.  Whenever a search returns, the page is part of the selection it
    counts: it has at most total rows, at most limit rows when the limit is
    not negative, every row on it is a stored row that satisfies the
    filters, its rows are in descending revenue order, the total is at most
    the corpus size, and an offset at or beyond the total gives an empty
    page with the same total. *)
Theorem page_within_selection :
  ∀ db query state city ntee_code
    min_revenue max_revenue min_assets max_assets limit offset page total,
    search_organizations db query state city ntee_code
      min_revenue max_revenue min_assets max_assets limit offset
    = Ok (page, total) →
    Z.of_nat (length page) ≤ total
    ∧ (0 ≤ limit → Z.of_nat (length page) ≤ limit)
    ∧ 0 ≤ total ≤ Z.of_nat (length (organizations db))
    ∧ (∀ r, r ∈ page →
            r ∈ organizations db
            ∧ satisfies query state city ntee_code
                min_revenue max_revenue min_assets max_assets r = true)
    ∧ StronglySorted revenue_desc page
    ∧ (total ≤ offset → page = []).
Proof.
  intros db query state city ntee_code min_revenue max_revenue
    min_assets max_assets limit offset page total H.
  apply search_organizations_Ok in H as (sorted & Hperm & Hsorted & -> & ->).
  set (selected := selection db query state city ntee_code
                     min_revenue max_revenue min_assets max_assets) in *.
  pose proof (Permutation_length Hperm) as Hlen.
  split; [|split; [|split; [|split; [|split]]]].
  - pose proof (limit_offset_length_le limit offset sorted). lia.
  - apply limit_offset_length_limit.
  - split; [lia|]. unfold selected, selection.
    pose proof (length_filter
                  (λ r, satisfies query state city ntee_code min_revenue
                          max_revenue min_assets max_assets r = true)
                  (organizations db)). lia.
  - intros r Hr. apply limit_offset_subseteq in Hr.
    rewrite Hperm in Hr. unfold selected, selection in Hr.
    apply list_elem_of_filter in Hr as [Hs Hr]. by split.
  - by apply limit_offset_sorted.
  - intros Hoff. apply limit_offset_beyond. lia.
Qed.

(** X14.  The export rejects a limit above 10000 but has no lower bound: a
    negative limit that fits 64 bits exports every stored row, however many
    there are, in descending order of revenue, and a limit below -2^63 makes
    the handler fail with OverflowError (the texts being modest); a limit from 0 to 10000 exports at
    most that many rows; a free-text query together with a state filter
    makes the handler fail with the search's OperationalError; the CSV
    export of an empty table has no header. *)
Theorem export_limit_unbounded_below :
  (∀ db format q state limit,
     10000 < limit →
     export_data db format q state limit = ExportUnprocessable "limit" "le=10000")
  ∧ (∀ db limit,
       limit < 0 → int64 limit = true →
       ∃ rows,
         export_data db "json" None None limit
         = ExportJson rows (Z.of_nat (length (organizations db)))
         ∧ rows ≡ₚ organizations db
         ∧ StronglySorted revenue_desc rows)
  ∧ (∀ db q state limit rows total,
       0 ≤ limit ≤ 10000 →
       export_data db "json" q state limit = ExportJson rows total →
       Z.of_nat (length rows) ≤ limit)
  ∧ (∀ db format q state limit,
       limit ≤ 10000 → given q ≠ None → given state ≠ None →
       export_data db format q state limit = ExportError OperationalError)
  ∧ (∀ db format q state limit,
       limit < -9223372036854775808 →
       given q = None ∨ given state = None → query_parses q = true →
       texts_fit q state None None = true →
       export_data db format q state limit = ExportError OverflowError)
  ∧ (∀ limit, limit ≤ 10000 → int64 limit = true →
       export_data init_database "csv" None None limit = ExportCsv None []).
Proof.
  split; [|split; [|split; [|split; [|split]]]].
  - intros db format q state limit H. unfold export_data.
    by destruct (Z.ltb_spec 10000 limit); [|lia].
  - intros db limit H Hfits. unfold export_data.
    destruct (Z.ltb_spec 10000 limit); [lia|].
    destruct (search_organizations_selects db None None None None
                None None None None limit 0)
      as (sorted & Hperm & Hsorted & ->); try done; [by left|].
    rewrite selection_no_filters in *.
    rewrite limit_offset_all by (auto; lia).
    exists sorted. by rewrite bool_decide_eq_true_2 by reflexivity.
  - intros db q state limit rows total Hlimit. unfold export_data.
    destruct (Z.ltb_spec 10000 limit); [lia|].
    destruct (search_organizations db q state None None None None None None limit 0)
      as [[page n]|e] eqn:E; [|done].
    rewrite bool_decide_eq_true_2 by reflexivity. intros [= <- <-].
    apply search_organizations_Ok in E as (sorted & _ & _ & -> & _).
    apply limit_offset_length_limit. lia.
  - intros db format q state limit Hlimit Hq Hs. unfold export_data.
    destruct (Z.ltb_spec 10000 limit); [lia|].
    by rewrite search_organizations_raises by auto.
  - intros db format q state limit Hlimit Hfree Hquery _. unfold export_data.
    destruct (Z.ltb_spec 10000 limit); [lia|].
    rewrite search_organizations_fails by (destruct Hfree; auto).
    rewrite Hquery.
    assert (int64 limit = false) as ->.
    { apply not_true_is_false. rewrite int64_spec. lia. }
    reflexivity.
  - intros limit Hlimit Hfits. unfold export_data.
    destruct (Z.ltb_spec 10000 limit); [lia|].
    destruct (search_organizations_selects init_database None None None None
                None None None None limit 0)
      as (sorted & Hperm & _ & ->); try done; [by left|].
    rewrite selection_no_filters in Hperm. cbn [organizations init_database] in Hperm.
    apply Permutation_nil_r in Hperm as ->.
    assert (limit_offset limit 0 [] = []) as ->.
    { unfold limit_offset. rewrite drop_nil.
      by destruct (limit <? 0); rewrite ?take_nil. }
    by rewrite bool_decide_eq_false_2 by discriminate.
Qed.

(** ** The LIKE filters *)

Lemma like_percent p s :
  like (String "%" p) s
  = like p s || match s with
               | EmptyString => false
               | String _ s' => like (String "%" p) s'
               end.
Proof. destruct s; reflexivity. Qed.

Lemma like_plain_char c p s :
  c ≠ "%"%char → c ≠ "_"%char →
  like (String c p) s
  = match s with
    | EmptyString => false
    | String d s' => bool_decide (sqlite3Tolower c = sqlite3Tolower d) && like p s'
    end.
Proof.
  intros H1 H2.
  destruct c as [[] [] [] [] [] [] [] []]; try reflexivity; congruence.
Qed.

Lemma append_empty_r (s : string) : (s ++ "")%string = s.
Proof. induction s as [|d s IH]; [reflexivity|]. by rewrite append_String, IH. Qed.

(** A pattern that starts with [%] matches when the rest of the pattern
    matches some tail of the text. *)
Lemma like_percent_tail p s :
  like (String "%" p) s = true
  ↔ ∃ skipped tail, s = (skipped ++ tail)%string ∧ like p tail = true.
Proof.
  induction s as [|d s IH].
  - rewrite like_percent, orb_false_r. split.
    + intros H. by exists "", "".
    + intros (skipped & tail & Heq & H).
      destruct skipped; [|discriminate Heq]. rewrite append_empty in Heq.
      by subst tail.
  - rewrite like_percent, orb_true_iff, IH. split.
    + intros [H|(skipped & tail & -> & H)].
      * by exists "", (String d s).
      * exists (String d skipped), tail. by rewrite append_String.
    + intros (skipped & tail & Heq & H). destruct skipped as [|d' skipped].
      * rewrite append_empty in Heq. subst tail. by left.
      * rewrite append_String in Heq. injection Heq as -> ->.
        right. by exists skipped, tail.
Qed.

(** A wildcard-free text followed by [%] matches the texts that begin with
    it, letter case aside. *)
Lemma like_prefix n s :
  plain_text n = true →
  like (n ++ "%")%string s = true
  ↔ ∃ start rest, s = (start ++ rest)%string ∧ nocase start = nocase n.
Proof.
  revert s. induction n as [|c n IH]; intros s Hn.
  - rewrite append_empty. split.
    + intros _. by exists "", s.
    + intros _. apply like_percent_tail. exists s, "".
      split; [|reflexivity]. by rewrite append_empty_r.
  - cbn [plain_text] in Hn. apply andb_prop in Hn as [Hc Hn].
    apply andb_prop in Hc as [Hc Hc3]. apply andb_prop in Hc as [Hc1 Hc2].
    apply negb_true_iff, bool_decide_eq_false in Hc1, Hc2.
    rewrite append_String, like_plain_char by done.
    destruct s as [|d s].
    + split; [done|]. intros (start & rest & Heq & Hup).
      destruct start; [discriminate Hup|discriminate Heq].
    + rewrite andb_true_iff, bool_decide_eq_true, (IH s Hn). split.
      * intros [Hcd (start & rest & -> & Hup)].
        exists (String d start), rest. rewrite append_String. split; [done|].
        simpl. by rewrite Hup, Hcd.
      * intros (start & rest & Heq & Hup). destruct start as [|d' start].
        { discriminate Hup. }
        rewrite append_String in Heq. injection Heq as -> ->.
        simpl in Hup. injection Hup as Hcd Hup.
        split; [done|]. by exists start, rest.
Qed.

(** A text without NUL is its own C string, also in front of another. *)
Lemma c_string_plain n r :
  plain_text n = true → c_string (n ++ r) = (n ++ c_string r)%string.
Proof.
  induction n as [|c n IH]; intros Hn; [by rewrite !append_empty|].
  cbn [plain_text] in Hn. apply andb_prop in Hn as [Hc Hn].
  apply andb_prop in Hc as [_ Hc].
  apply negb_true_iff, bool_decide_eq_false in Hc.
  rewrite !append_String. cbn [c_string].
  rewrite bool_decide_eq_false_2 by exact Hc. by rewrite IH.
Qed.

Lemma sql_test_like cell pattern :
  sql_test OpLike cell (SText pattern) = true
  ↔ ∃ text, like_text cell = Some text ∧ like (c_string pattern) text = true.
Proof.
  destruct cell as [|z|s]; cbn [sql_test like_text].
  - split; [done|]. by intros (text & Htext & _).
  - split; [intros H; by eexists|]. by intros (text & [= <-] & H).
  - split; [intros H; by eexists|]. by intros (text & [= <-] & H).
Qed.

(** The category filter of a search. *)
Lemma sql_test_begins prefix cell :
  plain_text prefix = true →
  sql_test OpLike cell (SText (prefix ++ "%")%string) = true
  ↔ text_begins prefix cell.
Proof.
  intros Hp. rewrite sql_test_like. unfold text_begins.
  rewrite (c_string_plain prefix "%" Hp).
  change (c_string "%") with "%". split.
  - intros (text & Htext & H).
    apply (like_prefix prefix text Hp) in H as (start & rest & -> & Hfold).
    by exists (start ++ rest)%string, start, rest.
  - intros (text & start & rest & Htext & -> & Hfold).
    exists (start ++ rest)%string. split; [exact Htext|].
    apply (like_prefix prefix _ Hp). by exists start, rest.
Qed.

(** The city filter of a search. *)
Lemma sql_test_contains part cell :
  plain_text part = true →
  sql_test OpLike cell (SText ("%" ++ part ++ "%")%string) = true
  ↔ text_contains part cell.
Proof.
  intros Hp. rewrite sql_test_like. unfold text_contains.
  rewrite append_String, append_empty. cbn [c_string].
  rewrite bool_decide_eq_false_2 by discriminate.
  rewrite (c_string_plain part "%" Hp).
  change (c_string "%") with "%". split.
  - intros (text & Htext & H).
    apply like_percent_tail in H as (before & tail & -> & H).
    apply (like_prefix part tail Hp) in H as (middle & after & -> & Hfold).
    by exists (before ++ middle ++ after)%string, before, middle, after.
  - intros (text & before & middle & after & Htext & -> & Hfold).
    exists (before ++ middle ++ after)%string. split; [exact Htext|].
    apply like_percent_tail. exists before, (middle ++ after)%string.
    split; [done|]. apply (like_prefix part _ Hp). by exists middle, after.
Qed.

Lemma satisfies_ntee_code n r :
  PyStr.truthy n = true →
  satisfies None None None (Some n) None None None None r
  = sql_test OpLike (col r "ntee_code") (SText (n ++ "%")%string).
Proof.
  intros H. unfold satisfies. cbn [given]. rewrite H. cbn [andb].
  by rewrite !andb_true_r.
Qed.

Lemma satisfies_city c r :
  PyStr.truthy c = true →
  satisfies None None (Some c) None None None None None r
  = sql_test OpLike (col r "city") (SText ("%" ++ c ++ "%")%string).
Proof.
  intros H. unfold satisfies. cbn [given]. rewrite H. cbn [andb].
  by rewrite !andb_true_r.
Qed.

(** X15.  A search by category alone, with a filter text without [%], [_]
    and NUL and within SQLite's pattern limit, selects exactly the stored
    rows whose code begins with the text, and a search by city alone
    exactly the stored rows whose city contains the text, ASCII letter case
    aside in both and texts read up to their first NUL; rows with a NULL
    cell are never selected.  The total counts these rows and the page holds
    none else.  A [_] in the filter text stands for any one character, so
    the city filter "_" selects every row with a non-empty city. *)
Theorem like_filters_match :
  (∀ db ntee_code limit offset page total,
     PyStr.truthy ntee_code = true → plain_text ntee_code = true →
     patterns_fit None (Some ntee_code) = true →
     search_organizations db None None None (Some ntee_code)
       None None None None limit offset = Ok (page, total) →
     let selected :=
       selection db None None None (Some ntee_code) None None None None in
     total = Z.of_nat (length selected)
     ∧ (∀ r, r ∈ page → r ∈ selected)
     ∧ (∀ r, r ∈ selected
             ↔ r ∈ organizations db ∧ text_begins ntee_code (col r "ntee_code")))
  ∧ (∀ db city limit offset page total,
       PyStr.truthy city = true → plain_text city = true →
       patterns_fit (Some city) None = true →
       search_organizations db None None (Some city) None
         None None None None limit offset = Ok (page, total) →
       let selected :=
         selection db None None (Some city) None None None None None in
       total = Z.of_nat (length selected)
       ∧ (∀ r, r ∈ page → r ∈ selected)
       ∧ (∀ r, r ∈ selected
               ↔ r ∈ organizations db ∧ text_contains city (col r "city")))
  ∧ (∀ prefix part, ¬ text_begins prefix SNull ∧ ¬ text_contains part SNull)
  ∧ (∀ db r,
       r ∈ selection db None None (Some "_") None None None None None
       ↔ r ∈ organizations db
         ∧ ∃ text, like_text (col r "city") = Some text ∧ text ≠ "").
Proof.
  assert (∀ db query state city ntee_code
            min_revenue max_revenue min_assets max_assets limit offset page total,
            search_organizations db query state city ntee_code
              min_revenue max_revenue min_assets max_assets limit offset
            = Ok (page, total) →
            total = Z.of_nat
                      (length (selection db query state city ntee_code
                                 min_revenue max_revenue min_assets max_assets))
            ∧ ∀ r, r ∈ page →
                   r ∈ selection db query state city ntee_code
                         min_revenue max_revenue min_assets max_assets)
    as Hsearch.
  { intros db query state city ntee_code min_revenue max_revenue
      min_assets max_assets limit offset page total H.
    apply search_organizations_Ok in H as (sorted & Hperm & _ & -> & ->).
    split; [reflexivity|]. intros r Hr. apply limit_offset_subseteq in Hr.
    by rewrite Hperm in Hr. }
  split; [|split; [|split]].
  - intros db ntee_code limit offset page total Hgiven Hplain _ H selected.
    destruct (Hsearch _ _ _ _ _ _ _ _ _ _ _ _ _ H) as [Htotal Hpage].
    split; [exact Htotal|]. split; [exact Hpage|].
    intros r. unfold selected, selection. rewrite list_elem_of_filter.
    rewrite (satisfies_ntee_code ntee_code r Hgiven).
    rewrite (sql_test_begins ntee_code _ Hplain).
    split; intros [H1 H2]; by split.
  - intros db city limit offset page total Hgiven Hplain _ H selected.
    destruct (Hsearch _ _ _ _ _ _ _ _ _ _ _ _ _ H) as [Htotal Hpage].
    split; [exact Htotal|]. split; [exact Hpage|].
    intros r. unfold selected, selection. rewrite list_elem_of_filter.
    rewrite (satisfies_city city r Hgiven).
    rewrite (sql_test_contains city _ Hplain).
    split; intros [H1 H2]; by split.
  - intros prefix part. split.
    + by intros (text & start & rest & Htext & _).
    + by intros (text & before & middle & after & Htext & _).
  - intros db r. unfold selection. rewrite list_elem_of_filter.
    rewrite (satisfies_city "_" r eq_refl), sql_test_like.
    change (c_string ("%" ++ "_" ++ "%")) with "%_%".
    split.
    + intros [(text & Htext & H) Hr]. split; [exact Hr|].
      exists text. split; [exact Htext|]. intros ->. discriminate H.
    + intros [Hr (text & Htext & Hne)]. split; [|exact Hr].
      exists text. split; [exact Htext|].
      destruct text as [|c text]; [done|].
      apply like_percent_tail. exists "", (String c text).
      split; [reflexivity|].
      change (like "_%" (String c text)) with (like "%" text).
      apply like_percent_tail. exists text, "".
      split; [|reflexivity]. by rewrite append_empty_r.
Qed.


(** ** From the file to the table *)

(** Every row of the table after a sequence of upserts was there before or
    was built from one of the records. *)
Lemma foldl_upsert_from db orgs r :
  r ∈ organizations (foldl upsert db orgs) →
  r ∈ organizations db ∨ ∃ org id, org ∈ orgs ∧ r = new_row id (supplied org).
Proof.
  revert db. induction orgs as [|org orgs IH]; intros db Hr; [by left|].
  cbn [foldl] in Hr. destruct (IH _ Hr) as [Hin|(org' & id & Hin & ->)].
  - unfold upsert in Hin. cbn [organizations] in Hin.
    apply elem_of_app in Hin as [Hin|Hin].
    + left. by apply list_elem_of_filter in Hin as [_ Hin].
    + right. apply list_elem_of_singleton in Hin as ->.
      exists org, (sqlite_sequence db + 1). split; [apply list_elem_of_here|done].
  - right. exists org', id. split; [by apply list_elem_of_further|done].
Qed.

(** Every record of a batch was parsed from a row of the partition. *)
Lemma parse_eo_bmf_from rows o :
  o ∈ parse_eo_bmf rows → ∃ raw, raw ∈ rows ∧ _parse_eo_row raw = Ok (Some o).
Proof.
  induction rows as [|raw rows IH]; simpl; [by intros ?%elem_of_nil|].
  destruct (_parse_eo_row raw) as [[o'|]|e] eqn:E; intros Ho.
  - apply elem_of_cons in Ho as [->|Ho].
    + exists raw. split; [apply list_elem_of_here|exact E].
    + destruct (IH Ho) as (raw' & Hin & Hp).
      exists raw'. split; [by apply list_elem_of_further|exact Hp].
  - destruct (IH Ho) as (raw' & Hin & Hp).
    exists raw'. split; [by apply list_elem_of_further|exact Hp].
  - destruct (IH Ho) as (raw' & Hin & Hp).
    exists raw'. split; [by apply list_elem_of_further|exact Hp].
Qed.

Lemma process_all_data_from env o :
  o ∈ run_organizations (process_all_data env) →
  ∃ raw, raw ∈ concat (downloaded env) ∧ _parse_eo_row raw = Ok (Some o).
Proof.
  rewrite process_all_data_batch.
  induction (downloaded env) as [|f fs IH]; simpl; [by intros ?%elem_of_nil|].
  intros Ho. apply elem_of_app in Ho as [Ho|Ho].
  - destruct (parse_eo_bmf_from f o Ho) as (raw & Hin & Hp).
    exists raw. split; [apply elem_of_app; by left|exact Hp].
  - destruct (IH Ho) as (raw & Hin & Hp).
    exists raw. split; [apply elem_of_app; by right|exact Hp].
Qed.

(** The parser never sets [legal_name]. *)
Lemma parse_eo_row_legal_name row o :
  _parse_eo_row row = Ok (Some o) → o !! "legal_name" = None.
Proof.
  intros H. unfold _parse_eo_row in H.
  parse_step H. destruct (PyStr.truthy a); [|discriminate H].
  cbn [negb] in H.
  do 15 parse_step H.
  generalize dependent (_parse_amount_code (get row "ASSET_AMT")).
  generalize dependent (_parse_amount_code (get row "INCOME_AMT")).
  generalize dependent (_parse_amount_code (get row "REVENUE_AMT")).
  generalize dependent (PyStr.prefix 500 a0).
  generalize dependent (PyStr.prefix 2 a3).
  generalize dependent (PyStr.prefix 10 a4).
  generalize (default "Unknown" (NTEE_CATEGORIES !! PyStr.head a6)).
  intros d p10 p2 p500 z1 z2 z3 H.
  destruct (PyStr.truthy a6); apply Ok_Some_inj in H; rewrite <- H;
    vm_compute; reflexivity.
Qed.

(** What the statement binds for the columns below. *)
Lemma supplied_fields org :
  supplied org !! "legal_name" = Some (bind (default PNone (org !! "legal_name")))
  ∧ supplied org !! "ntee_code" = Some (bind (default PNone (org !! "ntee_code")))
  ∧ supplied org !! "asset_amount"
    = Some (bind (default (PInt 0) (org !! "asset_amount")))
  ∧ supplied org !! "income_amount"
    = Some (bind (default (PInt 0) (org !! "income_amount")))
  ∧ supplied org !! "revenue_amount"
    = Some (bind (default (PInt 0) (org !! "revenue_amount")))
  ∧ supplied org !! "data_source"
    = Some (bind (default (PStr "IRS") (org !! "data_source"))).
Proof.
  unfold supplied, data_tuple.
  repeat match goal with
         | |- context [default ?d (org !! ?k)] =>
             generalize (default d (org !! k)); intro
         end.
  repeat split; vm_compute; reflexivity.
Qed.

Ltac in_schema :=
  repeat first [apply list_elem_of_here | apply list_elem_of_further].

(** The row the table gets for a parsed record. *)
Lemma new_row_parsed id raw o :
  _parse_eo_row raw = Ok (Some o) →
  let r := new_row id (supplied o) in
  ∃ ein name ntee_code,
    strip (get raw "EIN") = Ok ein ∧ ein ≠ ""
    ∧ strip (get raw "NAME") = Ok name
    ∧ strip (get raw "NTEE_CD") = Ok ntee_code
    ∧ col r "ein" = SText ein
    ∧ col r "name" = SText (PyStr.prefix 500 name)
    ∧ col r "ntee_code" = SText ntee_code
    ∧ col r "legal_name" = SNull
    ∧ col r "asset_amount" = SInt (_parse_amount_code (get raw "ASSET_AMT"))
    ∧ col r "income_amount" = SInt (_parse_amount_code (get raw "INCOME_AMT"))
    ∧ col r "revenue_amount" = SInt (_parse_amount_code (get raw "REVENUE_AMT"))
    ∧ col r "data_source" = SText "IRS_EO_BMF".
Proof.
  intros H r.
  destruct (parse_eo_row_fields raw o H)
    as (ein & name & state & zip & Hein & Ht & Hname & _ & _
        & Ho1 & Ho2 & _ & _ & Ho3 & Ho4 & Ho5 & Ho6).
  destruct (parse_eo_row_ntee raw o H) as (ntee_code & Hcode & Ho7 & _).
  pose proof (parse_eo_row_legal_name raw o H) as Ho8.
  destruct (supplied_fields o) as (S1 & S2 & S3 & S4 & S5 & S6).
  rewrite Ho8 in S1. rewrite Ho7 in S2. rewrite Ho3 in S3. rewrite Ho4 in S4.
  rewrite Ho5 in S5. rewrite Ho6 in S6. cbn [from_option bind Datatypes.id] in S1, S2, S3, S4, S5, S6.
  exists ein, name, ntee_code.
  split; [exact Hein|]. split; [by destruct ein|].
  split; [exact Hname|]. split; [exact Hcode|].
  split.
  { subst r. rewrite col_new_row_ein. by apply ein_of_text. }
  split.
  { subst r. rewrite name_of_new_row, Ho2. reflexivity. }
  subst r.
  split.
  { pose proof (col_new_row id (supplied o) (plain "ntee_code" TEXT) ltac:(in_schema)) as Hc.
    cbn [plain with_default col_name] in Hc. rewrite Hc.
    unfold stored. cbn [plain col_name col_affinity col_not_null andb].
    by rewrite S2. }
  split.
  { pose proof (col_new_row id (supplied o) (plain "legal_name" TEXT) ltac:(in_schema)) as Hc.
    cbn [plain with_default col_name] in Hc. rewrite Hc.
    unfold stored. cbn [plain col_name col_affinity col_not_null andb].
    by rewrite S1. }
  split.
  { pose proof (col_new_row id (supplied o) (with_default "asset_amount" INTEGER (SInt 0)) ltac:(in_schema)) as Hc.
    cbn [plain with_default col_name] in Hc. rewrite Hc.
    unfold stored.
    cbn [with_default col_name col_affinity col_not_null andb].
    by rewrite S3. }
  split.
  { pose proof (col_new_row id (supplied o) (with_default "income_amount" INTEGER (SInt 0)) ltac:(in_schema)) as Hc.
    cbn [plain with_default col_name] in Hc. rewrite Hc.
    unfold stored.
    cbn [with_default col_name col_affinity col_not_null andb].
    by rewrite S4. }
  split.
  { pose proof (col_new_row id (supplied o) (with_default "revenue_amount" INTEGER (SInt 0)) ltac:(in_schema)) as Hc.
    cbn [plain with_default col_name] in Hc. rewrite Hc.
    unfold stored.
    cbn [with_default col_name col_affinity col_not_null andb].
    by rewrite S5. }
  pose proof (col_new_row id (supplied o) (plain "data_source" TEXT) ltac:(in_schema)) as Hc.
    cbn [plain with_default col_name] in Hc. rewrite Hc.
  unfold stored. cbn [plain col_name col_affinity col_not_null andb].
  by rewrite S6.
Qed.

(** Every row of a freshly imported table comes from a parsed row. *)
Lemma import_task_rows env r :
  r ∈ organizations (import_task env init_database).1 →
  ∃ raw o id,
    raw ∈ concat (downloaded env) ∧ _parse_eo_row raw = Ok (Some o)
    ∧ r = new_row id (supplied o).
Proof.
  rewrite import_task_fst. intros Hr.
  apply foldl_upsert_from in Hr as [Hr|(o & id & Ho & ->)];
    [by apply elem_of_nil in Hr|].
  destruct (process_all_data_from env o Ho) as (raw & Hin & Hp).
  by exists raw, o, id.
Qed.

(** X16.  After an import into a new database every stored row comes from a
    row of a retrieved partition: its EIN is that row's trimmed, non-empty
    EIN, its name the trimmed name cut to 500 characters, its classification
    code the trimmed code (the empty text, not NULL, when the file has none),
    its three amounts the bucket values of the row's amount codes, its source
    label 'IRS_EO_BMF'; its legal name is NULL. *)
Theorem import_stores_parsed_fields :
  ∀ env r,
    r ∈ organizations (import_task env init_database).1 →
    ∃ raw ein name ntee_code,
      raw ∈ concat (downloaded env)
      ∧ strip (get raw "EIN") = Ok ein ∧ ein ≠ ""
      ∧ strip (get raw "NAME") = Ok name
      ∧ strip (get raw "NTEE_CD") = Ok ntee_code
      ∧ col r "ein" = SText ein
      ∧ col r "name" = SText (PyStr.prefix 500 name)
      ∧ col r "ntee_code" = SText ntee_code
      ∧ col r "legal_name" = SNull
      ∧ col r "asset_amount" = SInt (_parse_amount_code (get raw "ASSET_AMT"))
      ∧ col r "income_amount" = SInt (_parse_amount_code (get raw "INCOME_AMT"))
      ∧ col r "revenue_amount" = SInt (_parse_amount_code (get raw "REVENUE_AMT"))
      ∧ col r "data_source" = SText "IRS_EO_BMF".
Proof.
  intros env r Hr.
  destruct (import_task_rows env r Hr) as (raw & o & id & Hin & Hp & ->).
  destruct (new_row_parsed id raw o Hp) as (ein & name & code & H).
  exists raw, ein, name, code. split; [exact Hin|exact H].
Qed.

(** ** The NTEE distribution *)

Lemma substr_1_1_text v :
  is_null v = false →
  ∃ c, text_of (substr_1_1 v) = Some c ∧ (String.length c ≤ 1)%nat.
Proof.
  destruct v as [|z|s]; [discriminate| |]; intros _; cbn [substr_1_1 text_of].
  - eexists. split; [reflexivity|apply length_prefix].
  - eexists. split; [reflexivity|apply length_prefix].
Qed.

Lemma length_omap_total {A B} (f : A → option B) (l : list A) :
  Forall (λ x, is_Some (f x)) l → length (omap f l) = length l.
Proof.
  induction 1 as [|x l [y Hy] _ IH]; [reflexivity|].
  cbn [omap list_omap]. rewrite Hy. cbn [length]. by rewrite IH.
Qed.

Lemma filter_all_elem {A} (P : A → Prop) `{!∀ x, Decision (P x)} (l : list A) :
  (∀ x, x ∈ l → P x) → filter P l = l.
Proof.
  intros HP. induction l as [|x l IH]; [reflexivity|].
  rewrite filter_cons. destruct (decide (P x)) as [|Hn].
  - rewrite IH; [reflexivity|]. intros y Hy. apply HP. by apply list_elem_of_further.
  - destruct Hn. apply HP. apply list_elem_of_here.
Qed.

Lemma ntee_keys_length db :
  length (omap (λ r, text_of (substr_1_1 (col r "ntee_code")))
            (filter (λ r, is_null (col r "ntee_code") = false) (organizations db)))
  = length (filter (λ r, is_null (col r "ntee_code") = false) (organizations db)).
Proof.
  apply length_omap_total. apply Forall_forall. intros r Hr.
  apply list_elem_of_filter in Hr as [Hr _].
  destruct (substr_1_1_text _ Hr) as (c & -> & _). by eexists.
Qed.

(** X17.  The NTEE distribution counts exactly the rows whose code is not
    NULL, each once; a category is the empty text or one character, and the
    name the statistics endpoint adds is the category table's entry for it,
    or 'Unknown' when there is none.  After an import into a new database no
    code is NULL, so the counts add up to the total: the organizations
    without a code are a group of their own, under the empty category, and
    that group is named 'Unknown'. *)
Theorem ntee_distribution_counts_coded :
  (∀ db,
     map_fold (λ (_ : string) (n total : nat), (n + total)%nat) 0%nat
       (ntee_distribution db)
     = length (filter (λ r, is_null (col r "ntee_code") = false)
                 (organizations db)))
  ∧ (∀ db category count name,
       api_get_statistics db !! category = Some (count, name) →
       ntee_distribution db !! category = Some count
       ∧ (1 ≤ count)%nat ∧ (String.length category ≤ 1)%nat
       ∧ name = default "Unknown" (NTEE_CATEGORIES !! category)
       ∧ (category = "" → name = "Unknown"))
  ∧ (∀ env,
       let db := (import_task env init_database).1 in
       Z.of_nat
         (map_fold (λ (_ : string) (n total : nat), (n + total)%nat) 0%nat
            (ntee_distribution db))
       = total_organizations (get_statistics db)).
Proof.
  split; [|split].
  - intros db. unfold ntee_distribution.
    by rewrite group_count_total, ntee_keys_length.
  - intros db category count name. unfold api_get_statistics.
    rewrite map_lookup_imap.
    destruct (ntee_distribution db !! category) as [n|] eqn:E;
      cbn [mbind option_bind]; [|discriminate].
    intros Heq.
    assert (n = count) as -> by congruence.
    assert (name = default "Unknown" (NTEE_CATEGORIES !! category)) as ->
      by congruence.
    clear Heq. split; [reflexivity|].
    unfold ntee_distribution in E. rewrite group_count_lookup in E.
    cbv zeta in E.
    destruct (decide (length _ = 0%nat)) as [|Hn]; [done|].
    injection E as <-. split; [lia|].
    split.
    + destruct (filter (λ k', k' = category) _) as [|k ks] eqn:Ek; [done|].
      assert (k ∈ filter (λ k', k' = category)
                (omap (λ r, text_of (substr_1_1 (col r "ntee_code")))
                   (filter (λ r, is_null (col r "ntee_code") = false)
                      (organizations db)))) as Hk
        by (rewrite Ek; apply list_elem_of_here).
      apply list_elem_of_filter in Hk as [-> Hk].
      apply list_elem_of_omap in Hk as (r & Hr & Hc).
      apply list_elem_of_filter in Hr as [Hr _].
      destruct (substr_1_1_text _ Hr) as (c & Hc' & Hlen).
      rewrite Hc' in Hc. by injection Hc as <-.
    + split; [reflexivity|]. intros ->. vm_compute. reflexivity.
  - intros env db. unfold ntee_distribution.
    rewrite group_count_total, ntee_keys_length.
    unfold get_statistics. cbn [total_organizations]. f_equal.
    f_equal. apply filter_all_elem. intros r Hr. subst db.
    destruct (import_task_rows env r Hr) as (raw & o & id & _ & Hp & ->).
    destruct (new_row_parsed id raw o Hp)
      as (ein & name & code & _ & _ & _ & _ & _ & _ & -> & _).
    reflexivity.
Qed.

End DatabaseManager.


(** * Worked instances *)

Import IRSDataProcessor.

(** Instances of the SQLite parameters for the worked examples: an index in
    which every row is a hit, texts stored as they are, every query text
    taken to parse, and rows of equal revenue returned in the order a merge
    sort of the selected rows leaves them in. *)
Definition fts_all : string → row → bool := λ _ _, true.
Definition text_as_is : string → sqlval := SText.
Definition fts5_any : string → bool := λ _, true.
Definition merge_order : select → list sqlval → list row → list row :=
  λ _ _ rows, merge_sort revenue_desc rows.

Lemma merge_order_permutation q values rows : merge_order q values rows ≡ₚ rows.
Proof. apply merge_sort_Permutation. Qed.

Lemma merge_order_sorted q values rows :
  StronglySorted revenue_desc (merge_order q values rows).
Proof. apply StronglySorted_merge_sort; apply _. Qed.

Lemma parse_amount_code_normalizes_witness :
  _parse_amount_code (Some "zz") = 0
  ∧ _parse_amount_code (Some "b") = _parse_amount_code (Some "B")
  ∧ _parse_amount_code (Some ("  " ++ "7" ++ " ")%string) = _parse_amount_code (Some "7").
Proof.
  destruct parse_amount_code_normalizes as (_ & Hunknown & Hcase & Hspace & _).
  split; [|split].
  - apply Hunknown. intros code Hcode. vm_compute in Hcode.
    injection Hcode as <-. apply (bool_decide_unpack _). vm_compute. exact I.
  - apply Hcase. reflexivity.
  - apply Hspace; reflexivity.
Defined.

Lemma helping_hands_parses :
  match _parse_eo_row helping_hands with Ok (Some _) => true | _ => false end = true.
Proof. vm_compute. reflexivity. Qed.

Lemma ntee_description_from_first_character_witness :
  ∃ ntee_code,
    strip (get helping_hands "NTEE_CD") = Ok ntee_code
    ∧ ntee_code = "B300".
Proof.
  destruct ntee_description_from_first_character as (H & _).
  pose proof helping_hands_parses as P.
  destruct (_parse_eo_row helping_hands) as [[o|]|e] eqn:E;
    [|discriminate P|discriminate P].
  destruct (H helping_hands o E) as (n & Hn & _).
  exists n. split; [exact Hn|]. vm_compute in Hn. congruence.
Defined.

Lemma blank_ein_row_dropped_uncounted_witness :
  _parse_eo_row helping_hands_no_ein = Ok None.
Proof.
  apply (blank_ein_row_dropped_uncounted helping_hands_no_ein).
  right. exists "   ". split; reflexivity.
Defined.

(** C4 as stated fails: a partition with a blank-EIN row gives the very
    summary the partition without it gives, and its [errors] entry is 0. *)
Lemma blank_ein_row_leaves_no_count :
  _parse_eo_row helping_hands_no_ein = Ok None
  ∧ run_stats (process_all_data (one_partition [helping_hands_no_ein; helping_hands]))
    = run_stats (process_all_data (one_partition [helping_hands]))
  ∧ errors (run_stats
              (process_all_data (one_partition [helping_hands_no_ein; helping_hands])))
    = 0
  ∧ organizations_processed
      (run_stats
         (process_all_data (one_partition [helping_hands_no_ein; helping_hands])))
    = 1.
Proof. vm_compute. repeat split; reflexivity. Qed.

Lemma revenue_distribution_nonempty_buckets_witness :
  revenue_range (SInt 40000) = "<$50K" ∧ revenue_range (SInt 5000000) = ">$5M".
Proof.
  destruct (revenue_distribution_nonempty_buckets text_as_is) as (H & _).
  split.
  - apply (H 40000). lia.
  - apply (H 5000000). lia.
Defined.

(** C6 as stated fails: the histogram of the five-revenue corpus reports no
    count, and so no 0, for the bucket "$50K-$250K". *)
Lemma empty_bucket_not_reported :
  revenue_distribution (get_statistics (five_revenues_db text_as_is))
    !! "$50K-$250K" ≠ Some 0%nat
  ∧ size (revenue_distribution (get_statistics (five_revenues_db text_as_is)))
    = 5%nat.
Proof. split; [vm_compute; discriminate | vm_compute; reflexivity]. Qed.

Lemma search_total_and_join_defect_witness :
  search_organizations fts_all fts5_any merge_order init_database
    (Some "Hands") None (Some "Boston") None None None None None 50 0
  = Raise OperationalError
  ∧ ∃ page,
      search_organizations fts_all fts5_any merge_order
        (five_revenues_db text_as_is)
        None None None None None None None None 3 0
      = Ok (page, 5)
      ∧ Z.of_nat (length page) = 3.
Proof.
  destruct (search_total_and_join_defect fts_all fts5_any merge_order
              merge_order_permutation merge_order_sorted)
    as (_ & Hraise & _ & Hall).
  split.
  - apply Hraise; [discriminate|right; discriminate].
  - destruct (Hall (five_revenues_db text_as_is) 3) as (page & Hs & Hl & _);
      [lia|reflexivity|].
    exists page. split; [exact Hs|exact Hl].
Defined.

Lemma range_filters_inclusive_witness :
  let db := five_revenues_db text_as_is in
  let r := default ∅ (organizations db !! 3%nat) in
  r ∈ selection fts_all db None None None None
        (Some 2000000) (Some 2000000) None None.
Proof.
  intros db r.
  destruct (range_filters_inclusive fts_all text_as_is fts5_any merge_order
              merge_order_permutation merge_order_sorted) as (Hsel & _).
  apply (Hsel db (Some 2000000) (Some 2000000) None None r 2000000 0).
  - apply (bool_decide_unpack _). vm_compute. exact I.
  - vm_compute. reflexivity.
  - vm_compute. reflexivity.
  - repeat split; intros x Hx; inversion Hx; lia.
Defined.

Lemma search_endpoint_validates_paging_only_witness :
  api_search fts_all fts5_any merge_order init_database
    None None None None None None None None 0 0
  = Unprocessable "limit" "ge=1"
  ∧ api_search fts_all fts5_any merge_order init_database
      None None None None None None None None 501 0
    = Unprocessable "limit" "le=500"
  ∧ api_search fts_all fts5_any merge_order init_database
      None None None None None None None None 50 (-1)
    = Unprocessable "offset" "ge=0"
  ∧ api_search fts_all fts5_any merge_order (five_revenues_db text_as_is)
      None None None None (Some 5000000) (Some 1000000) None None 50 0
    = SearchResponse 0 50 0 []
  ∧ api_search fts_all fts5_any merge_order (five_revenues_db text_as_is)
      None None None None (Some 9223372036854775808) None None None 50 0
    = ServerError "Search failed".
Proof.
  destruct (search_endpoint_validates_paging_only fts_all fts5_any merge_order
              merge_order_permutation merge_order_sorted)
    as (Hlimit & Hoffset & Hrange & Hbound & _).
  split; [|split; [|split; [|split]]].
  - apply (Hlimit init_database None None None None None None None None 0 0). lia.
  - apply (Hlimit init_database None None None None None None None None 501 0). lia.
  - apply Hoffset; lia.
  - apply Hrange; [lia|reflexivity|reflexivity|lia|lia|reflexivity].
  - apply Hbound; [reflexivity|lia|lia].
Defined.

(** C8 as stated fails: a request whose revenue range is inverted is not
    rejected; it is run against the corpus and answered with an empty page. *)
Lemma inverted_range_not_rejected :
  api_search fts_all fts5_any merge_order (five_revenues_db text_as_is)
    None None None None (Some 5000000) (Some 1000000) None None 50 0
  = SearchResponse 0 50 0 []
  ∧ api_search fts_all fts5_any merge_order (five_revenues_db text_as_is)
      None None None None (Some 1000000) (Some 5000000) None None 50 0
    ≠ SearchResponse 0 50 0 [].
Proof. split; [vm_compute; reflexivity | vm_compute; discriminate]. Qed.

Lemma ein_unique_and_replaced_witness :
  let first := organization "123456789" "Helping Hands" 10 in
  let second := organization "123456789" "Helping Hands Inc" 20 in
  ∃ id,
    sqlite_sequence init_database < id
    ∧ filter (λ r, col r "ein" = ein_of text_as_is second)
        (organizations
           (insert_organizations text_as_is init_database
              ([first] ++ second :: []) 1000).1)
      = [new_row text_as_is id (supplied second)].
Proof.
  intros first second.
  destruct (ein_unique_and_replaced text_as_is) as (_ & Hreplace & _).
  apply Hreplace.
  - lia.
  - apply (bool_decide_unpack _). vm_compute. exact I.
  - apply (bool_decide_unpack _). vm_compute. exact I.
  - constructor.
Defined.

Lemma insert_organizations_counts_input_witness :
  (insert_organizations text_as_is init_database five_revenues 2).2 = Ok 5.
Proof.
  destruct (insert_organizations_counts_input text_as_is) as (Hcount & _).
  apply (Hcount init_database five_revenues 2).
  - lia.
  - apply (bool_decide_unpack _). vm_compute. exact I.
  - apply (bool_decide_unpack _). vm_compute. exact I.
Defined.


(** ** Instances for the further properties *)


Lemma amounts_are_buckets_witness :
  0 ≤ _parse_amount_code (Some "x") ≤ 750000000
  ∧ ∃ o v, _parse_eo_row helping_hands = Ok (Some o)
           ∧ o !! "asset_amount" = Some (PInt v) ∧ 0 ≤ v ≤ 750000000.
Proof.
  destruct amounts_are_buckets as (Hcode & Hrecord).
  split; [apply Hcode|].
  pose proof helping_hands_parses as P.
  destruct (_parse_eo_row helping_hands) as [[o|]|e] eqn:E;
    [|discriminate P|discriminate P].
  destruct (Hrecord helping_hands o "asset_amount" E) as (v & Hv & Hb).
  - apply list_elem_of_here.
  - exists o, v. split; [reflexivity|]. split; [exact Hv|exact Hb].
Defined.

Lemma failing_row_skipped_witness :
  _parse_eo_row (<["NAME" := None]> helping_hands) = Raise AttributeError
  ∧ _parse_eo_row
      (<["EIN" := Some (String (ascii_of_nat 160) "")]>
         (<["NAME" := None]> helping_hands))
    = Ok None.
Proof.
  destruct failing_row_skipped as (_ & Hshort & _ & Hblank & _).
  split.
  - apply (Hshort _ "NAME").
    + apply list_elem_of_further, list_elem_of_here.
    + vm_compute. reflexivity.
    + vm_compute. discriminate.
  - apply (Hblank _ (String (ascii_of_nat 160) "")).
    + vm_compute. reflexivity.
    + reflexivity.
Defined.

Lemma five_revenues_first_row :
  match organizations (after_calls text_as_is init_database [(five_revenues, 1000)]) with
  | r :: _ => bool_decide (col r "ein" = SText "000000001")
  | [] => false
  end = true.
Proof. vm_compute. reflexivity. Qed.

Lemma unnamed_columns_never_stored_witness :
  ∃ r,
    r ∈ organizations (after_calls text_as_is init_database [(five_revenues, 1000)])
    ∧ col r "ntee_description" = SNull ∧ col r "country" = SText "US".
Proof.
  pose proof five_revenues_first_row as P.
  destruct (organizations
              (after_calls text_as_is init_database [(five_revenues, 1000)]))
    as [|r rows] eqn:E; [discriminate P|].
  exists r.
  assert (r ∈ organizations
                (after_calls text_as_is init_database [(five_revenues, 1000)]))
    as Hr by (rewrite E; apply list_elem_of_here).
  rewrite E in Hr.
  split; [exact Hr|]. rewrite <- E in Hr.
  destruct (unnamed_columns_never_stored text_as_is _ r Hr)
    as (H1 & _ & _ & _ & _ & _ & _ & H8).
  split; [exact H1|exact H8].
Defined.

(** One EIN given twice and another record after it: the lookup returns the
    row of the second record. *)
Lemma lookup_returns_upserted_witness :
  let first := organization "123456789" "Helping Hands" 10 in
  let second := organization "123456789" "Helping Hands Inc" 20 in
  let other := organization "000000001" "Zero Fund" 0 in
  ∃ id,
    get_organization fts_all fts5_any merge_order
      (insert_organizations text_as_is init_database
         ([first] ++ second :: [other]) 1000).1
      "123456789"
    = Ok (Some (new_row text_as_is id (supplied second)))
    ∧ col (new_row text_as_is id (supplied second)) "name"
      = SText "Helping Hands Inc".
Proof.
  intros first second other.
  destruct (lookup_returns_upserted fts_all text_as_is fts5_any merge_order)
    as (_ & Hround & _).
  destruct (Hround init_database [first] second [other] 1000 "123456789")
    as (id & _ & Hget & Hname).
  - lia.
  - apply (bool_decide_unpack _). vm_compute. exact I.
  - apply (bool_decide_unpack _). vm_compute. exact I.
  - apply (bool_decide_unpack _). vm_compute. exact I.
  - vm_compute. reflexivity.
  - exists id. split; [exact Hget|]. rewrite Hname. reflexivity.
Defined.

Lemma batch_size_not_positive_witness :
  insert_organizations text_as_is init_database five_revenues (-5)
  = (init_database, Ok 0).
Proof.
  destruct (batch_size_not_positive text_as_is) as (_ & Hneg).
  apply Hneg. lia.
Defined.

(** Batches of one: the record before the one without an EIN is stored, the
    one after it is not. *)
Lemma failing_record_loses_its_batch_witness :
  let run :=
    insert_organizations text_as_is init_database
      ([organization "000000001" "Zero Fund" 0]
       ++ ∅ :: [organization "000000002" "Small Fund" 40000]) 1 in
  run.2 = Raise IntegrityError
  ∧ map (λ r, col r "ein") (organizations run.1) = [SText "000000001"].
Proof.
  intros run.
  pose proof (failing_record_loses_its_batch text_as_is init_database
                [organization "000000001" "Zero Fund" 0] ∅
                [organization "000000002" "Small Fund" 40000] 1) as H.
  cbv zeta in H. destruct H as (H & _).
  - lia.
  - apply (bool_decide_unpack _). vm_compute. exact I.
  - intros [[Hein _] _]. apply Hein. reflexivity.
  - apply (bool_decide_unpack _). vm_compute. exact I.
  - unfold run. rewrite H. split; vm_compute; reflexivity.
Defined.

Lemma helping_hands_run :
  match run_organizations (process_all_data (one_partition [helping_hands])) with
  | [] => false
  | _ => true
  end = true.
Proof. vm_compute. reflexivity. Qed.

Lemma import_task_stores_batch_witness :
  let env := one_partition [helping_hands] in
  (import_task text_as_is env init_database).2
  = Some (Ok (organizations_processed (run_stats (process_all_data env))))
  ∧ organizations_processed (run_stats (process_all_data env)) = 1.
Proof.
  intros env.
  destruct (import_task_stores_batch text_as_is env init_database)
    as (_ & Hstored & _).
  split; [|reflexivity].
  apply Hstored. intros Hnil. pose proof helping_hands_run as P.
  unfold env in Hnil. rewrite Hnil in P. discriminate P.
Defined.

Lemma import_status_reads_corpus_witness :
  (import_status
     (import_task text_as_is (one_partition [helping_hands]) init_database).1).2
  = "complete".
Proof.
  destruct (import_status_reads_corpus text_as_is) as (_ & _ & _ & Hcomplete).
  apply Hcomplete. intros Hnil. pose proof helping_hands_run as P.
  rewrite Hnil in P. discriminate P.
Defined.

Lemma histogram_accounts_for_corpus_witness :
  (1 ≤ 1)%nat
  ∧ "Zero" ∈ ["Zero"; "<$50K"; "$50K-$250K"; "$250K-$1M"; "$1M-$5M"; ">$5M"].
Proof.
  destruct (histogram_accounts_for_corpus (five_revenues_db text_as_is))
    as (_ & _ & Hlabel).
  apply (Hlabel "Zero" 1%nat). vm_compute. reflexivity.
Defined.

Lemma five_revenues_page :
  match search_organizations fts_all fts5_any merge_order
          (five_revenues_db text_as_is)
          None None None None (Some 40000) None None None 2 1 with
  | Ok (page, total) =>
      bool_decide (map (λ r, col r "revenue_amount") page
                   = [SInt 2000000; SInt 300000] ∧ total = 4)
  | Raise _ => false
  end = true.
Proof. vm_compute. reflexivity. Qed.

(** The second and third of the four organizations with a revenue of at
    least 40000. *)
Lemma page_within_selection_witness :
  ∃ page total,
    search_organizations fts_all fts5_any merge_order
      (five_revenues_db text_as_is)
      None None None None (Some 40000) None None None 2 1
    = Ok (page, total)
    ∧ map (λ r, col r "revenue_amount") page = [SInt 2000000; SInt 300000]
    ∧ Z.of_nat (length page) ≤ total
    ∧ StronglySorted revenue_desc page.
Proof.
  pose proof five_revenues_page as P.
  destruct (search_organizations fts_all fts5_any merge_order
              (five_revenues_db text_as_is)
              None None None None (Some 40000) None None None 2 1)
    as [[page total]|e] eqn:E; [|discriminate P].
  apply bool_decide_eq_true in P as [Hpage _].
  destruct (page_within_selection fts_all fts5_any merge_order
              merge_order_permutation merge_order_sorted
              _ _ _ _ _ _ _ _ _ _ _ page total E)
    as (Hlen & _ & _ & _ & Hsorted & _).
  exists page, total. split; [reflexivity|]. split; [exact Hpage|].
  split; [exact Hlen|exact Hsorted].
Defined.

Lemma export_limit_unbounded_below_witness :
  export_data fts_all fts5_any merge_order init_database "json" None None 10001
  = ExportUnprocessable "limit" "le=10000"
  ∧ export_data fts_all fts5_any merge_order init_database "json"
      (Some "Hands") (Some "NY") 10
    = ExportError OperationalError
  ∧ (∃ rows,
       export_data fts_all fts5_any merge_order (five_revenues_db text_as_is)
         "json" None None (-1)
       = ExportJson rows 5
       ∧ rows ≡ₚ organizations (five_revenues_db text_as_is))
  ∧ export_data fts_all fts5_any merge_order (five_revenues_db text_as_is)
      "json" None None (-9223372036854775809)
    = ExportError OverflowError.
Proof.
  destruct (export_limit_unbounded_below fts_all fts5_any merge_order
              merge_order_permutation merge_order_sorted)
    as (Hcap & Hall & _ & Hraise & Hover & _).
  split; [|split; [|split]].
  - apply Hcap. lia.
  - apply Hraise; [lia|discriminate|discriminate].
  - destruct (Hall (five_revenues_db text_as_is) (-1)) as (rows & Hrows & Hperm & _);
      [lia|reflexivity|].
    exists rows. split; [exact Hrows|exact Hperm].
  - apply Hover; [lia|by left|reflexivity|reflexivity].
Defined.

Lemma helping_hands_imported :
  match organizations
          (import_task text_as_is (one_partition [helping_hands]) init_database).1
  with
  | r :: _ => bool_decide (col r "ntee_code" = SText "B300")
  | [] => false
  end = true.
Proof. vm_compute. reflexivity. Qed.

Lemma helping_hands_found :
  match search_organizations fts_all fts5_any merge_order
          (import_task text_as_is (one_partition [helping_hands]) init_database).1
          None None None (Some "b3") None None None None 50 0 with
  | Ok (page, total) => bool_decide (total = 1)
  | Raise _ => false
  end = true.
Proof. vm_compute. reflexivity. Qed.

(** The category filter "b3" finds the organization with code B300. *)
Lemma like_filters_match_witness :
  let db :=
    (import_task text_as_is (one_partition [helping_hands]) init_database).1 in
  ∃ page,
    search_organizations fts_all fts5_any merge_order db
      None None None (Some "b3") None None None None 50 0
    = Ok (page, 1)
    ∧ ∀ r, r ∈ page → text_begins "b3" (col r "ntee_code").
Proof.
  intros db. pose proof helping_hands_found as P. fold db in P.
  destruct (search_organizations fts_all fts5_any merge_order db
              None None None (Some "b3") None None None None 50 0)
    as [[page total]|e] eqn:E; [|discriminate P].
  apply bool_decide_eq_true in P as ->.
  destruct (like_filters_match fts_all fts5_any merge_order
              merge_order_permutation merge_order_sorted) as (Hntee & _).
  destruct (Hntee db "b3" 50 0 page 1 eq_refl eq_refl eq_refl E)
    as (_ & Hpage & Hselected).
  exists page. split; [reflexivity|].
  intros r Hr. by apply Hselected, Hpage.
Defined.

Lemma import_stores_parsed_fields_witness :
  ∃ r ein,
    r ∈ organizations
          (import_task text_as_is (one_partition [helping_hands]) init_database).1
    ∧ col r "ein" = SText ein ∧ ein ≠ "" ∧ col r "legal_name" = SNull.
Proof.
  pose proof helping_hands_imported as P.
  destruct (organizations
              (import_task text_as_is (one_partition [helping_hands])
                 init_database).1) as [|r rows] eqn:E; [discriminate P|].
  assert (r ∈ organizations
                (import_task text_as_is (one_partition [helping_hands])
                   init_database).1) as Hr
    by (rewrite E; apply list_elem_of_here).
  destruct (import_stores_parsed_fields text_as_is
              (one_partition [helping_hands]) r Hr)
    as (raw & ein & name & code & _ & _ & Hne & _ & _ & Hein & _ & _ & Hlegal & _).
  exists r, ein. rewrite E in Hr.
  split; [exact Hr|]. split; [exact Hein|]. split; [exact Hne|exact Hlegal].
Defined.

Lemma ntee_distribution_counts_coded_witness :
  ntee_distribution
    (import_task text_as_is (one_partition [helping_hands]) init_database).1
    !! "B" = Some 1%nat
  ∧ (String.length "B" ≤ 1)%nat.
Proof.
  destruct (ntee_distribution_counts_coded text_as_is) as (_ & Hgroup & _).
  destruct (Hgroup
              (import_task text_as_is (one_partition [helping_hands])
                 init_database).1 "B" 1%nat "Education")
    as (Hcount & _ & Hlen & _).
  - vm_compute. reflexivity.
  - split; [exact Hcount|exact Hlen].
Defined.

